(** * node-red-contrib-mcp-server: a shallow embedding of its nodes

    The development follows the source files:
    - [JS]         the fragment of JavaScript values the handlers inspect
                   (truthiness, property reads, [Object.entries], [String(v)]);
    - [Example]    [generateExampleParams] of the MCP client node;
    - [Client]     the MCP client node (connect / disconnect / sendRequest,
                   the reconnect timer, the pending-request table, the
                   handshake);
    - [FlowServer] the embedded MCP flow server (tool registry, [/health],
                   [/mcp] dispatch, [executeToolFlow]);
    - [Supervisor] the MCP server node that spawns and restarts a process;
    - [ToolNode]   the MCP tool node (the request it makes of a message,
                   the message it makes of a reply);
    - [ToolRegistry] the tool registry node (register / unregister /
                   update, and the events the flow server listens to).

    The nodes run on a single-threaded event loop.  Every callback the
    source installs (a timer body, a socket handler, a process handler, an
    HTTP route) is a transition of a state machine whose state is the
    node's fields together with the timers and handles that are alive; what
    a transition makes observable ([node.send], a callback invocation, a
    spawn, a close) is appended to a log.  The definitions come first, the
    properties after them. *)

From Stdlib Require Import ZArith Ascii String DecimalString DecimalN.
From stdpp Require Import gmap strings list.

Local Open Scope string_scope.
Set Warnings "-register-all,-clear-no-such-hyp".

(* ===================================================================== *)
(** ** JavaScript values *)
(* ===================================================================== *)

Module JS.

(** The values that [JSON.parse] can produce, plus [undefined] (the result
    of reading an absent property).  Numbers are the integers; an object is
    the list of its own enumerable properties in enumeration order, with
    pairwise distinct keys. *)
Inductive value : Type :=
| VUndefined
| VNull
| VBool (b : bool)
| VNum (n : Z)
| VStr (s : string)
| VArr (xs : list value)
| VObj (fields : list (string * value)).

(** A computation either completes or throws.  On JSON input the handlers
    can only throw a [Thrown] (a property read on [undefined] or [null],
    a call of something that is not a function) or the key error of the
    cache. *)
Inductive outcome (A : Type) : Type :=
| Ok (a : A)
| Thrown.
Arguments Ok {A} a.
Arguments Thrown {A}.

#[global] Instance outcome_ret : MRet outcome := fun _ a => Ok a.
#[global] Instance outcome_bind : MBind outcome := fun _ _ f m =>
  match m with
  | Ok a => f a
  | Thrown => Thrown
  end.

(** [if (v)], [!v], [a || b] *)
Definition truthy (v : value) : bool :=
  match v with
  | VUndefined | VNull => false
  | VBool b => b
  | VNum n => negb (n =? 0)%Z
  | VStr s => negb (String.eqb s "")
  | VArr _ | VObj _ => true
  end.

Definition or_else (a b : value) : value := if truthy a then a else b.

(** A property key that is a canonical array index ("0", "1", "10", but
    not "01" or ""). *)
Definition array_index (k : string) : option nat :=
  match NilEmpty.uint_of_string k with
  | Some u =>
      let n := N.of_uint u in
      if String.eqb (NilEmpty.string_of_uint (N.to_uint n)) k
      then Some (N.to_nat n) else None
  | None => None
  end.

Fixpoint assoc {A} (k : string) (fs : list (string * A)) : option A :=
  match fs with
  | [] => None
  | (k', v) :: fs' => if String.eqb k k' then Some v else assoc k fs'
  end.

Fixpoint chars (s : string) : list value :=
  match s with
  | EmptyString => []
  | String c s' => VStr (String c EmptyString) :: chars s'
  end.

Definition nth_or_undefined (xs : list value) (i : nat) : value :=
  default VUndefined (xs !! i).

(** [v.k] and [v[k]]: reading a property of [undefined] or [null] throws;
    a primitive has no own properties besides the indices and the length of
    a string; properties inherited from the built-in prototypes are not
    modelled (none of the names the handlers read is one). *)
Definition get (v : value) (k : string) : outcome value :=
  match v with
  | VUndefined | VNull => Thrown
  | VBool _ | VNum _ => Ok VUndefined
  | VStr s =>
      if String.eqb k "length" then Ok (VNum (Z.of_nat (String.length s)))
      else match array_index k with
           | Some i => Ok (nth_or_undefined (chars s) i)
           | None => Ok VUndefined
           end
  | VArr xs =>
      if String.eqb k "length" then Ok (VNum (Z.of_nat (length xs)))
      else match array_index k with
           | Some i => Ok (nth_or_undefined xs i)
           | None => Ok VUndefined
           end
  | VObj fs => Ok (default VUndefined (assoc k fs))
  end.

Definition index_key (i : nat) : string :=
  NilEmpty.string_of_uint (N.to_uint (N.of_nat i)).

Fixpoint indexed (i : nat) (xs : list value) : list (string * value) :=
  match xs with
  | [] => []
  | x :: xs' => (index_key i, x) :: indexed (S i) xs'
  end.

(** [Object.entries(v)] for a value that is neither [undefined] nor
    [null]. *)
Definition entries (v : value) : outcome (list (string * value)) :=
  match v with
  | VUndefined | VNull => Thrown
  | VBool _ | VNum _ => Ok []
  | VStr s => Ok (indexed 0 (chars s))
  | VArr xs => Ok (indexed 0 xs)
  | VObj fs => Ok fs
  end.

(** [obj[k] = v] on a plain object: an existing own property keeps its
    place, a new one is added last.  Assigning to ["__proto__"] goes to the
    accessor of [Object.prototype] and never creates an own property. *)
Fixpoint replace_field {A} (k : string) (v : A) (fs : list (string * A))
  : list (string * A) :=
  match fs with
  | [] => [(k, v)]
  | (k', v') :: fs' =>
      if String.eqb k k' then (k, v) :: fs' else (k', v') :: replace_field k v fs'
  end.

(** [delete obj[k]] *)
Fixpoint remove_field {A} (k : string) (fs : list (string * A)) : list (string * A) :=
  match fs with
  | [] => []
  | (k', v') :: fs' =>
      if String.eqb k k' then remove_field k fs' else (k', v') :: remove_field k fs'
  end.

Definition set_field (k : string) (v : value) (fs : list (string * value))
  : list (string * value) :=
  if String.eqb k "__proto__" then fs else replace_field k v fs.

Definition string_of_Z (n : Z) : string := NilEmpty.string_of_int (Z.to_int n).

Definition join_with (sep : string) (parts : list string) : string :=
  match parts with
  | [] => ""
  | p :: ps => fold_left (fun acc q => acc ++ sep ++ q) ps p
  end.

(** [String(v)], the conversion a template literal and [new Error(v)]
    apply. *)
Fixpoint to_string (v : value) : string :=
  match v with
  | VUndefined => "undefined"
  | VNull => "null"
  | VBool true => "true"
  | VBool false => "false"
  | VNum n => string_of_Z n
  | VStr s => s
  | VArr xs =>
      join_with ","
        (map (fun x => match x with
                       | VUndefined | VNull => ""
                       | _ => to_string x
                       end) xs)
  | VObj _ => "[object Object]"
  end.

(** [s.endsWith(suffix)] *)
Definition ends_with (s suffix : string) : bool :=
  let n := String.length s in
  let m := String.length suffix in
  (m <=? n)%nat && String.eqb (String.substring (n - m) m s) suffix.

(** The text of an exception the engine or a library raises is theirs; this
    stands for it where the source passes it on. *)
Definition exception_text : string := "(exception)".

(** What [JSON.stringify] keeps of an object literal: a property whose
    value is [undefined] is left out. *)
Definition is_defined (v : value) : bool :=
  match v with
  | VUndefined => false
  | _ => true
  end.

Definition literal (fs : list (string * value)) : value :=
  VObj (List.filter (fun kv => is_defined kv.2) fs).

End JS.

Import JS.

(* ===================================================================== *)
(** ** The MCP client node: example parameters *)
(* ===================================================================== *)

Module Example.

(** The value [generateExampleParams] stores for one property: the body of
    the [switch (propDef.type)]. *)
Definition example_value (propDef : value) : outcome value :=
  ty ← get propDef "type";
  match ty with
  | VStr t =>
      if String.eqb t "string" then
        en ← get propDef "enum";
        if truthy en then get en "0"
        else d ← get propDef "description"; mret (or_else d (VStr "example_string"))
      else if String.eqb t "number" || String.eqb t "integer" then mret (VNum 123)
      else if String.eqb t "boolean" then mret (VBool true)
      else if String.eqb t "object" then mret (VObj [])
      else if String.eqb t "array" then mret (VArr [])
      else d ← get propDef "description"; mret (or_else d (VStr "example_value"))
  | _ => d ← get propDef "description"; mret (or_else d (VStr "example_value"))
  end.

(** The [for (const [propName, propDef] of ...)] loop over the entries,
    threading the object [example]. *)
Fixpoint fill_example (props : list (string * value)) (example : list (string * value))
  : outcome (list (string * value)) :=
  match props with
  | [] => mret example
  | (propName, propDef) :: rest =>
      v ← example_value propDef;
      fill_example rest (set_field propName v example)
  end.

Definition generateExampleParams (schema : value) : outcome value :=
  if negb (truthy schema) then mret (VObj [])
  else
    properties ← get schema "properties";
    if negb (truthy properties) then mret (VObj [])
    else
      props ← entries properties;
      example ← fill_example props [];
      mret (VObj example).

(** The mapping by type, case by case: [example_for propDef v] when [v] is
    what a property defined by [propDef] gets. *)
Definition known_type (t : string) : bool :=
  String.eqb t "string" || String.eqb t "number" || String.eqb t "integer" ||
  String.eqb t "boolean" || String.eqb t "object" || String.eqb t "array".

Inductive example_for (propDef : value) : value -> Prop :=
| for_enum en first :
    get propDef "type" = Ok (VStr "string") ->
    get propDef "enum" = Ok en -> truthy en = true -> get en "0" = Ok first ->
    example_for propDef first
| for_string en d :
    get propDef "type" = Ok (VStr "string") ->
    get propDef "enum" = Ok en -> truthy en = false ->
    get propDef "description" = Ok d ->
    example_for propDef (or_else d (VStr "example_string"))
| for_number t :
    get propDef "type" = Ok (VStr t) -> t = "number" \/ t = "integer" ->
    example_for propDef (VNum 123)
| for_boolean :
    get propDef "type" = Ok (VStr "boolean") -> example_for propDef (VBool true)
| for_object :
    get propDef "type" = Ok (VStr "object") -> example_for propDef (VObj [])
| for_array :
    get propDef "type" = Ok (VStr "array") -> example_for propDef (VArr [])
| for_other ty d :
    get propDef "type" = Ok ty ->
    (forall t, ty = VStr t -> known_type t = false) ->
    get propDef "description" = Ok d ->
    example_for propDef (or_else d (VStr "example_value")).

Definition same_keys_by_type (props example : list (string * value)) : Prop :=
  Forall2 (fun p e => p.1 = e.1 /\ example_for p.2 e.2) props example.

(** The schema of the round trip, and a property of a type that is none of
    the six, with and without a description. *)
Definition round_trip_schema : value :=
  VObj [("type", VStr "object");
        ("properties",
         VObj [("a", VObj [("type", VStr "string"); ("enum", VArr [VStr "x"; VStr "y"])]);
               ("b", VObj [("type", VStr "integer")])])].

Definition described_null : value :=
  VObj [("properties",
         VObj [("p", VObj [("type", VStr "null"); ("description", VStr "the count")])])].

Definition plain_null : value :=
  VObj [("properties", VObj [("p", VObj [("type", VStr "null")])])].

End Example.

Import Example.

(* ===================================================================== *)
(** ** The MCP client node: the session *)
(* ===================================================================== *)

Module Client.

(** The node is the state machine of its callbacks.  Its inputs are the
    calls of [connect], [disconnect] and [sendRequest] (from the ['input']
    handler, from the delayed [connect] of [autoConnect], from the
    ['close'] handler of the node), the replies of the HTTP requests in
    flight, the events of the connection objects, and the timers.  What is
    kept of a step is what it does to the fields of the node, to the
    timers, connection objects and HTTP requests that are alive, and what it
    sends, reports and calls; [node.log] lines and the clock readings in
    payloads are not kept.  [new EventSource], [new WebSocket] and [close]
    are taken not to throw. *)

(** The configuration as the flow gives it. *)
Record config : Type := Config {
  serverUrl : string;
  cfg_connectionType : string;
  cfg_reconnect : bool
}.

Definition connectionType (c : config) : string :=
  if String.eqb (cfg_connectionType c) "" then "http" else cfg_connectionType c.

(** [node.reconnect = config.reconnect || true] *)
Definition reconnect (c : config) : bool := cfg_reconnect c || true.

(** A callback given to [connect] or [disconnect]. *)
Inductive callback : Type :=
| CbNone                 (* the default [() => { }] *)
| CbCaller (k : nat).    (* a callback of the caller *)

(** A callback given to [sendRequest]: none, one of the caller, or one of
    the two continuations of [fetchMCPHandshake]. *)
Inductive request_callback : Type :=
| RcNone
| RcCaller (k : nat)
| RcInitialize
| RcToolsList (initResponse : value).

Inductive timer_body : Type :=
| TReconnect                                          (* scheduleReconnect *)
| THandshake                                          (* 500 ms after open *)
| TRequestTimeout (requestId : string) (cb : request_callback).

Inductive transport : Type := SSE | WS.
Inductive ready_state : Type := Connecting | Open | Closing.

(** A connection object that has not reached its closed state, with the
    [connect] callback its handlers closed over. *)
Record conn : Type := Conn {
  kind : transport;
  ready : ready_state;
  connect_callback : callback
}.

(** A request of [axios] whose promise is not settled yet. *)
Inductive http_call : Type :=
| Probe (cb : callback)                                   (* connectHTTP *)
| Post (forward : bool) (requestId : string) (cb : request_callback).
    (* sendRequest over HTTP ([forward = true]: the reply is also sent on)
       and over SSE *)

(** An entry of [node.pendingRequests]. *)
Record pending : Type := PendingRequest {
  pending_callback : request_callback;
  pending_timeout : nat
}.

Inductive observation : Type :=
| Status (text : string)
| Warn (text : string)
| Error (text : string)
| Called (k : nat) (error : option string) (result : value)
| Sent (topic : string) (payload : value) (requestId : option string)
| Created (h : nat) (k : transport)
| Closed (h : nat)
| Transmitted (h : nat) (request : value).

Record state : Type := State {
  isConnected : bool;
  connection : option nat;
  reconnectTimer : option nat;
  pendingRequests : gmap string pending;
  timers : gmap nat timer_body;     (* armed *)
  conns : gmap nat conn;            (* connection objects not yet closed *)
  calls : gmap nat http_call;       (* HTTP requests in flight *)
  fresh : nat;                      (* next timer, connection or call identity *)
  uuid_calls : nat;                 (* calls of [uuidv4] so far *)
  log : list observation
}.

Definition initial : state := State false None None ∅ ∅ ∅ ∅ 0 0 [].

Definition set_isConnected (x : bool) (s : state) : state :=
  State x (connection s) (reconnectTimer s) (pendingRequests s) (timers s)
        (conns s) (calls s) (fresh s) (uuid_calls s) (log s).

Definition set_connection (x : option nat) (s : state) : state :=
  State (isConnected s) x (reconnectTimer s) (pendingRequests s) (timers s)
        (conns s) (calls s) (fresh s) (uuid_calls s) (log s).

Definition set_reconnectTimer (x : option nat) (s : state) : state :=
  State (isConnected s) (connection s) x (pendingRequests s) (timers s)
        (conns s) (calls s) (fresh s) (uuid_calls s) (log s).

Definition set_pendingRequests (x : gmap string pending) (s : state) : state :=
  State (isConnected s) (connection s) (reconnectTimer s) x (timers s)
        (conns s) (calls s) (fresh s) (uuid_calls s) (log s).

Definition set_timers (x : gmap nat timer_body) (s : state) : state :=
  State (isConnected s) (connection s) (reconnectTimer s) (pendingRequests s) x
        (conns s) (calls s) (fresh s) (uuid_calls s) (log s).

Definition set_conns (x : gmap nat conn) (s : state) : state :=
  State (isConnected s) (connection s) (reconnectTimer s) (pendingRequests s) (timers s)
        x (calls s) (fresh s) (uuid_calls s) (log s).

Definition set_calls (x : gmap nat http_call) (s : state) : state :=
  State (isConnected s) (connection s) (reconnectTimer s) (pendingRequests s) (timers s)
        (conns s) x (fresh s) (uuid_calls s) (log s).

Definition set_fresh (x : nat) (s : state) : state :=
  State (isConnected s) (connection s) (reconnectTimer s) (pendingRequests s) (timers s)
        (conns s) (calls s) x (uuid_calls s) (log s).

Definition set_uuid_calls (x : nat) (s : state) : state :=
  State (isConnected s) (connection s) (reconnectTimer s) (pendingRequests s) (timers s)
        (conns s) (calls s) (fresh s) x (log s).

Definition set_log (x : list observation) (s : state) : state :=
  State (isConnected s) (connection s) (reconnectTimer s) (pendingRequests s) (timers s)
        (conns s) (calls s) (fresh s) (uuid_calls s) x.

Definition emit (o : observation) (s : state) : state :=
  set_log (log s ++ [o])%list s.

Definition setTimer (body : timer_body) (s : state) : nat * state :=
  (fresh s, set_fresh (S (fresh s)) (set_timers (<[fresh s := body]> (timers s)) s)).

Definition clearTimer (t : nat) (s : state) : state :=
  set_timers (delete t (timers s)) s.

Definition success (message : string) : value :=
  VObj [("success", VBool true); ("message", VStr message)].

Definition call (cb : callback) (error : option string) (result : value) (s : state)
  : state :=
  match cb with
  | CbNone => s
  | CbCaller k => emit (Called k error result) s
  end.

(** [callback(error)] for a request callback: the caller's is invoked, the
    handshake continuations warn and stop. *)
Definition fail (cb : request_callback) (message : string) (s : state) : state :=
  match cb with
  | RcNone => s
  | RcCaller k => emit (Called k (Some message) VUndefined) s
  | RcInitialize => emit (Warn ("Failed to initialize MCP session: " ++ message)) s
  | RcToolsList _ => emit (Warn ("Failed to fetch tools list: " ++ message)) s
  end.

(** [e1 || e2] where [e2] is only evaluated when needed *)
Definition or_lazy (a : value) (b : outcome value) : outcome value :=
  if truthy a then Ok a else b.

(** [toolsResponse.result?.tools || toolsResponse.tools || []] *)
Definition discovered_tools (toolsResponse : value) : outcome value :=
  result ← get toolsResponse "result";
  first ← match result with
          | VUndefined | VNull => Ok VUndefined
          | _ => get result "tools"
          end;
  or_lazy first (second ← get toolsResponse "tools"; mret (or_else second (VArr []))).

(** The payload of the "tools_discovered" handshake message, without its
    [timestamp] (the reading of the clock). *)
Definition tools_discovered (c : config) (initResponse toolsResponse : value)
  : outcome value :=
  tools ← discovered_tools toolsResponse;
  initResult ← get initResponse "result";
  let serverInfo := or_else initResult initResponse in
  match tools with
  | VArr ts =>
      toolNames ← mapM (fun t => get t "name") ts;
      exampleCall ← match ts with
                     | [] => Ok VNull
                     | t :: _ =>
                         method ← get t "name";
                         schema ← get t "inputSchema";
                         params ← generateExampleParams schema;
                         mret (VObj [("topic", VStr "request");
                                     ("payload", VObj [("method", method);
                                                       ("params", params)])])
                     end;
      mret (VObj [("type", VStr "tools_discovered");
                  ("serverUrl", VStr (serverUrl c));
                  ("connectionType", VStr (connectionType c));
                  ("serverInfo", serverInfo);
                  ("availableTools", tools);
                  ("toolCount", VNum (Z.of_nat (length ts)));
                  ("toolNames", VArr toolNames);
                  ("mcpSyntax",
                   VObj [("requestFormat",
                          VObj [("topic", VStr "request");
                                ("payload", VObj [("method", VStr "tool_name_here");
                                                  ("params", VStr "tool_parameters_object")])]);
                         ("exampleCall", exampleCall)])])
  | _ => Thrown     (* [tools.map] is not a function *)
  end.

Definition initialize_params : value :=
  VObj [("protocolVersion", VStr "2024-11-05");
        ("capabilities", VObj [("tools", VObj [])]);
        ("clientInfo", VObj [("name", VStr "node-red-mcp-client");
                             ("version", VStr "1.1.0")])].

Definition request_envelope (requestId method : string) (params : value) : value :=
  literal [("jsonrpc", VStr "2.0"); ("id", VStr requestId);
           ("method", VStr method); ("params", params)].

Section Node.

Variable c : config.

(** [uuidv4()]: the n-th call returns [uuid n]. *)
Variable uuid : nat -> string.

(** Whether [send] of the WebSocket library throws in a ready state other
    than open ([None]: the object has reached its closed state). *)
Variable send_throws : option ready_state -> bool.

Definition scheduleReconnect (s : state) : state :=
  match reconnectTimer s with
  | Some _ => s
  | None =>
      let '(t, s) := setTimer TReconnect s in
      set_reconnectTimer (Some t) s
  end.

Definition open_connection (k : transport) (cb : callback) (s : state) : state :=
  let h := fresh s in
  let s := set_fresh (S h) (set_conns (<[h := Conn k Connecting cb]> (conns s)) s) in
  emit (Created h k) (set_connection (Some h) s).

Definition connectHTTP (cb : callback) (s : state) : state :=
  set_fresh (S (fresh s)) (set_calls (<[fresh s := Probe cb]> (calls s)) s).

Definition connect (cb : callback) (s : state) : state :=
  if isConnected s then call cb None (success "Already connected") s
  else
    let s := emit (Status "connecting...") s in
    if String.eqb (connectionType c) "http" then connectHTTP cb s
    else if String.eqb (connectionType c) "sse" then open_connection SSE cb s
    else if String.eqb (connectionType c) "websocket" then open_connection WS cb s
    else
      let msg := "Unsupported connection type: " ++ connectionType c in
      call cb (Some msg) VUndefined (emit (Error msg) s).

(** [connection.close()]: an event source is closed at once, a socket
    starts its closing handshake and reports ['close'] later. *)
Definition close_connection (h : nat) (s : state) : state :=
  let s := emit (Closed h) s in
  match conns s !! h with
  | Some (Conn SSE _ _) => set_conns (delete h (conns s)) s
  | Some (Conn WS _ cb) => set_conns (<[h := Conn WS Closing cb]> (conns s)) s
  | None => s
  end.

(** The [forEach] over the pending requests in [disconnect]. *)
Definition clear_timeouts (s : state) : state :=
  map_fold (fun _ request s => clearTimer (pending_timeout request) s) s
           (pendingRequests s).

Definition disconnect (cb : callback) (s : state) : state :=
  if negb (isConnected s) then call cb None (success "Already disconnected") s
  else
    let s := emit (Status "disconnecting...") s in
    let s := match reconnectTimer s with
             | Some t => set_reconnectTimer None (clearTimer t s)
             | None => s
             end in
    let s := match connection s with
             | Some h =>
                 let s := if String.eqb (connectionType c) "sse" ||
                             String.eqb (connectionType c) "websocket"
                          then close_connection h s else s in
                 set_connection None s
             | None => s
             end in
    let s := set_isConnected false s in
    let s := emit (Status "disconnected") s in
    let s := clear_timeouts s in
    let s := set_pendingRequests ∅ s in
    call cb None (success "Disconnected") s.

Definition post (forward : bool) (requestId : string) (cb : request_callback)
  (s : state) : state :=
  set_fresh (S (fresh s)) (set_calls (<[fresh s := Post forward requestId cb]> (calls s)) s).

Definition sendRequest (method : string) (params : value) (cb : request_callback)
  (s : state) : state :=
  if negb (isConnected s) then fail cb "Not connected to MCP server" s
  else
    let requestId := uuid (uuid_calls s) in
    let s := set_uuid_calls (S (uuid_calls s)) s in
    if String.eqb (connectionType c) "http" then post true requestId cb s
    else if String.eqb (connectionType c) "sse" then post false requestId cb s
    else if String.eqb (connectionType c) "websocket" then
      let thrown :=
        match connection s with
        | None => true                       (* [null.send] *)
        | Some h => send_throws (ready <$> conns s !! h)
        end in
      if thrown then emit (Error "Send request error") (fail cb exception_text s)
      else
        let s := match connection s with
                 | Some h =>
                     match ready <$> conns s !! h with
                     | Some Open =>
                         emit (Transmitted h (request_envelope requestId method params)) s
                     | _ => s
                     end
                 | None => s
                 end in
        let '(t, s) := setTimer (TRequestTimeout requestId cb) s in
        set_pendingRequests (<[requestId := PendingRequest cb t]> (pendingRequests s)) s
    else s.

(** [callback(null, data)] for a request callback.  The handshake
    continuations throw when the reply lacks what they read. *)
Definition succeed (cb : request_callback) (data : value) (s : state) : outcome state :=
  match cb with
  | RcNone => Ok s
  | RcCaller k => Ok (emit (Called k None data) s)
  | RcInitialize =>
      result ← get data "result";       (* [initResponse.result || initResponse] *)
      let s := emit (Sent "handshake"
                       (VObj [("type", VStr "initialization");
                              ("serverInfo", or_else result data)]) None) s in
      mret (sendRequest "tools/list" (VObj []) (RcToolsList data) s)
  | RcToolsList initResponse =>
      payload ← tools_discovered c initResponse data;
      mret (emit (Sent "handshake" payload None) s)
  end.

Definition fetchMCPHandshake (s : state) : state :=
  if negb (isConnected s) then s
  else sendRequest "initialize" initialize_params RcInitialize s.

Definition transport_name (k : transport) : string :=
  match k with SSE => "sse" | WS => "websocket" end.

Definition transport_tag (k : transport) : string :=
  match k with SSE => "SSE" | WS => "WS" end.

Definition transport_label (k : transport) : string :=
  match k with SSE => "SSE" | WS => "WebSocket" end.

(** [onopen] / ['open'] *)
Definition on_open (h : nat) (k : transport) (cb : callback) (s : state) : state :=
  let s := set_conns (<[h := Conn k Open cb]> (conns s)) s in
  let s := set_isConnected true s in
  let s := emit (Status ("connected (" ++ transport_tag k ++ ")")) s in
  let s := emit (Sent "connected"
                   (VObj [("serverUrl", VStr (serverUrl c));
                          ("connectionType", VStr (transport_name k))]) None) s in
  let s := call cb None (success (transport_label k ++ " connection established")) s in
  snd (setTimer THandshake s).

(** The body of the [try] in [onmessage] / ['message'], on the parsed
    payload. *)
Definition on_parsed (message : value) (s : state) : outcome state :=
  id ← get message "id";
  match id with
  | VStr requestId =>
      if truthy id then
        match pendingRequests s !! requestId with
        | Some request =>
            let s := clearTimer (pending_timeout request) s in
            let s := set_pendingRequests (delete requestId (pendingRequests s)) s in
            mret (emit (Sent "response" message (Some requestId)) s)
        | None => mret (emit (Sent "message" message None) s)
        end
      else mret (emit (Sent "message" message None) s)
  | _ => mret (emit (Sent "message" message None) s)
  end.

Definition on_message (k : transport) (raw : string) (parsed : option value) (s : state)
  : state :=
  let garbled :=
    emit (Sent "raw" (VStr raw) None)
         (emit (Warn ("Failed to parse " ++ transport_label k ++ " message")) s) in
  match parsed with
  | Some message =>
      match on_parsed message s with
      | Ok s' => s'
      | Thrown => garbled
      end
  | None => garbled
  end.

(** [onerror] / ['error'].  An event source retries on its own unless the
    error is fatal; a socket goes on to close. *)
Definition on_error (h : nat) (k : transport) (cb : callback) (fatal : bool) (s : state)
  : state :=
  let s := match k with
           | SSE => if fatal then set_conns (delete h (conns s)) s
                    else set_conns (<[h := Conn SSE Connecting cb]> (conns s)) s
           | WS => set_conns (<[h := Conn WS Closing cb]> (conns s)) s
           end in
  let s := emit (Error (transport_label k ++ " connection error")) s in
  let s := set_isConnected false s in
  let s := emit (Status (transport_tag k ++ " error")) s in
  if reconnect c then scheduleReconnect s else s.

(** ['close'] of a socket *)
Definition on_close (h : nat) (code : Z) (s : state) : state :=
  let s := set_conns (delete h (conns s)) s in
  let s := set_isConnected false s in
  let s := emit (Status "disconnected") s in
  if reconnect c && negb (code =? 1000)%Z then scheduleReconnect s else s.

(** The reply of an HTTP request in flight. *)
Definition on_http_ok (call_ : http_call) (data : value) (s : state) : state :=
  match call_ with
  | Probe cb =>
      let s := set_isConnected true s in
      let s := emit (Status "connected (HTTP)") s in
      let s := emit (Sent "connected"
                       (VObj [("serverUrl", VStr (serverUrl c));
                              ("connectionType", VStr "http");
                              ("serverInfo", data)]) None) s in
      call cb None (success "HTTP connection established") s
  | Post forward requestId cb =>
      match succeed cb data s with
      | Ok s' =>
          if forward then emit (Sent "response" data (Some requestId)) s' else s'
      | Thrown =>
          (* the [.catch] after the [.then] *)
          let s := fail cb exception_text s in
          if forward then
            emit (Sent "error" (VObj [("error", VStr exception_text);
                                      ("requestId", VStr requestId)]) None) s
          else s
      end
  end.

Definition on_http_fail (call_ : http_call) (message : string) (s : state) : state :=
  match call_ with
  | Probe cb =>
      let s := set_isConnected false s in
      let s := emit (Status "connection failed") s in
      let s := call cb (Some message) VUndefined s in
      if reconnect c then scheduleReconnect s else s
  | Post forward requestId cb =>
      let s := fail cb message s in
      if forward then
        emit (Sent "error" (VObj [("error", VStr message);
                                  ("requestId", VStr requestId)]) None) s
      else s
  end.

(** The body of a timer. *)
Definition on_timer (body : timer_body) (s : state) : state :=
  match body with
  | TReconnect =>
      let s := set_reconnectTimer None s in
      if negb (isConnected s) then connect CbNone s else s
  | THandshake => fetchMCPHandshake s
  | TRequestTimeout requestId cb =>
      let s := set_pendingRequests (delete requestId (pendingRequests s)) s in
      let s := fail cb "Request timeout" s in
      emit (Sent "error" (VObj [("error", VStr "Request timeout");
                                ("requestId", VStr requestId)]) None) s
  end.

Inductive event : Type :=
| EConnect (cb : callback)                        (* [node.connect(cb)] *)
| EDisconnect (cb : callback)                     (* [node.disconnect(cb)] *)
| ERequest (method : string) (params : value) (cb : request_callback)
                                                  (* [node.sendRequest(...)] *)
| EHttpOk (k : nat) (data : value)                (* a reply to call [k] *)
| EHttpFail (k : nat) (message : string)          (* call [k] failed *)
| EOpen (h : nat)                                 (* connection [h] opened *)
| EMessage (h : nat) (raw : string) (parsed : option value)
    (* a message on [h]: its text and what [JSON.parse] makes of it *)
| EError (h : nat) (fatal : bool)                 (* an error on [h] *)
| EClose (h : nat) (code : Z)                     (* socket [h] closed *)
| ETimer (t : nat).                               (* the armed timer [t] fires *)

(** An event of a connection needs the connection object in a state that
    can raise it, a reply a request in flight, a timer event an armed
    timer; an event that cannot occur leaves the state as it is. *)
Definition step (s : state) (e : event) : state :=
  match e with
  | EConnect cb => connect cb s
  | EDisconnect cb => disconnect cb s
  | ERequest method params cb => sendRequest method params cb s
  | EHttpOk k data =>
      match calls s !! k with
      | Some call_ => on_http_ok call_ data (set_calls (delete k (calls s)) s)
      | None => s
      end
  | EHttpFail k message =>
      match calls s !! k with
      | Some call_ => on_http_fail call_ message (set_calls (delete k (calls s)) s)
      | None => s
      end
  | EOpen h =>
      match conns s !! h with
      | Some (Conn k Connecting cb) => on_open h k cb s
      | _ => s
      end
  | EMessage h raw parsed =>
      match conns s !! h with
      | Some (Conn k Open _) => on_message k raw parsed s
      | _ => s
      end
  | EError h fatal =>
      match conns s !! h with
      | Some (Conn k _ cb) => on_error h k cb fatal s
      | None => s
      end
  | EClose h code =>
      match conns s !! h with
      | Some (Conn WS _ _) => on_close h code s
      | _ => s
      end
  | ETimer t =>
      match timers s !! t with
      | Some body => on_timer body (clearTimer t s)
      | None => s
      end
  end.

Definition run (s : state) (evs : list event) : state := fold_left step evs s.

End Node.

(** *** The pending table, step by step *)

(** The invocations of the caller's callback [k] a log records. *)
Definition called (k : nat) (l : list observation) : list (option string * value) :=
  omap (fun o => match o with
                 | Called k' error result =>
                     if Nat.eqb k k' then Some (error, result) else None
                 | _ => None
                 end) l.

(** A step that leaves the pending table as it is and arms no request
    timeout. *)
Definition frame (s s' : state) : Prop :=
  pendingRequests s' = pendingRequests s /\
  uuid_calls s <= uuid_calls s' /\
  forall t id cb,
    timers s' !! t = Some (TRequestTimeout id cb) ->
    timers s !! t = Some (TRequestTimeout id cb).

(** [sendRequest] over a socket: a fresh identifier, its entry, its
    timeout. *)
Definition registered (uuid : nat -> string) (s s' : state) : Prop :=
  exists cb t,
    let id := uuid (uuid_calls s) in
    pendingRequests s' = <[id := PendingRequest cb t]> (pendingRequests s) /\
    uuid_calls s' = S (uuid_calls s) /\
    timers s' = <[t := TRequestTimeout id cb]> (timers s).

(** A step that removes no entry: it leaves the table alone, or adds the
    entry of a new request to it. *)
Definition grows (uuid : nat -> string) (s s' : state) : Prop :=
  frame s s' \/ exists s1, frame s s1 /\ registered uuid s1 s'.

(** The three ways an entry leaves the table. *)
Definition by_response (id : string) (s : state) (e : event) (s' : state) : Prop :=
  exists h raw message request,
    e = EMessage h raw (Some message) /\
    get message "id" = Ok (VStr id) /\
    pendingRequests s !! id = Some request /\
    pendingRequests s' = delete id (pendingRequests s) /\
    timers s' = delete (pending_timeout request) (timers s) /\
    uuid_calls s' = uuid_calls s /\
    log s' = (log s ++ [Sent "response" message (Some id)])%list.

Definition timeout_error (id : string) : observation :=
  Sent "error" (VObj [("error", VStr "Request timeout"); ("requestId", VStr id)]) None.

Definition by_timeout (id : string) (s : state) (e : event) (s' : state) : Prop :=
  exists t cb,
    e = ETimer t /\
    timers s !! t = Some (TRequestTimeout id cb) /\
    pendingRequests s' = delete id (pendingRequests s) /\
    timers s' = delete t (timers s) /\
    uuid_calls s' = uuid_calls s /\
    log s' = (log (fail cb "Request timeout" s) ++ [timeout_error id])%list.

Definition by_disconnect (s : state) (e : event) (s' : state) : Prop :=
  exists cb,
    e = EDisconnect cb /\
    isConnected s = true /\
    pendingRequests s' = ∅ /\
    uuid_calls s' = uuid_calls s /\
    (forall t body, timers s' !! t = Some body -> timers s !! t = Some body) /\
    (forall id request,
        pendingRequests s !! id = Some request ->
        timers s' !! pending_timeout request = None) /\
    exists obs,
      log s' = (log s ++ obs)%list /\
      forall k error result,
        Called k error result ∈ obs ->
        cb = CbCaller k /\ error = None /\ result = success "Disconnected".

(** What holds of the table in every state the node reaches: its keys are
    identifiers [uuidv4] has handed out, and an armed request timeout
    belongs to the entry of its request. *)
Definition table_ok (uuid : nat -> string) (s : state) : Prop :=
  (forall id request,
      pendingRequests s !! id = Some request ->
      exists k, k < uuid_calls s /\ id = uuid k) /\
  (forall t id cb,
      timers s !! t = Some (TRequestTimeout id cb) ->
      pendingRequests s !! id = Some (PendingRequest cb t)).

(** The timeout of every entry is armed; timers have identities below
    [fresh]; the reconnect timer the node holds is no request timeout. *)
Definition armed_ok (s : state) : Prop :=
  (forall id request,
      pendingRequests s !! id = Some request ->
      timers s !! pending_timeout request
        = Some (TRequestTimeout id (pending_callback request))) /\
  (forall t body, timers s !! t = Some body -> t < fresh s) /\
  (forall t, reconnectTimer s = Some t ->
             t < fresh s /\ forall id cb, timers s !! t <> Some (TRequestTimeout id cb)).

(** An identifier that was handed out and has no entry. *)
Definition retired (uuid : nat -> string) (id : string) (s : state) : Prop :=
  pendingRequests s !! id = None /\ exists k, k < uuid_calls s /\ id = uuid k.

(** *** The reconnect timer, step by step *)

(** A step that leaves [reconnectTimer] as it is and arms no reconnect
    timer. *)
Definition keeps (s s' : state) : Prop :=
  reconnectTimer s' = reconnectTimer s /\
  forall t, timers s' !! t = Some TReconnect -> timers s !! t = Some TReconnect.

(** An armed reconnect timer is the one [reconnectTimer] holds. *)
Definition reconnect_ok (s : state) : Prop :=
  forall t, timers s !! t = Some TReconnect -> reconnectTimer s = Some t.

(** The configurations and parameters of the scenarios. *)
Definition websocket_client : config := Config "http://localhost:8000" "websocket" false.

Definition numbered (n : nat) : string := "req-" ++ index_key n.

Definition throws_unless_open (r : option ready_state) : bool :=
  match r with
  | Some Open => false
  | _ => true
  end.

End Client.

(* ===================================================================== *)
(** ** The MCP flow server node *)
(* ===================================================================== *)

Module FlowServer.

(** *** The tool registry

    [toolRegistry] is a [NodeCache] without expiry shared by all flow
    servers: a plain object from key to stored value.  It is kept as the
    list of its entries in the order [keys()] returns them. *)

(** The definition the registry node emits with ['mcp-tool-register'];
    the server reads these three properties of it. *)
Record tool : Type := Tool {
  name : string;
  description : string;
  inputSchema : value
}.

Definition registry : Type := list (string * tool).

Definition cache_set (key : string) (t : tool) (reg : registry) : registry :=
  replace_field key t reg.

Definition cache_del (key : string) (reg : registry) : registry :=
  remove_field key reg.

Definition cache_keys (reg : registry) : list string := map fst reg.

(** [toolRegistry.get(key)]: a string or a number is a key, anything else
    makes the cache throw; a missing key reads as [undefined] ([None]). *)
Definition cache_get (key : value) (reg : registry) : outcome (option tool) :=
  match key with
  | VStr k => Ok (assoc k reg)
  | VNum n => Ok (assoc (string_of_Z n) reg)
  | _ => Thrown
  end.

Inductive registry_event : Type :=
| Register (toolDef : tool)        (* RED.events 'mcp-tool-register' *)
| Unregister (toolName : string).  (* RED.events 'mcp-tool-unregister' *)

Definition on_registry_event (e : registry_event) (reg : registry) : registry :=
  match e with
  | Register toolDef => cache_set (name toolDef) toolDef reg
  | Unregister toolName => cache_del toolName reg
  end.

Definition registry_after (evs : list registry_event) : registry :=
  fold_left (fun reg e => on_registry_event e reg) evs [].

(** *** The HTTP routes *)

(** What a route does with [res]: [res.json(body)] with a status, the
    [catch] of the [/mcp] route (status 500, code -32603, message
    "Internal error", and in [data] the text of the exception, which is the
    engine's), or the hand-over of a found tool to [executeToolFlow], whose
    promise the route awaits. *)
Inductive reply : Type :=
| Respond (status : nat) (body : value)
| InternalError (id : value)
| AwaitExecution (t : tool) (args : value) (id : value).

Definition rpc_error (id : value) (code : Z) (message : string) : value :=
  literal [("jsonrpc", VStr "2.0"); ("id", id);
           ("error", VObj [("code", VNum code); ("message", VStr message)])].

Definition rpc_result (id : value) (result : value) : value :=
  literal [("jsonrpc", VStr "2.0"); ("id", id); ("result", result)].

(** [GET /health]; [uptime] is the reading of [process.uptime()]. *)
Definition health (serverName : string) (uptime : value) (reg : registry) : reply :=
  Respond 200
    (literal [("status", VStr "healthy");
              ("server", VStr serverName);
              ("uptime", uptime);
              ("tools", VNum (Z.of_nat (length (indexed 0 (map VStr (cache_keys reg))))))]).

Definition tool_json (t : tool) : value :=
  literal [("name", VStr (name t));
           ("description", VStr (description t));
           ("inputSchema", inputSchema t)].

(** The [forEach] over [toolRegistry.keys()] in [handleToolsList]. *)
Definition listed_tools (reg : registry) : list value :=
  omap (fun key => tool_json <$> assoc key reg) (cache_keys reg).

Definition handleToolsList (request : value) (reg : registry) : outcome reply :=
  id ← get request "id";
  mret (Respond 200 (rpc_result id (VObj [("tools", VArr (listed_tools reg))]))).

Definition handleToolCall (request : value) (reg : registry) : outcome reply :=
  params ← get request "params";
  name ← get params "name";
  args ← get params "arguments";
  found ← cache_get name reg;
  id ← get request "id";
  match found with
  | None => mret (Respond 200 (rpc_error id (-32602) ("Tool not found: " ++ to_string name)))
  | Some t => mret (AwaitExecution t args id)
  end.

Definition handleDirectToolCall (request : value) (reg : registry) : outcome reply :=
  toolName ← get request "method";
  found ← cache_get toolName reg;
  id ← get request "id";
  match found with
  | None => mret (Respond 200 (rpc_error id (-32602) ("Tool not found: " ++ to_string toolName)))
  | Some t =>
      params ← get request "params";
      mret (AwaitExecution t (or_else params (VObj [])) id)
  end.

Definition handleInitialize (serverName : string) (request : value) : outcome reply :=
  id ← get request "id";
  mret (Respond 200
    (rpc_result id
       (VObj [("protocolVersion", VStr "2024-11-05");
              ("capabilities", VObj [("tools", VObj [("listChanged", VBool true)])]);
              ("serverInfo", VObj [("name", VStr serverName);
                                   ("version", VStr "1.0.0");
                                   ("description", VStr "Node-RED MCP Flow Server")])]))).

(** [request.method.endsWith('_tool')]: only a string has the method. *)
Definition method_endsWith (method : value) (suffix : string) : outcome bool :=
  match method with
  | VStr m => Ok (ends_with m suffix)
  | _ => Thrown
  end.

(** [a === s] for a string literal [s] *)
Definition is_string (a : value) (s : string) : bool :=
  match a with
  | VStr a' => String.eqb a' s
  | _ => false
  end.

(** The [default:] of the [switch (request.method)]. *)
Definition dispatch_default (method request : value) (reg : registry) : outcome reply :=
  direct ← (if truthy method then method_endsWith method "_tool" else mret false);
  if direct : bool then handleDirectToolCall request reg
  else
    id ← get request "id";
    mret (Respond 200
            (rpc_error id (-32601) ("Method not found: " ++ to_string method))).

(** The body of the [try] in [POST /mcp]. *)
Definition dispatch (serverName : string) (request : value) (reg : registry)
  : outcome reply :=
  method ← get request "method";
  if is_string method "tools/list" then handleToolsList request reg
  else if is_string method "tools/call" then handleToolCall request reg
  else if is_string method "initialize" then handleInitialize serverName request
  else dispatch_default method request reg.

(** [POST /mcp]: the [try] and its [catch], which reads [req.body.id]
    again. *)
Definition mcp_post (serverName : string) (request : value) (reg : registry)
  : outcome reply :=
  match dispatch serverName request reg with
  | Ok r => Ok r
  | Thrown => id ← get request "id"; mret (InternalError id)
  end.

(** *** The execution bridge *)

Inductive settlement : Type :=
| Pending
| Resolved (result : value)
| Rejected (message : string).

(** What one call of [executeToolFlow] keeps alive: its timer, its
    ['input'] listener and the promise it returned. *)
Record execution : Type := Execution {
  executionId : string;
  timer_armed : bool;
  listening : bool;
  promise : settlement
}.

(** [resolve] and [reject] of a promise: the first call settles it, a later
    call does nothing. *)
Definition settle (outcome_ : settlement) (p : settlement) : settlement :=
  match p with
  | Pending => outcome_
  | _ => p
  end.

(** The message [executeToolFlow] sends to the tool handler nodes. *)
Definition executionMsg (t : tool) (args : value) (uuid : string) : value :=
  VObj [("topic", VStr "mcp-tool-execute");
        ("payload", literal [("toolName", VStr (name t));
                             ("arguments", args);
                             ("executionId", VStr uuid)])].

(** [executeToolFlow(tool, args)], where [uuid] is what [uuidv4()]
    returns: the timer is armed, the listener installed, the request
    sent. *)
Definition executeToolFlow (t : tool) (args : value) (uuid : string)
  : execution * value :=
  (Execution uuid true true Pending, executionMsg t args uuid).

Inductive execution_event : Type :=
| TimeoutFires          (* the 30 s timer *)
| Input (msg : value).  (* an ['input'] event of the node *)

Definition on_timeout (x : execution) : execution :=
  if timer_armed x then
    Execution (executionId x) false (listening x)
              (settle (Rejected "Tool execution timeout") (promise x))
  else x.

Definition responseHandler (msg : value) (x : execution) : outcome execution :=
  topic ← get msg "topic";
  if is_string topic "mcp-tool-response" then
    payload ← get msg "payload";
    eid ← get payload "executionId";
    if is_string eid (executionId x) then
      (* clearTimeout(timeout); node.removeListener('input', responseHandler) *)
      error ← get payload "error";
      if truthy error then
        mret (Execution (executionId x) false false
                        (settle (Rejected (to_string error)) (promise x)))
      else
        result ← get payload "result";
        mret (Execution (executionId x) false false
                        (settle (Resolved result) (promise x)))
    else mret x
  else mret x.

Definition on_input (msg : value) (x : execution) : execution :=
  if listening x then
    match responseHandler msg x with
    | Ok x' => x'
    | Thrown => x
    end
  else x.

Definition execution_step (x : execution) (e : execution_event) : execution :=
  match e with
  | TimeoutFires => on_timeout x
  | Input msg => on_input msg x
  end.

Definition execution_run (x : execution) (evs : list execution_event) : execution :=
  fold_left execution_step evs x.

(** The continuation of [handleToolCall] after the [await]. *)
Definition complete_tool_call (id : value) (p : settlement) : option reply :=
  match p with
  | Pending => None
  | Resolved result => Some (Respond 200 (rpc_result id result))
  | Rejected message => Some (Respond 200 (rpc_error id (-32603) message))
  end.

(** An event that settles a fresh execution: the timer, or a response
    that carries its [executionId]. *)
Definition correlated (uuid : string) (msg : value) : bool :=
  match get msg "topic" with
  | Ok topic =>
      is_string topic "mcp-tool-response" &&
      match get msg "payload" with
      | Ok payload =>
          match get payload "executionId" with
          | Ok eid => is_string eid uuid
          | Thrown => false
          end
      | Thrown => false
      end
  | Thrown => false
  end.

Definition decisive (uuid : string) (e : execution_event) : bool :=
  match e with
  | TimeoutFires => true
  | Input msg => correlated uuid msg
  end.

Definition undecided (uuid : string) (evs : list execution_event) : Prop :=
  Forall (fun e => decisive uuid e = false) evs.

(** A response to the execution [uuid] with the given [error] and
    [result]. *)
Definition response_to (uuid : string) (error result : value) : value :=
  VObj [("topic", VStr "mcp-tool-response");
        ("payload", VObj [("executionId", VStr uuid);
                          ("error", error); ("result", result)])].


(** The requests of the scenarios. *)
Definition nonexistent_request : value :=
  VObj [("jsonrpc", VStr "2.0"); ("id", VNum 2);
        ("method", VStr "nonexistent"); ("params", VObj [])].

Definition tools_list_request : value :=
  VObj [("jsonrpc", VStr "2.0"); ("id", VNum 1);
        ("method", VStr "tools/list"); ("params", VObj [])].


Definition echo_tool : tool := Tool "echo" "Tool: echo" (VObj [("type", VStr "object")]).

End FlowServer.

Import FlowServer.

(* ===================================================================== *)
(** ** The MCP server node: a supervised process *)
(* ===================================================================== *)

Module Supervisor.

(** The node is the state machine of its callbacks.  Its inputs are the
    calls of [startServer] and [stopServer], the events of the child
    processes, and the timers.  The cache of running servers only feeds the
    admin listing and is not kept, nor are [node.log] lines; a health probe
    only reports a status, so the firing of its interval changes nothing
    here. *)

(** *** Strings *)

(** The ASCII characters of the class [\s] (strings are byte strings
    here). *)
Definition is_space (c : ascii) : bool :=
  let n := nat_of_ascii c in
  (n =? 32)%nat || ((9 <=? n)%nat && (n <=? 13)%nat).

(** [s.split(/\s+/)] *)
Fixpoint split_ws_from (s cur : string) (in_ws : bool) : list string :=
  match s with
  | EmptyString => [cur]
  | String c s' =>
      if is_space c then
        if in_ws then split_ws_from s' cur true
        else cur :: split_ws_from s' "" true
      else split_ws_from s' (cur ++ String c "") false
  end.

Definition split_ws (s : string) : list string := split_ws_from s "" false.

(** [.filter(arg => arg.length > 0)] *)
Definition non_empty (parts : list string) : list string :=
  List.filter (fun arg => negb (String.eqb arg "")) parts.

Fixpoint is_prefix (p s : string) : bool :=
  match p, s with
  | EmptyString, _ => true
  | String a p', String b s' => Ascii.eqb a b && is_prefix p' s'
  | String _ _, EmptyString => false
  end.

(** [s.includes(sub)] *)
Fixpoint includes (s sub : string) : bool :=
  is_prefix sub s ||
  match s with
  | EmptyString => false
  | String _ s' => includes s' sub
  end.

(** *** The node *)

(** The configuration as the flow gives it. *)
Record config : Type := Config {
  cfg_serverName : string;
  cfg_serverType : string;
  cfg_serverPath : string;
  cfg_serverArgs : string;
  cfg_serverPort : Z;
  cfg_maxRestarts : nat
}.

(** The fields the constructor derives with [config.x || default]. *)
Definition serverName (c : config) : string :=
  if String.eqb (cfg_serverName c) "" then "mcp-server" else cfg_serverName c.
Definition serverType (c : config) : string :=
  if String.eqb (cfg_serverType c) "" then "python" else cfg_serverType c.
Definition serverPath (c : config) : string := cfg_serverPath c.
Definition serverArgs (c : config) : string := cfg_serverArgs c.
Definition serverPort (c : config) : Z :=
  if (cfg_serverPort c =? 0)%Z then 8000%Z else cfg_serverPort c.
Definition maxRestarts (c : config) : nat :=
  match cfg_maxRestarts c with
  | O => 3
  | n => n
  end.

Inductive callback : Type :=
| CbNone                 (* the default [() => { }] *)
| CbCaller (k : nat).    (* a callback of the caller *)

Inductive timer_body : Type :=
| TRestart               (* exit handler: [node.startServer()] after restartDelay *)
| TForceKill             (* stopServer: SIGKILL after 5 s *)
| THealthCheck.          (* the health probe interval *)

(** A child process object: the callback its handlers closed over and its
    [killed] flag. *)
Record child : Type := Child {
  start_callback : callback;
  killed : bool
}.

Inductive observation : Type :=
| Status (text : string)
| Warn (text : string)
| Error (text : string)
| Called (cb : nat) (error : option string) (result : value)
| Spawned (pid : nat) (command : string) (args : list string)
          (env_overlay : list (string * string))
| Killed (pid : nat) (signal : string)
| Sent (topic : string) (payload : value).

Record state : Type := State {
  serverProcess : option nat;
  isRunning : bool;
  restartCount : nat;
  healthCheckTimer : option nat;
  children : gmap nat child;       (* spawned and not yet exited *)
  timers : gmap nat timer_body;    (* armed *)
  fresh : nat;                     (* next process or timer identity *)
  log : list observation
}.

Definition initial : state := State None false 0 None ∅ ∅ 0 [].

Definition emit (o : observation) (s : state) : state :=
  State (serverProcess s) (isRunning s) (restartCount s) (healthCheckTimer s)
        (children s) (timers s) (fresh s) (log s ++ [o])%list.

Definition call (cb : callback) (error : option string) (result : value) (s : state)
  : state :=
  match cb with
  | CbNone => s
  | CbCaller k => emit (Called k error result) s
  end.

Definition setTimer (body : timer_body) (s : state) : nat * state :=
  (fresh s,
   State (serverProcess s) (isRunning s) (restartCount s) (healthCheckTimer s)
         (children s) (<[fresh s := body]> (timers s)) (S (fresh s)) (log s)).

Definition clearTimer (t : nat) (s : state) : state :=
  State (serverProcess s) (isRunning s) (restartCount s) (healthCheckTimer s)
        (children s) (delete t (timers s)) (fresh s) (log s).

Definition set_isRunning (b : bool) (s : state) : state :=
  State (serverProcess s) b (restartCount s) (healthCheckTimer s)
        (children s) (timers s) (fresh s) (log s).

Definition set_serverProcess (p : option nat) (s : state) : state :=
  State p (isRunning s) (restartCount s) (healthCheckTimer s)
        (children s) (timers s) (fresh s) (log s).

Definition set_restartCount (n : nat) (s : state) : state :=
  State (serverProcess s) (isRunning s) n (healthCheckTimer s)
        (children s) (timers s) (fresh s) (log s).

Definition set_healthCheckTimer (t : option nat) (s : state) : state :=
  State (serverProcess s) (isRunning s) (restartCount s) t
        (children s) (timers s) (fresh s) (log s).

Definition set_children (cs : gmap nat child) (s : state) : state :=
  State (serverProcess s) (isRunning s) (restartCount s) (healthCheckTimer s)
        cs (timers s) (fresh s) (log s).

(** The command line [startServer] builds; [None] is the Python server
    without a path. *)
Definition command_line (c : config) : option (string * list string) :=
  let additionalArgs :=
    if String.eqb (serverArgs c) "" then [] else non_empty (split_ws (serverArgs c)) in
  if String.eqb (serverType c) "python" then
    if String.eqb (serverPath c) "" then None
    else Some ("python3", serverPath c :: additionalArgs)
  else if String.eqb (serverType c) "node" then
    Some ("node", serverPath c :: additionalArgs)
  else
    match split_ws (serverPath c) with
    | command :: rest => Some (command, (rest ++ additionalArgs)%list)
    | [] => Some ("", additionalArgs)
    end.

(** The three variables laid over [process.env]. *)
Definition env_overlay (c : config) (serverId : string) : list (string * string) :=
  [("MCP_SERVER_PORT", string_of_Z (serverPort c));
   ("MCP_SERVER_NAME", serverName c);
   ("NODE_RED_MCP_SERVER_ID", serverId)].

Definition success (ok : bool) (message : string) (extra : list (string * value)) : value :=
  VObj ([("success", VBool ok); ("message", VStr message)] ++ extra)%list.

Section Node.

Variable c : config.
Variable serverId : string.    (* [node.serverId = uuidv4()] *)

(** [child_process.spawn] throws on an empty command; otherwise it returns
    a process object, whose failure to launch is an ['error'] event. *)
Definition spawn (command : string) (args : list string) (cb : callback) (s : state)
  : option state :=
  if String.eqb command "" then None
  else
    let pid := fresh s in
    Some (emit (Spawned pid command args (env_overlay c serverId))
            (State (Some pid) (isRunning s) (restartCount s) (healthCheckTimer s)
                   (<[pid := Child cb false]> (children s)) (timers s) (S pid) (log s))).

Definition startServer (cb : callback) (s : state) : state :=
  if isRunning s then
    call cb None (success false "Server already running" [])
         (emit (Warn "MCP server is already running") s)
  else
    let s := emit (Status "starting...") s in
    match command_line c with
    | None =>
        let msg := "Server path is required for Python MCP servers" in
        call cb (Some msg) VUndefined
             (emit (Status "error: no path") (emit (Error msg) s))
    | Some (command, args) =>
        match spawn command args cb s with
        | Some s' =>
            call cb None
                 (success true "Server starting" [("serverId", VStr serverId)]) s'
        | None =>
            call cb (Some exception_text) VUndefined
                 (emit (Status "error") (emit (Error "Error starting MCP server") s))
        end
    end.

Definition stopHealthCheck (s : state) : state :=
  match healthCheckTimer s with
  | Some t => set_healthCheckTimer None (clearTimer t s)
  | None => s
  end.

Definition startHealthCheck (s : state) : state :=
  let s := match healthCheckTimer s with
           | Some t => clearTimer t s
           | None => s
           end in
  let '(t, s) := setTimer THealthCheck s in
  set_healthCheckTimer (Some t) s.

(** [node.healthCheck = config.healthCheck || true] is always truthy.  The
    "started" message is kept without its [startTime]. *)
Definition onServerStarted (s : state) : state :=
  let s := set_restartCount 0 (set_isRunning true s) in
  let s := emit (Status "running") s in
  let s := startHealthCheck s in
  emit (Sent "started"
          (VObj [("serverId", VStr serverId); ("serverName", VStr (serverName c));
                 ("port", VNum (serverPort c))])) s.

Definition startup_marker (output : string) : bool :=
  includes output "Server started" || includes output "listening" ||
  includes output "FastMCP server".

Definition on_stdout (output : string) (s : state) : state :=
  let s := emit (Sent "stdout" (VStr output)) s in
  if startup_marker output then onServerStarted s else s.

Definition on_stderr (error : string) (s : state) : state :=
  emit (Sent "stderr" (VStr error)) (emit (Warn error) s).

Definition on_error (cb : callback) (message : string) (s : state) : state :=
  call cb (Some message) VUndefined
       (set_isRunning false
          (emit (Status "start error") (emit (Error message) s))).

Definition exit_payload (code : option Z) (signal : option string) : value :=
  VObj [("code", from_option VNum VNull code);
        ("signal", from_option VStr VNull signal)].

(** The ['exit'] handler; [code] is [None] for the [null] of a process
    ended by a signal. *)
Definition on_exit (code : option Z) (signal : option string) (s : state) : state :=
  let s := set_serverProcess None (set_isRunning false s) in
  if negb (bool_decide (code = Some 0%Z)) && (restartCount s <? maxRestarts c)%nat then
    let s := emit (Status "restarting...") s in
    let s := set_restartCount (S (restartCount s)) s in
    snd (setTimer TRestart s)
  else
    let s := emit (Status "stopped") s in
    let s := stopHealthCheck s in
    emit (Sent "exit" (exit_payload code signal)) s.

Definition kill (pid : nat) (signal : string) (s : state) : state :=
  match children s !! pid with
  | Some ch =>
      emit (Killed pid signal)
           (set_children (<[pid := Child (start_callback ch) true]> (children s)) s)
  | None => s
  end.

Definition stopServer (cb : callback) (s : state) : state :=
  match isRunning s, serverProcess s with
  | true, Some pid =>
      let s := emit (Status "stopping...") s in
      let s := stopHealthCheck s in
      let s := kill pid "SIGTERM" s in
      let s := snd (setTimer TForceKill s) in
      let s := set_isRunning false s in
      call cb None (success true "Server stopping" []) s
  | _, _ =>
      call cb None (success true "Server already stopped" [])
           (emit (Status "stopped") s)
  end.

Definition on_force_kill (s : state) : state :=
  match serverProcess s with
  | Some pid =>
      match children s !! pid with
      | Some ch => if killed ch then s else kill pid "SIGKILL" s
      | None => s
      end
  | None => s
  end.

Inductive event : Type :=
| EStart (cb : callback)                     (* [node.startServer(cb)] *)
| EStop (cb : callback)                      (* [node.stopServer(cb)] *)
| EStdout (pid : nat) (output : string)      (* a chunk, as text, trimmed *)
| EStderr (pid : nat) (output : string)
| EError (pid : nat) (message : string)      (* ['error'] of the process *)
| EExit (pid : nat) (code : option Z) (signal : option string)
| ETimer (t : nat).                          (* an armed timer fires *)

(** A process event needs a process that was spawned and has not exited, a
    timer event an armed timer; an event that cannot occur leaves the state
    as it is. *)
Definition step (s : state) (e : event) : state :=
  match e with
  | EStart cb => startServer cb s
  | EStop cb => stopServer cb s
  | EStdout pid output =>
      if bool_decide (is_Some (children s !! pid)) then on_stdout output s else s
  | EStderr pid output =>
      if bool_decide (is_Some (children s !! pid)) then on_stderr output s else s
  | EError pid message =>
      match children s !! pid with
      | Some ch => on_error (start_callback ch) message s
      | None => s
      end
  | EExit pid code signal =>
      if bool_decide (is_Some (children s !! pid)) then
        on_exit code signal (set_children (delete pid (children s)) s)
      else s
  | ETimer t =>
      match timers s !! t with
      | Some TRestart => startServer CbNone (clearTimer t s)
      | Some TForceKill => on_force_kill (clearTimer t s)
      | Some THealthCheck => s
      | None => s
      end
  end.

Definition run (s : state) (evs : list event) : state := fold_left step evs s.

End Node.

(** The spawns a log records. *)
Definition spawns (l : list observation) : list nat :=
  omap (fun o => match o with Spawned pid _ _ _ => Some pid | _ => None end) l.

(** A node whose [startServer] gets as far as a successful [spawn]. *)
Definition launches (c : config) (command : string) (args : list string) : Prop :=
  command_line c = Some (command, args) /\ command <> "".


Definition node_server : config := Config "srv" "node" "server.js" "--verbose" 9000 2.


End Supervisor.

(* ===================================================================== *)
(** ** The flow server: histories and bodies *)
(* ===================================================================== *)

Module FlowServerHistory.


(** The requests of the two ways to call a tool. *)
Definition direct_request (id : value) (method : string) (params : value) : value :=
  VObj [("jsonrpc", VStr "2.0"); ("id", id); ("method", VStr method); ("params", params)].

Definition call_request (id : value) (toolName : string) (args : value) : value :=
  VObj [("jsonrpc", VStr "2.0"); ("id", id); ("method", VStr "tools/call");
        ("params", VObj [("name", VStr toolName); ("arguments", args)])].

(** What [toolRegistry.get] accepts as a key. *)
Definition is_key (v : value) : bool :=
  match v with
  | VStr _ | VNum _ => true
  | _ => false
  end.

(** A run of an execution in which no response carries its [executionId]
    (the timer may fire). *)
Definition unanswered (uuid : string) (evs : list execution_event) : Prop :=
  Forall (fun e => match e with
                   | TimeoutFires => True
                   | Input msg => correlated uuid msg = false
                   end) evs.

End FlowServerHistory.

Import FlowServerHistory.

(* ===================================================================== *)
(** ** The client session: what its states and logs are asked *)
(* ===================================================================== *)

Module ClientStates.

Import Client.

(** The ["handshake"] messages a log records. *)
Definition is_handshake (o : observation) : bool :=
  match o with
  | Sent topic _ _ => String.eqb topic "handshake"
  | _ => false
  end.

Definition handshakes (l : list observation) : list observation :=
  List.filter is_handshake l.

(** A step that starts no HTTP request and sends no handshake message. *)
Definition quiet (s s' : state) : Prop :=
  calls s' = calls s /\ handshakes (log s') = handshakes (log s).

(** No request timeout is armed. *)
Definition no_request_timeout (s : state) : Prop :=
  forall t id cb, timers s !! t <> Some (TRequestTimeout id cb).

(** The timer [reconnectTimer] holds is armed, and is a reconnect timer. *)
Definition held_armed (s : state) : Prop :=
  forall t, reconnectTimer s = Some t -> timers s !! t = Some TReconnect.

(** A client whose configuration asks for no reconnection. *)
Definition sse_client : config := Config "http://localhost:8000" "sse" false.

End ClientStates.

Import ClientStates.

(* ===================================================================== *)
(** ** The supervised process: what its states and logs are asked *)
(* ===================================================================== *)

Module SupervisorStates.

Import Supervisor.

(** The signals a log records. *)
Definition signals (l : list observation) : list (nat * string) :=
  omap (fun o => match o with Killed pid signal => Some (pid, signal) | _ => None end) l.

(** The armed health probes are the one [healthCheckTimer] holds, and that
    one is armed; timers have identities below [fresh]. *)
Definition probe_ok (s : state) : Prop :=
  (forall t, timers s !! t = Some THealthCheck <-> healthCheckTimer s = Some t) /\
  (forall t body, timers s !! t = Some body -> t < fresh s).

(** The handle the node holds is a process that has not exited. *)
Definition handle_live (s : state) : Prop :=
  forall pid, serverProcess s = Some pid -> is_Some (children s !! pid).


(** The arguments [startServer] takes from [serverArgs]. *)
Definition additionalArgs (c : config) : list string :=
  if String.eqb (serverArgs c) "" then [] else non_empty (split_ws (serverArgs c)).





End SupervisorStates.

Import SupervisorStates.

(* ===================================================================== *)
(** ** The MCP tool node *)
(* ===================================================================== *)

Module ToolNode.

(** The node turns an input message into one JSON-RPC request to the
    server's [/mcp] and the reply into one output message.  A message is
    the object of its properties; the status the node shows while the
    request is in flight is not kept. *)

(** The configuration as the flow gives it; [toolParams] is what
    [JSON.parse] makes of [config.toolParams || "{}"], [None] when it
    throws. *)
Record config : Type := Config {
  cfg_toolName : string;
  toolParams : option value;
  cfg_outputMode : string
}.

Definition toolName (c : config) : string := cfg_toolName c.

(** [let parsedParams = {}; try { parsedParams = JSON.parse(...) } catch ...] *)
Definition parsedParams (c : config) : value := default (VObj []) (toolParams c).

Definition outputMode (c : config) : string :=
  if String.eqb (cfg_outputMode c) "" then "result" else cfg_outputMode c.

(** [msg.k] on a message *)
Definition prop (msg : list (string * value)) (k : string) : value :=
  default VUndefined (assoc k msg).

(** [Object.assign(target, source)] on a plain object [target]: the own
    enumerable properties of the source are assigned in their order; a
    source that is [null] or [undefined] is skipped. *)
Definition assign (target : list (string * value)) (source : value)
  : list (string * value) :=
  match entries source with
  | Ok fs => fold_left (fun acc kv => set_field kv.1 kv.2 acc) fs target
  | Thrown => target
  end.

(** [typeof v === 'object'] *)
Definition is_object (v : value) : bool :=
  match v with
  | VNull | VArr _ | VObj _ => true
  | _ => false
  end.

(** The method of the request: the configured tool, or the topic of the
    message, or the method its payload names. *)
Definition choose_method (c : config) (msg : list (string * value)) : outcome value :=
  let method := VStr (toolName c) in
  let topic := prop msg "topic" in
  let method := if truthy topic && negb (is_string topic "") then topic else method in
  let payload := prop msg "payload" in
  if truthy payload then
    m ← get payload "method";
    mret (if truthy m then m else method)
  else mret method.

(** [if (msg.k) params.k = msg.k] *)
Definition override (msg : list (string * value)) (k : string)
  (params : list (string * value)) : list (string * value) :=
  if truthy (prop msg k) then set_field k (prop msg k) params else params.

Definition overridden : list string :=
  ["description"; "project"; "todo_id"; "status"; "priority"].

(** The parameters of the request. *)
Definition merge_params (c : config) (msg : list (string * value))
  : outcome (list (string * value)) :=
  let params := assign [] (parsedParams c) in
  let payload := prop msg "payload" in
  params ← (if truthy payload && is_object payload then
              p ← get payload "params";
              if truthy p then mret (assign params p)
              else
                m ← get payload "method";
                if negb (truthy m) then mret (assign params payload) else mret params
            else mret params);
  mret (fold_left (fun params k => override msg k params) overridden params).

Inductive action : Type :=
| Warned (text : string)      (* no method: a warning, and nothing is sent *)
| Invoked (request : value).  (* [invokeTool]: the request posted to [/mcp] *)

(** The ['input'] handler up to the request; [now] is [Date.now()]. *)
Definition on_input (c : config) (now : Z) (msg : list (string * value))
  : outcome action :=
  method ← choose_method c msg;
  if negb (truthy method) then mret (Warned "No tool method specified")
  else
    params ← merge_params c msg;
    mret (Invoked (VObj [("jsonrpc", VStr "2.0"); ("id", VNum now);
                         ("method", method); ("params", VObj params)])).

(** [response && response.result ? response.result : response] *)
Definition result_of (response : value) : outcome value :=
  if truthy response then
    r ← get response "result";
    mret (if truthy r then r else response)
  else mret response.

(** The callback of [invokeTool]: the message the node sends for a reply
    ([inr]) or for a failed request with its message ([inl]). *)
Definition on_reply (c : config) (msg : list (string * value)) (reply : string + value)
  : outcome (list (string * value)) :=
  match reply with
  | inl message =>
      let msg := set_field "error" (VStr message) msg in
      let msg := set_field "topic" (VStr "error") msg in
      mret (set_field "payload" (VObj [("error", VStr message)]) msg)
  | inr response =>
      msg ← (if String.eqb (outputMode c) "result" then
               r ← result_of response; mret (set_field "payload" r msg)
             else if String.eqb (outputMode c) "full" then
               mret (set_field "payload" response msg)
             else if String.eqb (outputMode c) "custom" then
               let msg := set_field "response" response msg in
               r ← result_of response; mret (set_field "result" r msg)
             else mret msg);
      mret (set_field "topic" (VStr "result") msg)
  end.

(** The nodes of the scenarios. *)
Definition todo_tool : config :=
  Config "add_todo" (Some (VObj [("project", VStr "home"); ("priority", VStr "low")])) "".

Definition custom_tool : config := Config "add_todo" None "custom".

End ToolNode.

(* ===================================================================== *)
(** ** The tool registry node *)
(* ===================================================================== *)

Module ToolRegistry.

(** The node announces one tool to the flow servers with the events
    ['mcp-tool-register'] and ['mcp-tool-unregister'] of [RED.events].  Its
    inputs are the messages of the flow, the delayed calls of
    [registerTool] (500 ms after the start when it registers by itself,
    100 ms after an update) and the close of the node.  A listener of the
    events is taken not to throw; [registeredBy] and [registrationTime] of
    the definition, which no listener reads, are not kept. *)

(** The configuration as the flow gives it; [cfg_toolSchema] is what
    [JSON.parse] makes of [config.toolSchema || "{}"], [None] when it
    throws, and [autoRegister] is [config.autoRegister !== false]. *)
Record config : Type := Config {
  cfg_toolName : string;
  cfg_toolDescription : string;
  cfg_toolSchema : option value;
  autoRegister : bool
}.

Inductive emitted : Type :=
| Registration (name description inputSchema : value)   (* 'mcp-tool-register' *)
| Unregistration (name : value).                        (* 'mcp-tool-unregister' *)

Inductive observation : Type :=
| Status (text : string)
| Warn (text : string)
| Emitted (e : emitted)
| Sent (msg : value).

Record state : Type := State {
  toolName : value;
  toolDescription : value;
  parsedSchema : value;
  isRegistered : bool;
  delayed : nat;                  (* armed timers that call [registerTool] *)
  log : list observation
}.

Definition emit (o : observation) (s : state) : state :=
  State (toolName s) (toolDescription s) (parsedSchema s) (isRegistered s) (delayed s)
        (log s ++ [o])%list.

Definition set_isRegistered (b : bool) (s : state) : state :=
  State (toolName s) (toolDescription s) (parsedSchema s) b (delayed s) (log s).

Definition set_toolName (v : value) (s : state) : state :=
  State v (toolDescription s) (parsedSchema s) (isRegistered s) (delayed s) (log s).

Definition set_toolDescription (v : value) (s : state) : state :=
  State (toolName s) v (parsedSchema s) (isRegistered s) (delayed s) (log s).

Definition set_parsedSchema (v : value) (s : state) : state :=
  State (toolName s) (toolDescription s) v (isRegistered s) (delayed s) (log s).

Definition set_delayed (n : nat) (s : state) : state :=
  State (toolName s) (toolDescription s) (parsedSchema s) (isRegistered s) n (log s).

(** The schema that stands in for one that does not parse. *)
Definition fallback_schema : value :=
  VObj [("type", VStr "object"); ("properties", VObj []); ("required", VArr [])].

(** The node after its constructor. *)
Definition initial (c : config) : state :=
  let s := State (VStr (cfg_toolName c)) (VStr (cfg_toolDescription c)) (VObj []) false 0
                 [Status "unregistered"] in
  let s := match cfg_toolSchema c with
           | Some schema => set_parsedSchema schema s
           | None =>
               set_parsedSchema fallback_schema
                 (emit (Warn ("Invalid tool schema JSON: " ++ exception_text)) s)
           end in
  if autoRegister c && negb (String.eqb (cfg_toolName c) "") then set_delayed 1 s else s.

Definition registerTool (s : state) : state :=
  if negb (truthy (toolName s)) then emit (Warn "Tool name is required for registration") s
  else if isRegistered s then emit (Warn "Tool is already registered") s
  else
    let description :=
      or_else (toolDescription s) (VStr ("Tool: " ++ to_string (toolName s))) in
    let s := emit (Emitted (Registration (toolName s) description (parsedSchema s))) s in
    let s := set_isRegistered true s in
    let s := emit (Status "registered") s in
    emit (Sent (VObj [("topic", VStr "tool-registered");
                      ("payload", VObj [("toolName", toolName s);
                                        ("description", toolDescription s);
                                        ("schema", parsedSchema s)])])) s.

Definition unregisterTool (s : state) : state :=
  if negb (isRegistered s) then emit (Warn "Tool is not currently registered") s
  else
    let s := emit (Emitted (Unregistration (toolName s))) s in
    let s := set_isRegistered false s in
    let s := emit (Status "unregistered") s in
    emit (Sent (VObj [("topic", VStr "tool-unregistered");
                      ("payload", VObj [("toolName", toolName s)])])) s.

Definition updateRegistration (s : state) : state :=
  if isRegistered s then
    let s := unregisterTool s in
    set_delayed (S (delayed s)) s
  else s.

(** [msg.k] on a message *)
Definition prop (msg : list (string * value)) (k : string) : value :=
  default VUndefined (assoc k msg).

(** [msg.topic || msg.payload.command] *)
Definition command_of (msg : list (string * value)) : outcome value :=
  if truthy (prop msg "topic") then Ok (prop msg "topic")
  else get (prop msg "payload") "command".

(** The [case 'update']; [parsed] is what [JSON.parse] makes of
    [msg.payload.toolSchema], [None] when it throws. *)
Definition update (msg : list (string * value)) (parsed : option value) (s : state)
  : outcome state :=
  let payload := prop msg "payload" in
  n ← get payload "toolName";
  let s := if truthy n then set_toolName n s else s in
  d ← get payload "toolDescription";
  let s := if truthy d then set_toolDescription d s else s in
  schema ← get payload "toolSchema";
  let s := if truthy schema then
             match parsed with
             | Some v => set_parsedSchema v s
             | None => emit (Warn ("Invalid schema in update: " ++ exception_text)) s
             end
           else s in
  mret (updateRegistration s).

(** The ['input'] handler. *)
Definition on_input (msg : list (string * value)) (parsed : option value) (s : state)
  : outcome state :=
  command ← command_of msg;
  if is_string command "register" then mret (registerTool s)
  else if is_string command "unregister" then mret (unregisterTool s)
  else if is_string command "update" then update msg parsed s
  else if is_string command "status" then
    let payload := VObj [("toolName", toolName s);
                         ("isRegistered", VBool (isRegistered s));
                         ("description", toolDescription s);
                         ("schema", parsedSchema s)] in
    mret (emit (Sent (VObj (set_field "payload" payload msg))) s)
  else mret (emit (Warn ("Unknown command: " ++ to_string command)) s).

Inductive event : Type :=
| EInput (msg : list (string * value)) (parsed : option value)
| ETimer      (* one of the delayed calls of [registerTool] *)
| EClose.     (* the node is closed *)

(** A handler that throws (reading [command] of no payload) has changed
    nothing when it does; a timer event needs an armed timer. *)
Definition step (s : state) (e : event) : state :=
  match e with
  | EInput msg parsed =>
      match on_input msg parsed s with
      | Ok s' => s'
      | Thrown => s
      end
  | ETimer =>
      match delayed s with
      | S n => registerTool (set_delayed n s)
      | O => s
      end
  | EClose => if isRegistered s then unregisterTool s else s
  end.

Definition run (s : state) (evs : list event) : state := fold_left step evs s.

(** The events a log records. *)
Definition emissions (l : list observation) : list emitted :=
  omap (fun o => match o with Emitted e => Some e | _ => None end) l.


(** A definition a flow server can store has a name and a description. *)
Definition well_named (e : emitted) : Prop :=
  match e with
  | Registration name description _ => truthy name = true /\ truthy description = true
  | Unregistration _ => True
  end.

(** What a step does to the events emitted so far and to [isRegistered]:
    nothing, a registration by a node that was not registered, or an
    unregistration by one that was. *)
Definition effect (s s' : state) : Prop :=
  (emissions (log s') = emissions (log s) /\ isRegistered s' = isRegistered s) \/
  (isRegistered s = false /\ isRegistered s' = true /\
   exists e, emissions (log s') = (emissions (log s) ++ [e])%list /\
             well_named e /\ exists n d schema, e = Registration n d schema) \/
  (isRegistered s = true /\ isRegistered s' = false /\
   exists n, emissions (log s') = (emissions (log s) ++ [Unregistration n])%list).

(** What the listeners of the flow server module get, for the events whose
    name and description are strings. *)
Definition as_registry_event (e : emitted) : option registry_event :=
  match e with
  | Registration (VStr name) (VStr description) inputSchema =>
      Some (Register (Tool name description inputSchema))
  | Unregistration (VStr name) => Some (Unregister name)
  | _ => None
  end.

(** The node of the scenarios and a message that renames its tool. *)
Definition echo_registry : config := Config "echo" "" (Some (VObj [])) true.

Definition rename_to (toolName : string) : list (string * value) :=
  [("topic", VStr "update"); ("payload", VObj [("toolName", VStr toolName)])].

End ToolRegistry.


(* ===================================================================== *)
(** * Properties *)
(* ===================================================================== *)

(** A decidable proposition about concrete data, by evaluation. *)
Ltac decided :=
  match goal with
  | |- ?P => apply (bool_decide_unpack P); vm_compute; exact I
  end.

(** ** JavaScript values *)

Section JSFacts.

Lemma get_not_nullish v k :
  v <> VNull -> v <> VUndefined -> exists w, get v k = Ok w.
Proof.
  intros Hn Hu. destruct v; simpl; try congruence; eauto.
  - destruct (String.eqb k "length"); eauto. destruct (array_index k); eauto.
  - destruct (String.eqb k "length"); eauto. destruct (array_index k); eauto.
Qed.

Lemma get_Ok_not_nullish v k w : get v k = Ok w -> v <> VNull /\ v <> VUndefined.
Proof. destruct v; simpl; intros H; split; congruence. Qed.

Lemma truthy_not_nullish v : truthy v = true -> v <> VNull /\ v <> VUndefined.
Proof. destruct v; simpl; intros H; split; congruence. Qed.

Lemma assoc_replace_field_eq {A} k (v : A) fs : assoc k (replace_field k v fs) = Some v.
Proof.
  induction fs as [|[k' v'] fs IH]; simpl.
  - by rewrite String.eqb_refl.
  - destruct (String.eqb k k') eqn:E; simpl; rewrite ?String.eqb_refl, ?E; auto.
Qed.

Lemma assoc_replace_field_ne {A} k k' (v : A) fs :
  k <> k' -> assoc k' (replace_field k v fs) = assoc k' fs.
Proof.
  intros Hne. induction fs as [|[k0 v0] fs IH]; simpl.
  - destruct (String.eqb_spec k' k); congruence.
  - destruct (String.eqb_spec k k0) as [->|]; simpl.
    + destruct (String.eqb_spec k' k0); congruence.
    + destruct (String.eqb_spec k' k0); auto.
Qed.

Lemma assoc_remove_field_eq {A} k (fs : list (string * A)) : assoc k (remove_field k fs) = None.
Proof.
  induction fs as [|[k' v'] fs IH]; simpl; auto.
  destruct (String.eqb k k') eqn:E; simpl; rewrite ?E; auto.
Qed.

Lemma replace_field_fresh {A} k (v : A) fs :
  k ∉ map fst fs -> replace_field k v fs = (fs ++ [(k, v)])%list.
Proof.
  induction fs as [|[k' v'] fs IH]; simpl; intros Hk; auto.
  destruct (String.eqb_spec k k') as [->|].
  - exfalso. apply Hk. left.
  - f_equal. apply IH. intros Hin. apply Hk. by right.
Qed.

End JSFacts.

(** ** Example parameters *)

Section ExampleFacts.

Lemma example_value_for propDef :
  propDef <> VNull -> propDef <> VUndefined ->
  exists v, example_value propDef = Ok v /\ example_for propDef v.
Proof.
  intros Hn Hu. unfold example_value.
  destruct (get_not_nullish propDef "type" Hn Hu) as [ty Hty].
  destruct (get_not_nullish propDef "enum" Hn Hu) as [en Hen].
  destruct (get_not_nullish propDef "description" Hn Hu) as [d Hd].
  rewrite Hty. simpl.
  assert (Hother : (forall t, ty = VStr t -> known_type t = false) ->
            exists v, (d0 ← get propDef "description";
                       mret (or_else d0 (VStr "example_value"))) = Ok v
                      /\ example_for propDef v).
  { intros Hk. rewrite Hd. simpl. eexists; split; [reflexivity|].
    by eapply for_other. }
  destruct ty as [| | | |t| |]; try (apply Hother; intros ? [=]).
  destruct (String.eqb_spec t "string") as [->|Hs].
  { rewrite Hen. simpl. destruct (truthy en) eqn:Ht.
    - destruct (truthy_not_nullish _ Ht) as [Hen1 Hen2].
      destruct (get_not_nullish en "0" Hen1 Hen2) as [first Hfirst].
      rewrite Hfirst. eexists; split; [reflexivity|]. by eapply for_enum.
    - rewrite Hd. simpl. eexists; split; [reflexivity|]. by eapply for_string. }
  destruct (String.eqb_spec t "number") as [->|Hnum].
  { eexists; split; [reflexivity|]. eapply for_number; eauto. }
  destruct (String.eqb_spec t "integer") as [->|Hint].
  { eexists; split; [reflexivity|]. eapply for_number; eauto. }
  destruct (String.eqb_spec t "boolean") as [->|Hbool].
  { eexists; split; [reflexivity|]. by eapply for_boolean. }
  destruct (String.eqb_spec t "object") as [->|Hobj].
  { eexists; split; [reflexivity|]. by eapply for_object. }
  destruct (String.eqb_spec t "array") as [->|Harr].
  { eexists; split; [reflexivity|]. by eapply for_array. }
  simpl. apply Hother. intros t' [= <-]. unfold known_type.
  repeat match goal with
         | H : t <> ?x |- context [String.eqb t ?x] =>
             destruct (String.eqb_spec t x); [congruence|clear H]
         end.
  reflexivity.
Qed.

Lemma fill_example_by_type props : forall acc,
  NoDup (map fst acc ++ map fst props) ->
  "__proto__" ∉ map fst props ->
  Forall (fun p => p.2 <> VNull /\ p.2 <> VUndefined) props ->
  exists example,
    fill_example props acc = Ok (acc ++ example)%list /\ same_keys_by_type props example.
Proof.
  induction props as [|[k d] props IH]; intros acc Hnd Hproto Hall.
  - exists []. simpl. split; [by rewrite app_nil_r | constructor].
  - simpl in *. apply Forall_cons in Hall as [[Hn Hu] Hall].
    destruct (example_value_for d Hn Hu) as [v [Hv Hfor]]. rewrite Hv. simpl.
    assert (Hk : k ∉ map fst acc).
    { apply NoDup_app in Hnd as (_ & Hdisj & _). intros Hin.
      apply (Hdisj _ Hin). left. }
    assert (Hset : set_field k v acc = (acc ++ [(k, v)])%list).
    { unfold set_field. destruct (String.eqb_spec k "__proto__") as [->|_].
      - exfalso. apply Hproto. left.
      - by apply replace_field_fresh. }
    rewrite Hset.
    destruct (IH (acc ++ [(k, v)])%list) as [example [Hfill Hsame]].
    + rewrite map_app. simpl. rewrite <- app_assoc. exact Hnd.
    + intros Hin. apply Hproto. by right.
    + exact Hall.
    + exists ((k, v) :: example). split.
      * rewrite Hfill. by rewrite <- app_assoc.
      * constructor; auto.
Qed.

(** C7 (as the code has it).  [generateExampleParams] maps each property by
    its type: a string with an enum to the first enum value, another string
    to its description or "example_string", a number or an integer to 123,
    a boolean to [true], an object to [{}], an array to [[]], and anything
    else to its description or "example_value"; the result has the keys of
    [properties] in their order.  The schema of the round trip yields
    exactly [{a: "x", b: 123}]. *)
Theorem generateExampleParams_by_type :
  (forall schema props,
      get schema "properties" = Ok (VObj props) ->
      NoDup (map fst props) ->
      "__proto__" ∉ map fst props ->
      Forall (fun p => p.2 <> VNull /\ p.2 <> VUndefined) props ->
      exists example,
        generateExampleParams schema = Ok (VObj example) /\
        same_keys_by_type props example) /\
  generateExampleParams round_trip_schema = Ok (VObj [("a", VStr "x"); ("b", VNum 123)]).
Proof.
  split; [|reflexivity].
  intros schema props Hprops Hnd Hproto Hall. unfold generateExampleParams.
  assert (Hts : truthy schema = true).
  { destruct schema; try reflexivity; vm_compute in Hprops; discriminate. }
  rewrite Hts, Hprops. simpl.
  destruct (fill_example_by_type props [] Hnd Hproto Hall) as [example [Hfill Hsame]].
  rewrite Hfill. simpl. eauto.
Qed.

Lemma generateExampleParams_by_type_witness :
  exists example,
    generateExampleParams round_trip_schema = Ok (VObj example) /\
    same_keys_by_type
      [("a", VObj [("type", VStr "string"); ("enum", VArr [VStr "x"; VStr "y"])]);
       ("b", VObj [("type", VStr "integer")])] example.
Proof.
  apply (proj1 generateExampleParams_by_type round_trip_schema).
  - reflexivity.
  - decided.
  - decided.
  - repeat constructor; discriminate.
Defined.

(** C7 (as stated) fails: a property whose type is none of the six does not
    get a placeholder when it has a description; it gets the description,
    and the placeholder "example_value" only without one. *)
Lemma other_type_gets_description :
  generateExampleParams described_null = Ok (VObj [("p", VStr "the count")]) /\
  generateExampleParams plain_null = Ok (VObj [("p", VStr "example_value")]).
Proof. split; reflexivity. Qed.

End ExampleFacts.

(** ** The flow server: registry and routes *)

Section FlowServerFacts.











(** C5.  A request to [/mcp] whose method is a name other than
    [initialize], [tools/list] and [tools/call] that does not end in
    [_tool] is answered with the JSON-RPC error of code -32601 and message
    "Method not found: " followed by the method, under the id of the
    request; a request without a method is answered likewise, with
    "undefined" for the method.  The scenario request, method
    "nonexistent" with id 2, gets exactly that object. *)
Theorem mcp_post_method_not_found :
  (forall serverName request reg m id,
      get request "method" = Ok (VStr m) ->
      get request "id" = Ok id ->
      m <> "initialize" -> m <> "tools/list" -> m <> "tools/call" ->
      ends_with m "_tool" = false ->
      mcp_post serverName request reg =
        Ok (Respond 200
              (literal [("jsonrpc", VStr "2.0"); ("id", id);
                        ("error", VObj [("code", VNum (-32601));
                                        ("message", VStr ("Method not found: " ++ m))])]))) /\
  (forall serverName request reg id,
      get request "method" = Ok VUndefined ->
      get request "id" = Ok id ->
      mcp_post serverName request reg =
        Ok (Respond 200
              (literal [("jsonrpc", VStr "2.0"); ("id", id);
                        ("error", VObj [("code", VNum (-32601));
                                        ("message", VStr "Method not found: undefined")])]))) /\
  (forall serverName reg,
      mcp_post serverName nonexistent_request reg =
        Ok (Respond 200
              (VObj [("jsonrpc", VStr "2.0"); ("id", VNum 2);
                     ("error", VObj [("code", VNum (-32601));
                                     ("message", VStr "Method not found: nonexistent")])]))).
Proof.
  split; [|split; [|reflexivity]].
  - intros serverName request reg m id Hm Hid Hinit Hlist Hcall Htool.
    unfold mcp_post, dispatch. rewrite Hm. simpl.
    destruct (String.eqb_spec m "tools/list"); [done|].
    destruct (String.eqb_spec m "tools/call"); [done|].
    destruct (String.eqb_spec m "initialize"); [done|].
    unfold dispatch_default. simpl.
    destruct (negb (String.eqb m "")); simpl; rewrite ?Htool; simpl; by rewrite Hid.
  - intros serverName request reg id Hm Hid.
    unfold mcp_post, dispatch. rewrite Hm. simpl.
    unfold dispatch_default. simpl. by rewrite Hid.
Qed.

Lemma mcp_post_method_not_found_witness :
  mcp_post "srv" nonexistent_request [] =
    Ok (Respond 200
          (literal [("jsonrpc", VStr "2.0"); ("id", VNum 2);
                    ("error", VObj [("code", VNum (-32601));
                                    ("message", VStr ("Method not found: " ++ "nonexistent"))])])) /\
  mcp_post "srv" (VObj [("jsonrpc", VStr "2.0"); ("id", VNum 7)]) [] =
    Ok (Respond 200
          (literal [("jsonrpc", VStr "2.0"); ("id", VNum 7);
                    ("error", VObj [("code", VNum (-32601));
                                    ("message", VStr "Method not found: undefined")])])).
Proof.
  split.
  - apply (proj1 mcp_post_method_not_found "srv" nonexistent_request [] "nonexistent"
             (VNum 2)); try reflexivity; discriminate.
  - apply (proj1 (proj2 mcp_post_method_not_found) "srv"
             (VObj [("jsonrpc", VStr "2.0"); ("id", VNum 7)]) [] (VNum 7));
      reflexivity.
Defined.

Lemma replace_field_keys {A} k (v : A) fs :
  NoDup (map fst fs) ->
  NoDup (map fst (replace_field k v fs)) /\
  forall k', k' ∈ map fst (replace_field k v fs) -> k' = k \/ k' ∈ map fst fs.
Proof.
  induction fs as [|[k0 v0] fs IH]; simpl; intros Hnd.
  - split; [repeat constructor; set_solver | set_solver].
  - apply NoDup_cons in Hnd as [Hk0 Hnd]. destruct (IH Hnd) as [IH1 IH2].
    destruct (String.eqb_spec k k0) as [->|Hne]; simpl.
    + split; [by constructor | set_solver].
    + split; [|set_solver]. constructor; [|done].
      intros Hin. destruct (IH2 _ Hin); congruence.
Qed.

Lemma remove_field_keys {A} k (fs : list (string * A)) :
  NoDup (map fst fs) ->
  NoDup (map fst (remove_field k fs)) /\
  forall k', k' ∈ map fst (remove_field k fs) -> k' ∈ map fst fs.
Proof.
  induction fs as [|[k0 v0] fs IH]; simpl; intros Hnd; [done|].
  apply NoDup_cons in Hnd as [Hk0 Hnd]. destruct (IH Hnd) as [IH1 IH2].
  destruct (String.eqb_spec k k0) as [->|Hne]; simpl.
  - split; [done | set_solver].
  - split; [|set_solver]. constructor; [|done]. intros Hin. by apply Hk0, IH2.
Qed.

Lemma registry_after_keys_distinct evs : NoDup (cache_keys (registry_after evs)).
Proof.
  unfold registry_after, cache_keys.
  assert (H : forall reg : registry, NoDup (map fst reg) ->
            NoDup (map fst (fold_left (fun reg e => on_registry_event e reg) evs reg))).
  { induction evs as [|e evs IH]; simpl; intros reg Hreg; [done|].
    apply IH. destruct e; simpl.
    - by apply replace_field_keys.
    - by apply remove_field_keys. }
  apply H. constructor.
Qed.

Lemma length_indexed i xs : length (indexed i xs) = length xs.
Proof. revert i. induction xs as [|x xs IH]; simpl; intros i; [done|]. by rewrite IH. Qed.

(** C6 (as the code has it).  The reply to [GET /health] is the object
    [{status: "healthy", server, uptime, tools}], where [server] is the
    configured name and [tools] the number of keys of the tool registry,
    which are the distinct names of the registered tools. *)
Theorem health_counts_tools serverName uptime evs :
  let reg := registry_after evs in
  health serverName uptime reg =
    Respond 200
      (literal [("status", VStr "healthy");
                ("server", VStr serverName);
                ("uptime", uptime);
                ("tools", VNum (Z.of_nat (length (cache_keys reg))))]) /\
  NoDup (cache_keys reg).
Proof.
  intros reg. split; [|apply registry_after_keys_distinct].
  unfold health. by rewrite length_indexed, length_map.
Qed.

(** C6 (as stated) fails: the reply has no [toolCount]; the count is under
    [tools]. *)
Lemma health_has_no_toolCount :
  exists body,
    health "node-red-mcp-server" (VNum 12) (registry_after [Register echo_tool])
      = Respond 200 body /\
    get body "toolCount" = Ok VUndefined /\
    get body "tools" = Ok (VNum 1).
Proof. eexists. split; [reflexivity|]. split; reflexivity. Qed.

End FlowServerFacts.

(** ** The flow server: the execution bridge *)

Section ExecutionFacts.

Lemma settle_settled o p : p <> Pending -> settle o p = p.
Proof. by destruct p. Qed.

Lemma step_keeps_settlement x e :
  promise x <> Pending -> promise (execution_step x e) = promise x.
Proof.
  intros Hp. destruct e as [|msg]; simpl.
  - unfold on_timeout. destruct (timer_armed x); simpl; [by apply settle_settled | done].
  - unfold on_input. destruct (listening x); [|done].
    destruct (responseHandler msg x) as [x'|] eqn:Hh; [|done].
    unfold responseHandler in Hh.
    destruct (get msg "topic") as [topic|]; simpl in Hh; [|done].
    destruct (is_string topic "mcp-tool-response"); [|by injection Hh as <-].
    destruct (get msg "payload") as [payload|]; simpl in Hh; [|done].
    destruct (get payload "executionId") as [eid|]; simpl in Hh; [|done].
    destruct (is_string eid (executionId x)); [|by injection Hh as <-].
    destruct (get payload "error") as [error|]; simpl in Hh; [|done].
    destruct (truthy error).
    + injection Hh as <-. simpl. by apply settle_settled.
    + destruct (get payload "result") as [result|]; simpl in Hh; [|done].
      injection Hh as <-. simpl. by apply settle_settled.
Qed.

Lemma run_keeps_settlement evs : forall x,
  promise x <> Pending -> promise (execution_run x evs) = promise x.
Proof.
  induction evs as [|e evs IH]; intros x Hp; [done|].
  unfold execution_run in *. simpl. rewrite IH.
  - by apply step_keeps_settlement.
  - by rewrite step_keeps_settlement.
Qed.

Lemma undecided_step uuid e :
  decisive uuid e = false ->
  execution_step (Execution uuid true true Pending) e = Execution uuid true true Pending.
Proof.
  destruct e as [|msg]; simpl; [done|].
  unfold correlated, on_input, responseHandler. simpl.
  destruct (get msg "topic") as [topic|]; simpl; [|done].
  destruct (is_string topic "mcp-tool-response"); simpl; [|done].
  destruct (get msg "payload") as [payload|]; simpl; [|done].
  destruct (get payload "executionId") as [eid|]; simpl; [|done].
  by intros ->.
Qed.

Lemma undecided_run uuid evs :
  undecided uuid evs ->
  execution_run (Execution uuid true true Pending) evs = Execution uuid true true Pending.
Proof.
  unfold execution_run. induction 1 as [|e evs He _ IH]; simpl; [done|].
  by rewrite undecided_step.
Qed.

(** C9.  The promise [executeToolFlow] returns is pending until the first
    of the two events, the timeout or a response that carries its
    [executionId]: if the timeout comes first it rejects with "Tool
    execution timeout"; if the response comes first it rejects with the
    error the response carries, or resolves with its result when it carries
    none.  Whatever follows, the other of the two included, leaves that
    outcome as it is. *)
Theorem executeToolFlow_settles_once t args uuid before after :
  let x := (executeToolFlow t args uuid).1 in
  undecided uuid before ->
  promise (execution_run x before) = Pending /\
  promise (execution_run x (before ++ TimeoutFires :: after))
    = Rejected "Tool execution timeout" /\
  (forall msg payload error result,
      get msg "topic" = Ok (VStr "mcp-tool-response") ->
      get msg "payload" = Ok payload ->
      get payload "executionId" = Ok (VStr uuid) ->
      get payload "error" = Ok error ->
      get payload "result" = Ok result ->
      promise (execution_run x (before ++ Input msg :: after))
        = if truthy error then Rejected (to_string error) else Resolved result).
Proof.
  intros x Hbefore. unfold x. simpl.
  split; [by rewrite undecided_run|]. split.
  - unfold execution_run. rewrite fold_left_app. fold (execution_run (Execution uuid true true Pending) before).
    rewrite undecided_run by done. simpl.
    fold (execution_run (on_timeout (Execution uuid true true Pending)) after).
    by rewrite run_keeps_settlement.
  - intros msg payload error result Htopic Hpayload Hid Herror Hresult.
    unfold execution_run. rewrite fold_left_app.
    fold (execution_run (Execution uuid true true Pending) before).
    rewrite undecided_run by done. simpl.
    fold (execution_run (on_input msg (Execution uuid true true Pending)) after).
    assert (Hstep : promise (on_input msg (Execution uuid true true Pending))
                    = if truthy error then Rejected (to_string error) else Resolved result).
    { unfold on_input, responseHandler. simpl.
      rewrite Htopic. simpl. rewrite Hpayload. simpl. rewrite Hid. simpl.
      rewrite String.eqb_refl, Herror. simpl.
      destruct (truthy error); [done|]. by rewrite Hresult. }
    rewrite run_keeps_settlement; [done|].
    rewrite Hstep. by destruct (truthy error).
Qed.

Lemma executeToolFlow_settles_once_witness :
  let x := (executeToolFlow echo_tool (VObj []) "e-1").1 in
  let late := Input (response_to "e-1" VUndefined (VStr "done")) in
  let other := Input (response_to "e-2" VUndefined (VStr "other")) in
  promise (execution_run x [other; TimeoutFires; late]) = Rejected "Tool execution timeout" /\
  promise (execution_run x [other; late; TimeoutFires]) = Resolved (VStr "done").
Proof.
  intros x late other.
  assert (Hother : undecided "e-1" [other]) by (repeat constructor).
  split.
  - apply (executeToolFlow_settles_once echo_tool (VObj []) "e-1" [other] [late] Hother).
  - apply (proj2 (proj2 (executeToolFlow_settles_once echo_tool (VObj []) "e-1"
                           [other] [TimeoutFires] Hother))
             (response_to "e-1" VUndefined (VStr "done"))
             (VObj [("executionId", VStr "e-1"); ("error", VUndefined);
                    ("result", VStr "done")])
             VUndefined (VStr "done"));
      reflexivity.
Defined.

End ExecutionFacts.

(** ** The supervised process *)

Section SupervisorFacts.

Import Supervisor.

Variable c : config.
Variable serverId : string.

Lemma call_fields cb err res (s : state) :
  serverProcess (call cb err res s) = serverProcess s /\
  isRunning (call cb err res s) = isRunning s /\
  restartCount (call cb err res s) = restartCount s /\
  healthCheckTimer (call cb err res s) = healthCheckTimer s /\
  children (call cb err res s) = children s /\
  timers (call cb err res s) = timers s /\
  fresh (call cb err res s) = fresh s /\
  spawns (log (call cb err res s)) = spawns (log s).
Proof.
  destruct cb; simpl; repeat split; auto.
  unfold spawns. rewrite omap_app. simpl. by rewrite app_nil_r.
Qed.



(** A start while [isRunning] is not set: the spawn. *)
Lemma startServer_spawns cb s command args :
  isRunning s = false -> launches c command args ->
  startServer c serverId cb s =
    call cb None (success true "Server starting" [("serverId", VStr serverId)])
      (emit (Spawned (fresh s) command args (env_overlay c serverId))
         (State (Some (fresh s)) false (restartCount s) (healthCheckTimer s)
                (<[fresh s := Child cb false]> (children s)) (timers s) (S (fresh s))
                (log s ++ [Status "starting..."]))).
Proof.
  intros Hrun [Hcmd Hne]. unfold startServer. rewrite Hrun. simpl.
  rewrite Hcmd. unfold spawn. simpl.
  destruct (String.eqb_spec command ""); [done|]. by rewrite Hrun.
Qed.














End SupervisorFacts.

(** *** Scenarios *)

Section SupervisorScenarios.

Import Supervisor.




End SupervisorScenarios.

(** ** The client session *)

Section ClientFacts.

Import Client.

Variable c : config.
Variable uuid : nat -> string.
Variable send_throws : option ready_state -> bool.

(** *** Steps that leave the table alone *)

Lemma frame_refl s : frame s s.
Proof. by repeat split. Qed.

Lemma frame_trans s1 s2 s3 : frame s1 s2 -> frame s2 s3 -> frame s1 s3.
Proof.
  intros (Hp1 & Hu1 & Ht1) (Hp2 & Hu2 & Ht2). repeat split.
  - congruence.
  - lia.
  - eauto.
Qed.

(** A state that has the table, the counter and the timers of another. *)
Lemma frame_same s s' :
  pendingRequests s' = pendingRequests s -> uuid_calls s' = uuid_calls s ->
  timers s' = timers s -> frame s s'.
Proof. intros Hp Hu Ht. repeat split; [done | lia | by rewrite Ht]. Qed.

Lemma frame_call cb error result s : frame s (call cb error result s).
Proof. destruct cb; by apply frame_same. Qed.

Lemma frame_fail cb message s : frame s (fail cb message s).
Proof. destruct cb; by apply frame_same. Qed.

Lemma frame_clearTimer t s : frame s (clearTimer t s).
Proof.
  repeat split; simpl; [lia|]. intros t' id cb. rewrite lookup_delete_Some. tauto.
Qed.

Lemma frame_setTimer body s :
  (forall id cb, body <> TRequestTimeout id cb) -> frame s (setTimer body s).2.
Proof.
  intros Hbody. repeat split; simpl; [lia|]. intros t id cb.
  rewrite lookup_insert_Some. intros [[_ ->]|[_ H]]; [by destruct (Hbody id cb) | done].
Qed.

Lemma frame_scheduleReconnect s : frame s (scheduleReconnect s).
Proof.
  unfold scheduleReconnect. destruct (reconnectTimer s); [apply frame_refl|].
  eapply frame_trans; [by apply (frame_setTimer TReconnect)|]. by apply frame_same.
Qed.

Lemma frame_connect cb s : frame s (connect c cb s).
Proof.
  unfold connect. destruct (isConnected s); [apply frame_call|].
  repeat (match goal with |- context [if ?b then _ else _] => destruct b end);
    try (by apply frame_same).
  eapply frame_trans; [|apply frame_call]. by apply frame_same.
Qed.

Lemma frame_close_connection h s : frame s (close_connection h s).
Proof.
  unfold close_connection. simpl.
  destruct (conns s !! h) as [[[] ? ?]|]; by apply frame_same.
Qed.

Lemma frame_on_open h k cb s : frame s (on_open c h k cb s).
Proof.
  unfold on_open. eapply frame_trans; [|by apply (frame_setTimer THandshake)].
  eapply frame_trans; [|apply frame_call]. by apply frame_same.
Qed.

Lemma frame_on_error h k cb fatal s : frame s (on_error c h k cb fatal s).
Proof.
  unfold on_error.
  destruct (reconnect c); [eapply frame_trans; [|apply frame_scheduleReconnect]|];
    destruct k; [destruct fatal| |destruct fatal|]; by apply frame_same.
Qed.

Lemma frame_on_close h code s : frame s (on_close c h code s).
Proof.
  unfold on_close.
  destruct (reconnect c && negb (code =? 1000)%Z);
    [eapply frame_trans; [|apply frame_scheduleReconnect]|]; by apply frame_same.
Qed.

Lemma frame_on_http_fail call_ message s : frame s (on_http_fail c call_ message s).
Proof.
  unfold on_http_fail. destruct call_ as [cb|forward requestId cb].
  - destruct (reconnect c); [eapply frame_trans; [|apply frame_scheduleReconnect]|];
      (eapply frame_trans; [|apply frame_call]); by apply frame_same.
  - destruct forward; [eapply frame_trans; [apply frame_fail | by apply frame_same]|].
    apply frame_fail.
Qed.

(** *** Steps that add an entry *)

Lemma registered_same s1 s2 s2' :
  pendingRequests s2' = pendingRequests s2 -> uuid_calls s2' = uuid_calls s2 ->
  timers s2' = timers s2 -> registered uuid s1 s2 -> registered uuid s1 s2'.
Proof.
  intros Hp Hu Ht (cb & t & H1 & H2 & H3). exists cb, t. simpl in *.
  by rewrite Hp, Hu, Ht.
Qed.

Lemma grows_same s1 s2 s2' :
  pendingRequests s2' = pendingRequests s2 -> uuid_calls s2' = uuid_calls s2 ->
  timers s2' = timers s2 -> grows uuid s1 s2 -> grows uuid s1 s2'.
Proof.
  intros Hp Hu Ht [Hf|(s0 & Hf & Hr)].
  - left. eapply frame_trans; [exact Hf | by apply frame_same].
  - right. exists s0. split; [done|]. by eapply registered_same.
Qed.

Lemma grows_after_frame s1 s2 s3 : frame s1 s2 -> grows uuid s2 s3 -> grows uuid s1 s3.
Proof.
  intros Hf [Hf'|(s0 & Hf' & Hr)].
  - left. by eapply frame_trans.
  - right. exists s0. split; [by eapply frame_trans | done].
Qed.

Lemma sendRequest_grows method params cb s :
  grows uuid s (sendRequest c uuid send_throws method params cb s).
Proof.
  unfold sendRequest. destruct (isConnected s); simpl; [|left; apply frame_fail].
  assert (Hcount : forall s', pendingRequests s' = pendingRequests s ->
            uuid_calls s' = S (uuid_calls s) -> timers s' = timers s -> frame s s').
  { intros s' Hp Hu Ht. repeat split; [done | lia | by rewrite Ht]. }
  destruct (String.eqb (connectionType c) "http"); [left; by apply Hcount|].
  destruct (String.eqb (connectionType c) "sse"); [left; by apply Hcount|].
  destruct (String.eqb (connectionType c) "websocket"); [|left; by apply Hcount].
  match goal with |- context [if ?b then _ else _] => destruct b end.
  { left. destruct cb; by apply Hcount. }
  right. exists s. split; [apply frame_refl|]. exists cb, (fresh s).
  destruct (connection s) as [h|]; simpl; [|done].
  by destruct (ready <$> conns s !! h) as [[]|].
Qed.

Lemma succeed_grows cb data s s' :
  succeed c uuid send_throws cb data s = Ok s' -> grows uuid s s'.
Proof.
  destruct cb as [|k| |initResponse]; simpl.
  - intros [= <-]. left. apply frame_refl.
  - intros [= <-]. left. by apply frame_same.
  - destruct (get data "result") as [result|]; simpl; [|done]. intros [= <-].
    eapply grows_after_frame; [|apply sendRequest_grows]. by apply frame_same.
  - destruct (tools_discovered c initResponse data) as [payload|]; simpl; [|done].
    intros [= <-]. left. by apply frame_same.
Qed.

Lemma on_http_ok_grows call_ data s :
  grows uuid s (on_http_ok c uuid send_throws call_ data s).
Proof.
  unfold on_http_ok. destruct call_ as [cb|forward requestId cb].
  - left. eapply frame_trans; [|apply frame_call]. by apply frame_same.
  - destruct (succeed c uuid send_throws cb data s) as [s'|] eqn:Hs.
    + apply succeed_grows in Hs. destruct forward; [|done]. by eapply grows_same.
    + left. destruct forward; [|apply frame_fail].
      eapply frame_trans; [apply frame_fail | by apply frame_same].
Qed.

(** *** Steps that remove entries *)

Lemma on_parsed_effect h raw message s s' :
  on_parsed message s = Ok s' ->
  frame s s' \/ exists id, by_response id s (EMessage h raw (Some message)) s'.
Proof.
  unfold on_parsed. destruct (get message "id") as [id|] eqn:Hid; simpl; [|done].
  assert (Hplain : Ok (emit (Sent "message" message None) s) = Ok s' -> frame s s').
  { intros [= <-]. by apply frame_same. }
  destruct id as [| | | |requestId| |]; auto.
  destruct (truthy (VStr requestId)); auto.
  destruct (pendingRequests s !! requestId) as [request|] eqn:Hreq; auto.
  intros [= <-]. right. exists requestId, h, raw, message, request.
  by repeat split.
Qed.

Lemma on_message_effect h k raw parsed s :
  let s' := on_message k raw parsed s in
  frame s s' \/ exists id, by_response id s (EMessage h raw parsed) s'.
Proof.
  unfold on_message. destruct parsed as [message|]; [|left; by apply frame_same].
  destruct (on_parsed message s) as [s'|] eqn:Hp; [|left; by apply frame_same].
  by eapply on_parsed_effect.
Qed.

(** The [forEach] of [disconnect] only clears timers, and clears the
    timeout of every entry. *)
Lemma clear_timeouts_spec s :
  let s' := clear_timeouts s in
  s' = set_timers (timers s') s /\
  (forall t body, timers s' !! t = Some body -> timers s !! t = Some body) /\
  (forall id request,
      pendingRequests s !! id = Some request ->
      timers s' !! pending_timeout request = None).
Proof.
  unfold clear_timeouts.
  apply (map_fold_weak_ind
           (fun r (m : gmap string pending) =>
              r = set_timers (timers r) s /\
              (forall t body, timers r !! t = Some body -> timers s !! t = Some body) /\
              (forall id request, m !! id = Some request ->
                                  timers r !! pending_timeout request = None))).
  - split; [by destruct s|]. split; [done|]. intros id request. by rewrite lookup_empty.
  - intros id request m r Hfresh (Hr & Hsub & Hcleared). split; [|split].
    + rewrite Hr. reflexivity.
    + intros t body. simpl. rewrite lookup_delete_Some. intros [_ H]. auto.
    + intros id' request'. simpl. rewrite lookup_insert_Some.
      intros [[_ <-]|[_ H]].
      * apply lookup_delete_eq.
      * rewrite lookup_delete_None. right. eauto.
Qed.

Ltac crack :=
  repeat (simpl; unfold close_connection; simpl;
          match goal with
          | |- context [match reconnectTimer ?s with _ => _ end] =>
              destruct (reconnectTimer s) eqn:?
          | |- context [match connection ?s with _ => _ end] =>
              destruct (connection s) eqn:?
          | |- context [match conns ?s !! ?h with _ => _ end] =>
              destruct (conns s !! h) as [[[] ? ?]|] eqn:?
          | |- context [if ?b then _ else _] => destruct b eqn:?
          end);
  simpl.

Lemma disconnect_not_connected cb s :
  isConnected s = false ->
  disconnect c cb s = call cb None (success "Already disconnected") s.
Proof. intros H. unfold disconnect. by rewrite H. Qed.

Lemma disconnect_connected cb s :
  isConnected s = true ->
  let s' := disconnect c cb s in
  (isConnected s' = false /\ connection s' = None /\ reconnectTimer s' = None /\
   pendingRequests s' = ∅ /\ uuid_calls s' = uuid_calls s) /\
  (forall t body, timers s' !! t = Some body -> timers s !! t = Some body) /\
  (forall t, reconnectTimer s = Some t -> timers s' !! t = None) /\
  (forall id request,
      pendingRequests s !! id = Some request ->
      timers s' !! pending_timeout request = None) /\
  (forall h,
      connection s = Some h ->
      connectionType c = "sse" \/ connectionType c = "websocket" ->
      Closed h ∈ log s' /\
      ready <$> conns s' !! h <> Some Open /\ ready <$> conns s' !! h <> Some Connecting) /\
  exists obs,
    log s' = (log s ++ obs)%list /\
    forall k error result,
      Called k error result ∈ obs ->
      cb = CbCaller k /\ error = None /\ result = success "Disconnected".
Proof using c.
  clear uuid send_throws.
  intros Hconn. unfold disconnect. rewrite Hconn. simpl.
  match goal with |- context [clear_timeouts ?x] =>
    destruct (clear_timeouts_spec x) as (Heq & Hsub & Hclr);
    set (s5 := x) in *; set (T := timers (clear_timeouts s5)) in * end.
  simpl in Heq. rewrite Heq.
  assert (Hp5 : pendingRequests s5 = pendingRequests s) by (unfold s5; by crack).
  assert (Ht5 : timers s5 = match reconnectTimer s with
                            | Some t => delete t (timers s)
                            | None => timers s
                            end) by (unfold s5; by crack).
  assert (Hsub5 : forall t body, timers s5 !! t = Some body -> timers s !! t = Some body).
  { intros t body. rewrite Ht5. destruct (reconnectTimer s); [|done].
    rewrite lookup_delete_Some. tauto. }
  split; [|split; [|split; [|split; [|split]]]].
  - destruct cb; simpl; repeat split; unfold s5; by crack.
  - intros t body Ht. apply Hsub5, Hsub. by destruct cb.
  - intros t Hrt.
    assert (HT : T !! t = None).
    { destruct (T !! t) as [body|] eqn:E; [|done].
      apply Hsub in E. rewrite Ht5, Hrt, lookup_delete_eq in E. done. }
    by destruct cb.
  - intros id request Hreq. rewrite <- Hp5 in Hreq. apply Hclr in Hreq. by destruct cb.
  - intros h Hh Htype.
    assert (Hor : String.eqb (connectionType c) "sse" ||
                  String.eqb (connectionType c) "websocket" = true).
    { destruct Htype as [-> | ->]; reflexivity. }
    destruct cb; simpl; unfold s5; simpl;
      destruct (reconnectTimer s); simpl; rewrite Hh; simpl; rewrite Hor;
      unfold close_connection; simpl;
      destruct (conns s !! h) as [[[] ? ?]|] eqn:Hc; simpl;
      rewrite ?lookup_delete_eq, ?lookup_insert_eq, ?Hc; simpl;
      (split; [rewrite ?elem_of_app, ?elem_of_cons; tauto | split; discriminate]).
  - destruct cb as [|k]; simpl; unfold s5; crack;
      rewrite <- ?app_assoc; simpl;
      (eexists; split; [reflexivity|]);
      intros k' error result Hin;
      repeat (apply elem_of_cons in Hin as [Hin|Hin]; [try discriminate Hin|]);
      try (by apply elem_of_nil in Hin);
      by injection Hin as -> -> ->.
Qed.

Lemma log_fail cb message s s1 : log s1 = log s -> log (fail cb message s1) = log (fail cb message s).
Proof. intros H. destruct cb; simpl; by rewrite H. Qed.

Lemma pending_fail cb message s : pendingRequests (fail cb message s) = pendingRequests s.
Proof. by destruct cb. Qed.

Lemma timers_fail cb message s : timers (fail cb message s) = timers s.
Proof. by destruct cb. Qed.

Lemma uuid_calls_fail cb message s : uuid_calls (fail cb message s) = uuid_calls s.
Proof. by destruct cb. Qed.

Lemma on_timer_effect t body s :
  timers s !! t = Some body ->
  let s' := on_timer c uuid send_throws body (clearTimer t s) in
  grows uuid s s' \/ exists id, by_timeout id s (ETimer t) s'.
Proof.
  intros Ht. destruct body as [| |requestId cb]; simpl.
  - left. left. eapply frame_trans; [apply (frame_clearTimer t)|].
    destruct (isConnected s); simpl; [by apply frame_same|].
    eapply frame_trans; [|apply frame_connect]. by apply frame_same.
  - left. eapply grows_after_frame; [apply (frame_clearTimer t)|].
    unfold fetchMCPHandshake. simpl. destruct (isConnected s); simpl.
    + apply sendRequest_grows.
    + left. apply frame_refl.
  - right. exists requestId, t, cb. split; [done|]. split; [done|]. simpl.
    rewrite pending_fail, timers_fail, uuid_calls_fail. simpl.
    repeat split. f_equal. by apply log_fail.
Qed.

(** Every step either removes no entry, or removes entries in one of the
    three ways. *)
Lemma step_effect s e :
  let s' := step c uuid send_throws s e in
  grows uuid s s' \/ (exists id, by_response id s e s') \/
  (exists id, by_timeout id s e s') \/ by_disconnect s e s'.
Proof.
  destruct e as [cb|cb|method params cb|k data|k message|h|h raw parsed|h fatal|h code|t];
    simpl.
  - left. left. apply frame_connect.
  - destruct (isConnected s) eqn:Hconn.
    + right. right. right. exists cb.
      destruct (disconnect_connected cb s Hconn)
        as ((_ & _ & _ & Hp & Hu) & Hsub & _ & Hclr & _ & Hobs).
      by repeat split.
    + left. left. rewrite disconnect_not_connected by done. apply frame_call.
  - left. apply sendRequest_grows.
  - left. destruct (calls s !! k) as [call_|]; [|left; apply frame_refl].
    eapply grows_after_frame; [|apply on_http_ok_grows]. by apply frame_same.
  - left. left. destruct (calls s !! k) as [call_|]; [|apply frame_refl].
    eapply frame_trans; [|apply frame_on_http_fail]. by apply frame_same.
  - left. left. destruct (conns s !! h) as [[k [] cb]|]; try apply frame_refl.
    apply frame_on_open.
  - destruct (conns s !! h) as [[k [] cb]|]; try (left; left; apply frame_refl).
    destruct (on_message_effect h k raw parsed s) as [Hf|Hr]; [by left; left | by right; left].
  - left. left. destruct (conns s !! h) as [[k r cb]|]; [|apply frame_refl].
    apply frame_on_error.
  - left. left. destruct (conns s !! h) as [[[] r cb]|]; try apply frame_refl.
    apply frame_on_close.
  - destruct (timers s !! t) as [body|] eqn:Ht; [|left; left; apply frame_refl].
    destruct (on_timer_effect t body s Ht) as [Hg|Hto]; [by left | by right; right; left].
Qed.

(** *** The table in the states the node reaches *)

Hypothesis uuid_inj : forall m n, uuid m = uuid n -> m = n.

Lemma table_ok_frame s s' : table_ok uuid s -> frame s s' -> table_ok uuid s'.
Proof.
  intros [Hkeys Htimers] (Hp & Hu & Ht). split.
  - intros id request. rewrite Hp. intros H.
    destruct (Hkeys _ _ H) as (k & Hk & ->). exists k. split; [lia | done].
  - intros t id cb H. rewrite Hp. eauto.
Qed.

Lemma table_ok_registered s s' : table_ok uuid s -> registered uuid s s' -> table_ok uuid s'.
Proof.
  intros [Hkeys Htimers] (cb & t & Hp & Hu & Ht). simpl in *. split.
  - intros id request. rewrite Hp, Hu, lookup_insert_Some.
    intros [[<- _]|[_ H]].
    + exists (uuid_calls s). split; [lia | done].
    + destruct (Hkeys _ _ H) as (k & Hk & ->). exists k. split; [lia | done].
  - intros t' id cb'. rewrite Ht, Hp, lookup_insert_Some.
    intros [[<- [= <- <-]]|[Hne H]].
    + apply lookup_insert_eq.
    + apply Htimers in H as Hentry.
      destruct (Hkeys _ _ Hentry) as (k & Hk & ->).
      rewrite lookup_insert_ne; [done|].
      intros Heq. apply uuid_inj in Heq. lia.
Qed.

Lemma table_ok_grows s s' : table_ok uuid s -> grows uuid s s' -> table_ok uuid s'.
Proof.
  intros Hok [Hf|(s1 & Hf & Hr)].
  - by eapply table_ok_frame.
  - eapply table_ok_registered; [|exact Hr]. by eapply table_ok_frame.
Qed.

Lemma table_ok_step s e :
  table_ok uuid s -> table_ok uuid (step c uuid send_throws s e).
Proof.
  intros Hok. destruct (step_effect s e) as [Hg|[[id Hr]|[[id Ht]|Hd]]].
  - by eapply table_ok_grows.
  - destruct Hok as [Hkeys Htimers].
    destruct Hr as (h & raw & message & request & _ & _ & Hreq & Hp & Ht & Hu & _).
    split.
    + intros id' request'. rewrite Hp, Hu, lookup_delete_Some. intros [_ H]. eauto.
    + intros t id' cb. rewrite Ht, Hp, lookup_delete_Some. intros [Hne H].
      apply Htimers in H as Hentry. rewrite lookup_delete_ne; [done|].
      intros <-. rewrite Hreq in Hentry. injection Hentry as ->. by apply Hne.
  - destruct Hok as [Hkeys Htimers].
    destruct Ht as (t & cb & _ & Harmed & Hp & Ht & Hu & _).
    split.
    + intros id' request'. rewrite Hp, Hu, lookup_delete_Some. intros [_ H]. eauto.
    + intros t' id' cb'. rewrite Ht, Hp, lookup_delete_Some. intros [Hne H].
      apply Htimers in H as Hentry. rewrite lookup_delete_ne; [done|].
      intros <-. apply Htimers in Harmed. rewrite Harmed in Hentry.
      injection Hentry as _ ->. by apply Hne.
  - destruct Hok as [Hkeys Htimers].
    destruct Hd as (cb & _ & _ & Hp & Hu & Hsub & Hclr & _).
    split.
    + intros id' request'. by rewrite Hp, lookup_empty.
    + intros t id' cb' H. apply Hsub in H as H0. apply Htimers in H0.
      apply Hclr in H0. simpl in H0. congruence.
Qed.

Lemma table_ok_initial : table_ok uuid initial.
Proof. split; intros *; simpl; by rewrite lookup_empty. Qed.

Lemma table_ok_run evs : forall s,
  table_ok uuid s -> table_ok uuid (run c uuid send_throws s evs).
Proof.
  induction evs as [|e evs IH]; intros s Hok; [done|].
  simpl. by apply IH, table_ok_step.
Qed.

Lemma retired_step id s e :
  retired uuid id s -> retired uuid id (step c uuid send_throws s e).
Proof.
  intros (Hnone & k & Hk & ->).
  destruct (step_effect s e) as [[Hf|(s1 & Hf & Hr)]|[[id Hr]|[[id Ht]|Hd]]].
  - destruct Hf as (Hp & Hu & _). split; [by rewrite Hp|]. exists k. split; [lia | done].
  - destruct Hf as (Hp1 & Hu1 & _). destruct Hr as (cb & t & Hp & Hu & _). simpl in *.
    split.
    + rewrite Hp, lookup_insert_ne; [by rewrite Hp1|].
      intros Heq. apply uuid_inj in Heq. lia.
    + exists k. split; [lia | done].
  - destruct Hr as (h & raw & message & request & _ & _ & _ & Hp & _ & Hu & _).
    split; [|exists k; split; [lia | done]].
    rewrite Hp, lookup_delete_None. by right.
  - destruct Ht as (t & cb & _ & _ & Hp & _ & Hu & _).
    split; [|exists k; split; [lia | done]].
    rewrite Hp, lookup_delete_None. by right.
  - destruct Hd as (cb & _ & _ & Hp & Hu & _).
    split; [|exists k; split; [lia | done]].
    by rewrite Hp, lookup_empty.
Qed.

Lemma retired_run id evs : forall s,
  retired uuid id s -> retired uuid id (run c uuid send_throws s evs).
Proof.
  induction evs as [|e evs IH]; intros s Hr; [done|].
  simpl. by apply IH, retired_step.
Qed.

(** *** Entries and their timeouts *)

(** A step that changes neither the table, the timers nor the reconnect
    timer, and takes identities at most. *)
Lemma armed_ok_mono s s' :
  pendingRequests s' = pendingRequests s -> timers s' = timers s ->
  reconnectTimer s' = reconnectTimer s -> fresh s <= fresh s' ->
  armed_ok s -> armed_ok s'.
Proof.
  intros Hp Ht Hr Hf (H1 & H2 & H3). unfold armed_ok. rewrite Hp, Ht, Hr.
  split; [done|]. split.
  - intros t body H. apply H2 in H. lia.
  - intros t H. destruct (H3 t H) as [Hlt Hno]. split; [lia | done].
Qed.

Lemma armed_ok_call cb error result s : armed_ok s -> armed_ok (call cb error result s).
Proof. destruct cb; [done|]. by apply armed_ok_mono. Qed.

Lemma armed_ok_fail cb message s : armed_ok s -> armed_ok (fail cb message s).
Proof. destruct cb; [done| | |]; by apply armed_ok_mono. Qed.

Lemma armed_ok_setTimer body s :
  (forall id cb, body <> TRequestTimeout id cb) ->
  armed_ok s -> armed_ok (setTimer body s).2.
Proof.
  intros Hbody (H1 & H2 & H3). split; [|split]; simpl.
  - intros id request H. rewrite lookup_insert_ne; [by apply H1|].
    intros Heq. apply H1, H2 in H. lia.
  - intros t body'. rewrite lookup_insert_Some. intros [[<- _]|[_ H]]; [lia|].
    apply H2 in H. lia.
  - intros t H. destruct (H3 t H) as [Hlt Hno]. split; [lia|].
    intros id cb. rewrite lookup_insert_ne; [done | lia].
Qed.

Lemma armed_ok_scheduleReconnect s : armed_ok s -> armed_ok (scheduleReconnect s).
Proof.
  intros Hok. unfold scheduleReconnect.
  destruct (reconnectTimer s) as [t0|] eqn:Hrt; [done|].
  destruct Hok as (H1 & H2 & H3). split; [|split]; simpl.
  - intros id request H. rewrite lookup_insert_ne; [by apply H1|].
    intros Heq. apply H1, H2 in H. lia.
  - intros t body'. rewrite lookup_insert_Some. intros [[<- _]|[_ H]]; [lia|].
    apply H2 in H. lia.
  - intros t [= <-]. split; [lia|]. intros id cb. by rewrite lookup_insert_eq.
Qed.

(** Clearing a timer that is no request timeout. *)
Lemma armed_ok_clearTimer t s :
  (forall id cb, timers s !! t <> Some (TRequestTimeout id cb)) ->
  armed_ok s -> armed_ok (clearTimer t s).
Proof.
  intros Hno (H1 & H2 & H3). split; [|split]; simpl.
  - intros id request H. rewrite lookup_delete_ne; [by apply H1|].
    intros ->. by apply H1, Hno in H.
  - intros t' body. rewrite lookup_delete_Some. intros [_ H]. eauto.
  - intros t' H. destruct (H3 t' H) as [Hlt Hno']. split; [done|].
    intros id cb. rewrite lookup_delete_Some. intros [_ H']. by apply Hno' in H'.
Qed.

Lemma armed_ok_connect cb s : armed_ok s -> armed_ok (connect c cb s).
Proof.
  intros Hok. unfold connect. destruct (isConnected s); [by apply armed_ok_call|].
  repeat (match goal with |- context [if ?b then _ else _] => destruct b end);
    try (apply armed_ok_call); (eapply armed_ok_mono; [..|exact Hok]); simpl; auto.
Qed.

Lemma armed_ok_sendRequest method params cb s :
  armed_ok s -> armed_ok (sendRequest c uuid send_throws method params cb s).
Proof.
  intros Hok. unfold sendRequest.
  destruct (isConnected s); cbv beta iota zeta delta [negb]; [|by apply armed_ok_fail].
  assert (Hcount : forall s', pendingRequests s' = pendingRequests s ->
            timers s' = timers s -> reconnectTimer s' = reconnectTimer s ->
            fresh s <= fresh s' -> armed_ok s').
  { intros s' Hp Ht Hr Hf. by eapply armed_ok_mono. }
  destruct (String.eqb (connectionType c) "http"); [apply Hcount; simpl; auto|].
  destruct (String.eqb (connectionType c) "sse"); [apply Hcount; simpl; auto|].
  destruct (String.eqb (connectionType c) "websocket"); [|by apply Hcount].
  match goal with |- context [if ?b then _ else _] => destruct b end.
  { destruct cb; by apply Hcount. }
  assert (Hreg : forall s0, pendingRequests s0 = pendingRequests s ->
            timers s0 = timers s -> reconnectTimer s0 = reconnectTimer s ->
            fresh s0 = fresh s ->
            armed_ok (set_pendingRequests
                        (<[uuid (uuid_calls s) :=
                             PendingRequest cb (fresh s0)]> (pendingRequests s0))
                        (setTimer (TRequestTimeout (uuid (uuid_calls s)) cb) s0).2)).
  { intros s0 Hp Ht Hr Hf. destruct Hok as (H1 & H2 & H3).
    split; [|split]; simpl; rewrite ?Hp, ?Ht, ?Hr, ?Hf.
    - intros id request. rewrite lookup_insert_Some. intros [[<- <-]|[_ H]].
      + simpl. by rewrite lookup_insert_eq.
      + rewrite lookup_insert_ne; [by apply H1|].
        intros Heq. apply H1, H2 in H. lia.
    - intros t body. rewrite lookup_insert_Some. intros [[<- _]|[_ H]]; [lia|].
      apply H2 in H. lia.
    - intros t H. destruct (H3 t H) as [Hlt Hno]. split; [lia|].
      intros id cb'. rewrite lookup_insert_ne; [done | lia]. }
  cbn [connection conns set_uuid_calls].
  destruct (connection s) as [h|];
    [destruct (ready <$> conns s !! h) as [[]|]|];
    match goal with |- context [setTimer _ ?s0] =>
      exact (Hreg s0 eq_refl eq_refl eq_refl eq_refl) end.
Qed.

Lemma armed_ok_succeed cb data s s' :
  succeed c uuid send_throws cb data s = Ok s' -> armed_ok s -> armed_ok s'.
Proof.
  intros Hs Hok. destruct cb as [|k| |initResponse]; simpl in Hs.
  - by injection Hs as <-.
  - injection Hs as <-. by eapply armed_ok_mono; [..|exact Hok].
  - destruct (get data "result") as [result|]; simpl in Hs; [|done]. injection Hs as <-.
    apply armed_ok_sendRequest. by eapply armed_ok_mono; [..|exact Hok].
  - destruct (tools_discovered c initResponse data) as [payload|]; simpl in Hs; [|done].
    injection Hs as <-. by eapply armed_ok_mono; [..|exact Hok].
Qed.

Lemma armed_ok_step s e : armed_ok s -> armed_ok (step c uuid send_throws s e).
Proof.
  intros Hok.
  destruct e as [cb|cb|method params cb|k data|k message|h|h raw parsed|h fatal|h code|t];
    simpl.
  - by apply armed_ok_connect.
  - destruct (isConnected s) eqn:Hconn.
    + destruct (disconnect_connected cb s Hconn)
        as ((_ & _ & Hnone & Hp & _) & Hsub & _ & _ & _ & _).
      destruct Hok as (H1 & H2 & H3). split; [|split].
      * intros id request. by rewrite Hp, lookup_empty.
      * intros t body H. apply Hsub, H2 in H.
        assert (Hf : fresh (disconnect c cb s) = fresh s).
        { unfold disconnect. rewrite Hconn. simpl.
          match goal with |- context [clear_timeouts ?x] =>
            rewrite (proj1 (clear_timeouts_spec x)) end.
          destruct cb; by crack. }
        lia.
      * intros t. by rewrite Hnone.
    + rewrite disconnect_not_connected by done. by apply armed_ok_call.
  - by apply armed_ok_sendRequest.
  - destruct (calls s !! k) as [call_|]; [|done].
    assert (Hok0 : armed_ok (set_calls (delete k (calls s)) s))
      by (by eapply armed_ok_mono; [..|exact Hok]).
    unfold on_http_ok. destruct call_ as [cb|forward requestId cb].
    + apply armed_ok_call. by eapply armed_ok_mono; [..|exact Hok0].
    + destruct (succeed c uuid send_throws cb data _) as [s'|] eqn:Hs.
      * eapply armed_ok_succeed in Hs; [|exact Hok0].
        destruct forward; [|done]. by eapply armed_ok_mono; [..|exact Hs].
      * destruct forward; [|by apply armed_ok_fail].
        eapply armed_ok_mono; [..|apply (armed_ok_fail cb exception_text), Hok0];
          simpl; auto.
  - destruct (calls s !! k) as [call_|]; [|done].
    assert (Hok0 : armed_ok (set_calls (delete k (calls s)) s))
      by (by eapply armed_ok_mono; [..|exact Hok]).
    unfold on_http_fail. destruct call_ as [cb|forward requestId cb].
    + match goal with |- context [call cb ?e ?r ?x] =>
        assert (Hok1 : armed_ok (call cb e r x)) end.
      { apply armed_ok_call. by eapply armed_ok_mono; [..|exact Hok0]. }
      destruct (reconnect c); [by apply armed_ok_scheduleReconnect | done].
    + destruct forward; [|by apply armed_ok_fail].
      eapply armed_ok_mono; [..|apply (armed_ok_fail cb message), Hok0]; simpl; auto.
  - destruct (conns s !! h) as [[k [] cb]|]; try done.
    unfold on_open. apply armed_ok_setTimer; [done|]. apply armed_ok_call.
    by eapply armed_ok_mono; [..|exact Hok].
  - destruct (conns s !! h) as [[k [] cb]|]; try done.
    unfold on_message.
    assert (Hgarbled : forall o1 o2, armed_ok (emit o1 (emit o2 s)))
      by (intros; by eapply armed_ok_mono; [..|exact Hok]).
    destruct parsed as [message|]; [|apply Hgarbled].
    destruct (on_parsed message s) as [s'|] eqn:Hp; [|apply Hgarbled].
    unfold on_parsed in Hp. destruct (get message "id") as [id|]; simpl in Hp; [|done].
    assert (Hplain : Ok (emit (Sent "message" message None) s) = Ok s' -> armed_ok s').
    { intros [= <-]. by eapply armed_ok_mono; [..|exact Hok]. }
    destruct id as [| | | |requestId| |]; auto.
    destruct (truthy (VStr requestId)); auto.
    destruct (pendingRequests s !! requestId) as [request|] eqn:Hreq; auto.
    injection Hp as <-. destruct Hok as (H1 & H2 & H3). split; [|split]; simpl.
    + intros id request'. rewrite lookup_delete_Some. intros [Hne H].
      rewrite lookup_delete_ne; [by apply H1|].
      intros Heq. apply H1 in H. apply H1 in Hreq. rewrite Heq in Hreq.
      rewrite Hreq in H. by injection H.
    + intros t body. rewrite lookup_delete_Some. intros [_ H]. eauto.
    + intros t H. destruct (H3 t H) as [Hlt Hno]. split; [done|].
      intros id cb'. rewrite lookup_delete_Some. intros [_ H']. by apply Hno in H'.
  - destruct (conns s !! h) as [[k r cb]|]; [|done].
    unfold on_error.
    match goal with |- context [set_isConnected false ?x] =>
      assert (Hok1 : armed_ok
                (emit (Status (transport_tag k ++ " error")) (set_isConnected false x)))
    end.
    { destruct k; [destruct fatal|]; by eapply armed_ok_mono; [..|exact Hok]. }
    destruct (reconnect c); [by apply armed_ok_scheduleReconnect | done].
  - destruct (conns s !! h) as [[[] r cb]|]; try done.
    unfold on_close.
    assert (Hok1 : armed_ok
              (emit (Status "disconnected")
                 (set_isConnected false (set_conns (delete h (conns s)) s))))
      by (by eapply armed_ok_mono; [..|exact Hok]).
    destruct (reconnect c && negb (code =? 1000)%Z);
      [by apply armed_ok_scheduleReconnect | done].
  - destruct (timers s !! t) as [body|] eqn:Ht; [|done].
    destruct body as [| |requestId cb]; simpl.
    + assert (Hok1 : armed_ok (clearTimer t s)).
      { apply armed_ok_clearTimer; [|done]. intros id cb. by rewrite Ht. }
      assert (Hok2 : armed_ok (set_reconnectTimer None (clearTimer t s))).
      { destruct Hok1 as (H1 & H2 & H3). by split. }
      destruct (isConnected s); simpl; [done|]. by apply armed_ok_connect.
    + assert (Hok1 : armed_ok (clearTimer t s)).
      { apply armed_ok_clearTimer; [|done]. intros id cb. by rewrite Ht. }
      unfold fetchMCPHandshake. simpl.
      destruct (isConnected s); simpl; [by apply armed_ok_sendRequest | done].
    + assert (Hok1 : armed_ok
                (set_pendingRequests (delete requestId (pendingRequests s))
                   (clearTimer t s))).
      { destruct Hok as (H1 & H2 & H3). split; [|split]; simpl.
        - intros id request. rewrite lookup_delete_Some. intros [Hne H].
          rewrite lookup_delete_ne; [by apply H1|].
          intros Heq. apply H1 in H. rewrite <- Heq, Ht in H.
          injection H as Hid _. by apply Hne.
        - intros t' body. rewrite lookup_delete_Some. intros [_ H]. eauto.
        - intros t' H. destruct (H3 t' H) as [Hlt Hno]. split; [done|].
          intros id cb'. rewrite lookup_delete_Some. intros [_ H']. by apply Hno in H'. }
      eapply armed_ok_mono; [..|apply (armed_ok_fail cb "Request timeout"), Hok1];
        simpl; auto.
Qed.

Lemma armed_ok_run evs : forall s,
  armed_ok s -> armed_ok (run c uuid send_throws s evs).
Proof.
  induction evs as [|e evs IH]; intros s Hok; [done|].
  simpl. by apply IH, armed_ok_step.
Qed.

Lemma armed_ok_initial : armed_ok initial.
Proof. repeat split; intros *; simpl; try by rewrite lookup_empty. done. Qed.

(** C2 (as the code has it).  As long as an entry is in the pending table
    its timeout is armed, and the entry leaves the table in exactly one of
    three ways: an inbound message with its id, which clears its timeout
    and is sent on under the topic "response" with the id; its timeout
    firing, which calls the request's callback with the error "Request
    timeout" and sends the error on; or a disconnect of the connected
    node, which clears every timeout and empties the table.  Once it has
    left, the id never has an entry again and no timeout for it is armed,
    so no second removal and no later timeout can follow. *)
Theorem pending_entry_removed_once evs e id request :
  let s := run c uuid send_throws initial evs in
  let s' := step c uuid send_throws s e in
  pendingRequests s !! id = Some request ->
  timers s !! pending_timeout request
    = Some (TRequestTimeout id (pending_callback request)) /\
  (pendingRequests s' !! id = None ->
   (by_response id s e s' \/ by_timeout id s e s' \/ by_disconnect s e s') /\
   forall later,
     let s'' := run c uuid send_throws s' later in
     pendingRequests s'' !! id = None /\
     forall t cb, timers s'' !! t <> Some (TRequestTimeout id cb)).
Proof.
  intros s s' Hin.
  split.
  { assert (Harmed : armed_ok s) by (apply armed_ok_run, armed_ok_initial).
    by apply Harmed. }
  intros Hout.
  assert (Hok : table_ok uuid s) by (apply table_ok_run, table_ok_initial).
  assert (Hok' : table_ok uuid s') by (by apply table_ok_step).
  destruct (proj1 Hok _ _ Hin) as (k & Hk & Hid).
  assert (Hcause : (by_response id s e s' \/ by_timeout id s e s' \/ by_disconnect s e s')
                   /\ uuid_calls s <= uuid_calls s').
  { unfold s' in *.
    destruct (step_effect s e) as [[Hf|(s1 & Hf & Hr)]|[[id' Hr]|[[id' Ht]|Hd]]].
    - destruct Hf as (Hp & _). rewrite Hp in Hout. congruence.
    - destruct Hf as (Hp1 & _). destruct Hr as (cb & t & Hp & _). simpl in Hp.
      rewrite Hp, lookup_insert_None, Hp1 in Hout. destruct Hout. congruence.
    - assert (id' = id) as ->.
      { destruct Hr as (? & ? & ? & ? & _ & _ & _ & Hp & _).
        rewrite Hp, lookup_delete_None in Hout. destruct Hout; [done | congruence]. }
      split; [by left|]. destruct Hr as (? & ? & ? & ? & _ & _ & _ & _ & _ & -> & _). lia.
    - assert (id' = id) as ->.
      { destruct Ht as (? & ? & _ & _ & Hp & _).
        rewrite Hp, lookup_delete_None in Hout. destruct Hout; [done | congruence]. }
      split; [by right; left|]. destruct Ht as (? & ? & _ & _ & _ & _ & -> & _). lia.
    - split; [by right; right|]. destruct Hd as (? & _ & _ & _ & -> & _). lia. }
  destruct Hcause as [Hcause Hmono]. split; [exact Hcause|].
  intros later s''.
  assert (Hret : retired uuid id s'').
  { apply retired_run. split; [done|]. exists k. split; [lia | done]. }
  split; [apply Hret|].
  intros t cb Ht.
  assert (Hok'' : table_ok uuid s'') by (by apply table_ok_run).
  apply (proj2 Hok'') in Ht. destruct Hret as [Hnone _]. congruence.
Qed.

(** C1 (as the code has it).  On a connected node, [disconnect] cancels
    the reconnect timer, closes the connection object (of an SSE or
    WebSocket client) and drops the handle, cancels the timeout of every
    pending request without calling any pending callback, empties the
    table and leaves the node disconnected; the only callback it calls is
    its own, with the result "Disconnected".  On a node that is not
    connected it does nothing but report "Already disconnected". *)
Theorem disconnect_clears cb s :
  (isConnected s = true ->
   let s' := disconnect c cb s in
   (isConnected s' = false /\ connection s' = None /\ reconnectTimer s' = None /\
    pendingRequests s' = ∅) /\
   (forall t, reconnectTimer s = Some t -> timers s' !! t = None) /\
   (forall id request,
       pendingRequests s !! id = Some request ->
       timers s' !! pending_timeout request = None) /\
   (forall h,
       connection s = Some h ->
       connectionType c = "sse" \/ connectionType c = "websocket" ->
       Closed h ∈ log s' /\
       ready <$> conns s' !! h <> Some Open /\ ready <$> conns s' !! h <> Some Connecting) /\
   exists obs,
     log s' = (log s ++ obs)%list /\
     forall k error result,
       Called k error result ∈ obs ->
       cb = CbCaller k /\ error = None /\ result = success "Disconnected") /\
  (isConnected s = false ->
   disconnect c cb s = call cb None (success "Already disconnected") s).
Proof using c.
  split; [|apply disconnect_not_connected].
  intros Hconn s'.
  destruct (disconnect_connected cb s Hconn)
    as ((H1 & H2 & H3 & H4 & _) & _ & Hrt & Hclr & Hclose & Hobs).
  split; [by repeat split|]. split; [exact Hrt|]. split; [exact Hclr|].
  split; [exact Hclose | exact Hobs].
Qed.

(** *** The reconnect timer in the states the node reaches *)

Lemma keeps_refl s : keeps s s.
Proof. by split. Qed.

Lemma keeps_trans s1 s2 s3 : keeps s1 s2 -> keeps s2 s3 -> keeps s1 s3.
Proof. intros [Hr1 Ht1] [Hr2 Ht2]. split; [congruence | eauto]. Qed.

Lemma keeps_same s s' :
  reconnectTimer s' = reconnectTimer s -> timers s' = timers s -> keeps s s'.
Proof. intros Hr Ht. split; [done | by rewrite Ht]. Qed.

Lemma keeps_call cb error result s : keeps s (call cb error result s).
Proof. destruct cb; by apply keeps_same. Qed.

Lemma keeps_fail cb message s : keeps s (fail cb message s).
Proof. destruct cb; by apply keeps_same. Qed.

Lemma keeps_clearTimer t s : keeps s (clearTimer t s).
Proof. split; [done|]. intros t'. simpl. rewrite lookup_delete_Some. tauto. Qed.

Lemma keeps_setTimer body s : body <> TReconnect -> keeps s (setTimer body s).2.
Proof.
  intros Hbody. split; [done|]. intros t. simpl.
  rewrite lookup_insert_Some. intros [[_ ->]|[_ H]]; done.
Qed.

Lemma keeps_connect cb s : keeps s (connect c cb s).
Proof.
  unfold connect. destruct (isConnected s); [apply keeps_call|].
  repeat (match goal with |- context [if ?b then _ else _] => destruct b end);
    try (by apply keeps_same).
  eapply keeps_trans; [|apply keeps_call]. by apply keeps_same.
Qed.

Lemma keeps_sendRequest method params cb s :
  keeps s (sendRequest c uuid send_throws method params cb s).
Proof.
  unfold sendRequest. destruct (isConnected s); simpl; [|apply keeps_fail].
  repeat (match goal with |- context [if ?b then _ else _] => destruct b end);
    try (by apply keeps_same).
  - destruct cb; by apply keeps_same.
  - split.
    + destruct (connection s) as [h|]; simpl; [|done].
      by destruct (ready <$> conns s !! h) as [[]|].
    + intros t.
      assert (Ht : forall s0, timers s0 = timers s -> fresh s0 = fresh s ->
                timers (setTimer (TRequestTimeout (uuid (uuid_calls s)) cb) s0).2 !! t
                  = Some TReconnect -> timers s !! t = Some TReconnect).
      { intros s0 Ht0 Hf0. simpl. rewrite Ht0, lookup_insert_Some.
        intros [[_ ?]|[_ ?]]; done. }
      destruct (connection s) as [h|]; simpl; [|by apply Ht].
      destruct (ready <$> conns s !! h) as [[]|]; by apply Ht.
Qed.

Lemma keeps_succeed cb data s s' :
  succeed c uuid send_throws cb data s = Ok s' -> keeps s s'.
Proof.
  destruct cb as [|k| |initResponse]; simpl.
  - intros [= <-]. apply keeps_refl.
  - intros [= <-]. by apply keeps_same.
  - destruct (get data "result") as [result|]; simpl; [|done]. intros [= <-].
    eapply keeps_trans; [|apply keeps_sendRequest]. by apply keeps_same.
  - destruct (tools_discovered c initResponse data) as [payload|]; simpl; [|done].
    intros [= <-]. by apply keeps_same.
Qed.

Lemma keeps_on_http_ok call_ data s : keeps s (on_http_ok c uuid send_throws call_ data s).
Proof.
  unfold on_http_ok. destruct call_ as [cb|forward requestId cb].
  - eapply keeps_trans; [|apply keeps_call]. by apply keeps_same.
  - destruct (succeed c uuid send_throws cb data s) as [s'|] eqn:Hs.
    + apply keeps_succeed in Hs. destruct forward; [|done].
      eapply keeps_trans; [exact Hs | by apply keeps_same].
    + destruct forward; [|apply keeps_fail].
      eapply keeps_trans; [apply keeps_fail | by apply keeps_same].
Qed.

Lemma keeps_on_message k raw parsed s : keeps s (on_message k raw parsed s).
Proof.
  unfold on_message. destruct parsed as [message|]; [|by apply keeps_same].
  destruct (on_parsed message s) as [s'|] eqn:Hp; [|by apply keeps_same].
  unfold on_parsed in Hp. destruct (get message "id") as [id|]; simpl in Hp; [|done].
  assert (Hplain : Ok (emit (Sent "message" message None) s) = Ok s' -> keeps s s').
  { intros [= <-]. by apply keeps_same. }
  destruct id as [| | | |requestId| |]; auto.
  destruct (truthy (VStr requestId)); auto.
  destruct (pendingRequests s !! requestId) as [request|]; auto.
  injection Hp as <-.
  eapply keeps_trans; [apply (keeps_clearTimer (pending_timeout request))|].
  by apply keeps_same.
Qed.

Lemma keeps_on_open h k cb s : keeps s (on_open c h k cb s).
Proof.
  unfold on_open. eapply keeps_trans; [|by apply (keeps_setTimer THandshake)].
  eapply keeps_trans; [|apply keeps_call]. by apply keeps_same.
Qed.

Lemma reconnect_ok_keeps s s' : reconnect_ok s -> keeps s s' -> reconnect_ok s'.
Proof. intros Hok [Hr Ht] t H. rewrite Hr. auto. Qed.

Lemma scheduleReconnect_armed s : is_Some (reconnectTimer s) -> scheduleReconnect s = s.
Proof. intros [t Ht]. unfold scheduleReconnect. by rewrite Ht. Qed.

Lemma reconnect_ok_scheduleReconnect s : reconnect_ok s -> reconnect_ok (scheduleReconnect s).
Proof.
  intros Hok. unfold scheduleReconnect.
  destruct (reconnectTimer s) as [t0|] eqn:Hrt; [done|].
  intros t. simpl. rewrite lookup_insert_Some. intros [[<- _]|[_ H]]; [done|].
  apply Hok in H. congruence.
Qed.

Lemma reconnect_ok_step s e :
  reconnect_ok s -> reconnect_ok (step c uuid send_throws s e).
Proof.
  intros Hok.
  destruct e as [cb|cb|method params cb|k data|k message|h|h raw parsed|h fatal|h code|t];
    simpl.
  - eapply reconnect_ok_keeps; [done | apply keeps_connect].
  - destruct (isConnected s) eqn:Hconn.
    + destruct (disconnect_connected cb s Hconn)
        as ((_ & _ & Hnone & _) & Hsub & Hrt & _).
      intros t Ht. apply Hsub in Ht as Ht0. apply Hok, Hrt in Ht0. congruence.
    + rewrite disconnect_not_connected by done.
      eapply reconnect_ok_keeps; [done | apply keeps_call].
  - eapply reconnect_ok_keeps; [done | apply keeps_sendRequest].
  - destruct (calls s !! k) as [call_|]; [|done].
    eapply reconnect_ok_keeps; [done|].
    eapply keeps_trans; [|apply keeps_on_http_ok]. by apply keeps_same.
  - destruct (calls s !! k) as [call_|]; [|done].
    unfold on_http_fail. destruct call_ as [cb|forward requestId cb].
    + assert (Hok1 : reconnect_ok
                (call cb (Some message) VUndefined
                   (emit (Status "connection failed")
                      (set_isConnected false (set_calls (delete k (calls s)) s))))).
      { eapply reconnect_ok_keeps; [done|].
        eapply keeps_trans; [|apply keeps_call]. by apply keeps_same. }
      destruct (reconnect c); [by apply reconnect_ok_scheduleReconnect | done].
    + eapply reconnect_ok_keeps; [done|].
      destruct forward; [|eapply keeps_trans; [|apply keeps_fail]; by apply keeps_same].
      eapply keeps_trans; [|by apply keeps_same].
      eapply keeps_trans; [|apply keeps_fail]. by apply keeps_same.
  - destruct (conns s !! h) as [[k [] cb]|]; try done.
    eapply reconnect_ok_keeps; [done | apply keeps_on_open].
  - destruct (conns s !! h) as [[k [] cb]|]; try done.
    eapply reconnect_ok_keeps; [done | apply keeps_on_message].
  - destruct (conns s !! h) as [[k r cb]|]; [|done].
    unfold on_error.
    match goal with |- context [set_isConnected false ?x] =>
      assert (Hok1 : reconnect_ok
                (emit (Status (transport_tag k ++ " error")) (set_isConnected false x)))
    end.
    { eapply reconnect_ok_keeps; [done|].
      destruct k; [destruct fatal|]; by apply keeps_same. }
    destruct (reconnect c); [by apply reconnect_ok_scheduleReconnect | done].
  - destruct (conns s !! h) as [[[] r cb]|]; try done.
    unfold on_close.
    assert (Hok1 : reconnect_ok
              (emit (Status "disconnected")
                 (set_isConnected false (set_conns (delete h (conns s)) s)))).
    { eapply reconnect_ok_keeps; [done|]. by apply keeps_same. }
    destruct (reconnect c && negb (code =? 1000)%Z);
      [by apply reconnect_ok_scheduleReconnect | done].
  - destruct (timers s !! t) as [body|] eqn:Ht; [|done].
    destruct body as [| |requestId cb]; simpl.
    + assert (Hok1 : reconnect_ok (set_reconnectTimer None (clearTimer t s))).
      { intros t'. simpl. rewrite lookup_delete_Some. intros [Hne H].
        apply Hok in H. apply Hok in Ht. congruence. }
      destruct (isConnected s); simpl; [done|].
      eapply reconnect_ok_keeps; [exact Hok1 | apply keeps_connect].
    + eapply reconnect_ok_keeps; [done|].
      eapply keeps_trans; [apply (keeps_clearTimer t)|].
      unfold fetchMCPHandshake. simpl.
      destruct (isConnected s); simpl; [apply keeps_sendRequest | apply keeps_refl].
    + eapply reconnect_ok_keeps; [done|].
      eapply keeps_trans; [apply (keeps_clearTimer t)|].
      eapply keeps_trans; [|by apply keeps_same].
      eapply keeps_trans; [|apply keeps_fail]. by apply keeps_same.
Qed.

Lemma reconnect_ok_run evs : forall s,
  reconnect_ok s -> reconnect_ok (run c uuid send_throws s evs).
Proof.
  induction evs as [|e evs IH]; intros s Hok; [done|].
  simpl. by apply IH, reconnect_ok_step.
Qed.

(** C10 (as the code has it).  [connect] on a node that is connected opens
    nothing and answers "Already connected"; on a node that is not
    connected, an SSE or WebSocket client opens a new connection object and
    takes it as its handle, the objects opened before staying as they are.
    [scheduleReconnect] does nothing while a reconnect timer is held, and
    in every state the node reaches the only reconnect timer that can be
    armed is the one it holds: at most one is pending. *)
Theorem connect_and_reconnect_guards :
  (forall s cb,
      isConnected s = true ->
      connect c cb s = call cb None (success "Already connected") s) /\
  (forall s cb k,
      isConnected s = false ->
      (k = SSE /\ connectionType c = "sse") \/ (k = WS /\ connectionType c = "websocket") ->
      let s' := connect c cb s in
      connection s' = Some (fresh s) /\
      conns s' = <[fresh s := Conn k Connecting cb]> (conns s)) /\
  (forall s, is_Some (reconnectTimer s) -> scheduleReconnect s = s) /\
  (forall evs t1 t2,
      let s := run c uuid send_throws initial evs in
      timers s !! t1 = Some TReconnect -> timers s !! t2 = Some TReconnect ->
      t1 = t2 /\ reconnectTimer s = Some t1).
Proof.
  split; [|split; [|split]].
  - intros s cb H. unfold connect. by rewrite H.
  - intros s cb k H Hk. unfold connect. rewrite H.
    destruct Hk as [[-> ->]|[-> ->]]; by simpl.
  - exact scheduleReconnect_armed.
  - intros evs t1 t2 s H1 H2.
    assert (Hok : reconnect_ok s) by (apply reconnect_ok_run; by intros t).
    apply Hok in H1 as H1'. apply Hok in H2. split; [congruence | done].
Qed.

End ClientFacts.

(** *** Scenarios *)

Section ClientScenarios.

Import Client.

Lemma index_key_inj m n : index_key m = index_key n -> m = n.
Proof.
  unfold index_key. intros H.
  apply (f_equal NilEmpty.uint_of_string) in H.
  rewrite !NilEmpty.usu in H. injection H as H.
  apply (f_equal N.of_uint) in H. rewrite !DecimalN.Unsigned.of_to in H.
  by apply Nat2N.inj.
Qed.

Lemma numbered_inj m n : numbered m = numbered n -> m = n.
Proof. unfold numbered. intros [= H]. by apply index_key_inj. Qed.

(** A socket client that is connected and has sent one request, and one
    that has sent three. *)
Lemma pending_entry_removed_once_witness :
  let e := EMessage 0 "{}" (Some (VObj [("id", VStr "req-0"); ("result", VObj [])])) in
  let s := run websocket_client numbered throws_unless_open initial
             [EConnect (CbCaller 0); EOpen 0;
              ERequest "tools/list" (VObj []) (RcCaller 1)] in
  let s' := step websocket_client numbered throws_unless_open s e in
  timers s !! 2 = Some (TRequestTimeout "req-0" (RcCaller 1)) /\
  (by_response "req-0" s e s' \/ by_timeout "req-0" s e s' \/ by_disconnect s e s') /\
  forall later,
    let s'' := run websocket_client numbered throws_unless_open s' later in
    pendingRequests s'' !! "req-0" = None /\
    forall t cb, timers s'' !! t <> Some (TRequestTimeout "req-0" cb).
Proof.
  intros e s s'.
  destruct (pending_entry_removed_once websocket_client numbered throws_unless_open
              numbered_inj
              [EConnect (CbCaller 0); EOpen 0; ERequest "tools/list" (VObj []) (RcCaller 1)]
              e "req-0" (PendingRequest (RcCaller 1) 2)) as [Harmed Hleaves].
  - vm_compute. reflexivity.
  - split; [exact Harmed|]. apply Hleaves. vm_compute. reflexivity.
Defined.

(** C2 (as stated) fails: the entry of a request in flight leaves the table
    when the node disconnects, through neither a response nor its timeout;
    the timeout is cancelled and the request's callback is never called. *)
Lemma disconnect_drops_pending_request :
  let e := EDisconnect CbNone in
  let s := run websocket_client numbered throws_unless_open initial
             [EConnect (CbCaller 0); EOpen 0;
              ERequest "tools/list" (VObj []) (RcCaller 1)] in
  let s' := step websocket_client numbered throws_unless_open s e in
  pendingRequests s !! "req-0" = Some (PendingRequest (RcCaller 1) 2) /\
  timers s !! 2 = Some (TRequestTimeout "req-0" (RcCaller 1)) /\
  pendingRequests s' !! "req-0" = None /\
  timers s' !! 2 = None /\
  called 1 (log s') = [] /\
  ~ (by_response "req-0" s e s' \/ by_timeout "req-0" s e s').
Proof.
  intros e s s'. repeat split; try (vm_compute; reflexivity).
  intros [(h & raw & message & request & He & _)|(t & cb & He & _)]; discriminate He.
Qed.

Lemma disconnect_clears_witness :
  let s := run websocket_client numbered throws_unless_open initial
             [EConnect (CbCaller 0); EOpen 0;
              ERequest "a" VNull (RcCaller 1); ERequest "b" VNull (RcCaller 2);
              ERequest "c" VNull (RcCaller 3)] in
  let s' := disconnect websocket_client (CbCaller 9) s in
  (isConnected s' = false /\ connection s' = None /\ reconnectTimer s' = None /\
   pendingRequests s' = ∅) /\
  disconnect websocket_client (CbCaller 9) initial
    = call (CbCaller 9) None (success "Already disconnected") initial.
Proof.
  intros s s'. split.
  - apply (proj1 (disconnect_clears websocket_client (CbCaller 9) s)).
    vm_compute. reflexivity.
  - apply (proj2 (disconnect_clears websocket_client (CbCaller 9) initial)).
    reflexivity.
Defined.

(** C1 (as stated) fails: disconnecting a connected node with three pending
    requests empties the table and calls none of the three callbacks; only
    the callback of [disconnect] is called, with "Disconnected". *)
Lemma disconnect_calls_no_pending_callback :
  let s := run websocket_client numbered throws_unless_open initial
             [EConnect (CbCaller 0); EOpen 0;
              ERequest "a" VNull (RcCaller 1); ERequest "b" VNull (RcCaller 2);
              ERequest "c" VNull (RcCaller 3)] in
  let s' := step websocket_client numbered throws_unless_open s (EDisconnect (CbCaller 9)) in
  size (pendingRequests s) = 3 /\
  pendingRequests s' = ∅ /\
  called 1 (log s') = [] /\ called 2 (log s') = [] /\ called 3 (log s') = [] /\
  called 9 (log s') = [(None, success "Disconnected")].
Proof. intros s s'. repeat split; vm_compute; reflexivity. Qed.

Lemma connect_and_reconnect_guards_witness :
  let connected := run websocket_client numbered throws_unless_open initial
                     [EConnect (CbCaller 0); EOpen 0] in
  let broken := run websocket_client numbered throws_unless_open initial
                  [EConnect (CbCaller 0); EOpen 0; EError 0 false] in
  connect websocket_client (CbCaller 4) connected
    = call (CbCaller 4) None (success "Already connected") connected /\
  (connection (connect websocket_client (CbCaller 4) initial) = Some 0 /\
   conns (connect websocket_client (CbCaller 4) initial)
     = <[0 := Conn WS Connecting (CbCaller 4)]> ∅) /\
  scheduleReconnect broken = broken /\
  (2 = 2 /\ reconnectTimer broken = Some 2).
Proof.
  intros connected broken.
  destruct (connect_and_reconnect_guards websocket_client numbered throws_unless_open)
    as (Hconnected & Hopens & Hheld & Hone).
  split; [|split; [|split]].
  - apply Hconnected. vm_compute. reflexivity.
  - apply (Hopens initial (CbCaller 4) WS); [reflexivity|].
    right. split; reflexivity.
  - apply Hheld. eexists. vm_compute. reflexivity.
  - apply (Hone [EConnect (CbCaller 0); EOpen 0; EError 0 false] 2 2);
      vm_compute; reflexivity.
Defined.

(** C10 (as stated) fails: a second [connect] while the first socket is
    still connecting opens a second socket; both are alive at once, and
    both can be open at once. *)
Lemma second_connect_opens_second_socket :
  let s := run websocket_client numbered throws_unless_open initial
             [EConnect (CbCaller 0); EConnect (CbCaller 1)] in
  let s' := run websocket_client numbered throws_unless_open s [EOpen 0; EOpen 1] in
  conns s !! 0 = Some (Conn WS Connecting (CbCaller 0)) /\
  conns s !! 1 = Some (Conn WS Connecting (CbCaller 1)) /\
  size (conns s) = 2 /\
  conns s' !! 0 = Some (Conn WS Open (CbCaller 0)) /\
  conns s' !! 1 = Some (Conn WS Open (CbCaller 1)).
Proof. intros s s'. repeat split; vm_compute; reflexivity. Qed.

End ClientScenarios.

(* ===================================================================== *)
(** * Further properties *)
(* ===================================================================== *)

(** ** The flow server: the registry through its routes *)

Section RegistryFacts.

Lemma assoc_remove_field_ne {A} k k' (fs : list (string * A)) :
  k <> k' -> assoc k' (remove_field k fs) = assoc k' fs.
Proof.
  intros Hne. induction fs as [|[k0 v0] fs IH]; simpl; [done|].
  destruct (String.eqb_spec k k0) as [->|]; simpl.
  - destruct (String.eqb_spec k' k0); congruence.
  - destruct (String.eqb_spec k' k0); auto.
Qed.




Lemma assoc_of_key {A} k (fs : list (string * A)) : k ∈ map fst fs -> is_Some (assoc k fs).
Proof.
  induction fs as [|[k' v'] fs IH]; simpl; intros Hin.
  - by apply elem_of_nil in Hin.
  - destruct (String.eqb_spec k k') as [->|Hne]; [by eexists|].
    apply IH. apply elem_of_cons in Hin as [?|?]; [congruence|done].
Qed.






Lemma remove_field_absent {A} k (fs : list (string * A)) :
  k ∉ map fst fs -> remove_field k fs = fs.
Proof.
  induction fs as [|[k' v'] fs IH]; simpl; intros Hk; [done|].
  destruct (String.eqb_spec k k') as [->|Hne].
  - exfalso. apply Hk. left.
  - f_equal. apply IH. intros Hin. apply Hk. by right.
Qed.

Lemma remove_field_gone {A} k (fs : list (string * A)) : k ∉ map fst (remove_field k fs).
Proof.
  intros Hin. apply assoc_of_key in Hin as [v Hv].
  by rewrite assoc_remove_field_eq in Hv.
Qed.

(** X3.  Unregistering a name the registry does not have changes nothing,
    so unregistering twice is unregistering once; the other tools keep
    their definitions. *)
Theorem unregister_absent_changes_nothing toolName reg :
  (toolName ∉ cache_keys reg -> on_registry_event (Unregister toolName) reg = reg) /\
  on_registry_event (Unregister toolName) (on_registry_event (Unregister toolName) reg)
    = on_registry_event (Unregister toolName) reg /\
  (forall other, other <> toolName ->
     assoc other (on_registry_event (Unregister toolName) reg) = assoc other reg).
Proof.
  simpl. unfold cache_del, cache_keys. split; [apply remove_field_absent|]. split.
  - apply remove_field_absent, remove_field_gone.
  - intros other Hne. by apply assoc_remove_field_ne.
Qed.

Lemma unregister_absent_changes_nothing_witness :
  on_registry_event (Unregister "sub") (registry_after [Register echo_tool])
    = registry_after [Register echo_tool] /\
  assoc "echo" (on_registry_event (Unregister "sub") (registry_after [Register echo_tool]))
    = assoc "echo" (registry_after [Register echo_tool]).
Proof.
  split.
  - apply (proj1 (unregister_absent_changes_nothing "sub"
                    (registry_after [Register echo_tool]))).
    decided.
  - apply (proj2 (proj2 (unregister_absent_changes_nothing "sub"
                           (registry_after [Register echo_tool])))).
    discriminate.
Defined.

End RegistryFacts.

(** ** The flow server: the [/mcp] route on any body *)

Section RouteFacts.

(** X4.  [POST /mcp] answers every body that is not [null] or [undefined]:
    whatever the handlers throw is caught and answered with the internal
    error.  On a body that is [null] or [undefined] the [catch] itself
    throws, when it reads [req.body.id], and the route gives no answer. *)
Theorem mcp_post_answers serverName request reg :
  (request <> VNull -> request <> VUndefined ->
   exists r, mcp_post serverName request reg = Ok r) /\
  (request = VNull \/ request = VUndefined ->
   mcp_post serverName request reg = Thrown).
Proof.
  split.
  - intros Hn Hu. unfold mcp_post.
    destruct (dispatch serverName request reg) as [r|]; [by eexists|].
    destruct (get_not_nullish request "id" Hn Hu) as [id Hid].
    rewrite Hid. simpl. by eexists.
  - by intros [-> | ->].
Qed.

Lemma mcp_post_answers_witness :
  (exists r, mcp_post "srv" (VArr []) [] = Ok r) /\
  mcp_post "srv" VNull [] = Thrown.
Proof.
  split.
  - apply (proj1 (mcp_post_answers "srv" (VArr []) [])); discriminate.
  - apply (proj2 (mcp_post_answers "srv" VNull [])). by left.
Defined.

(** X5.  A [tools/call] without [params], or whose [params.name] is neither
    a string nor a number, is not answered with "Tool not found": reading
    [params.name] of nothing, or the cache refusing the key, throws, and
    the reply is the internal error with status 500. *)
Theorem tools_call_malformed serverName request reg id :
  get request "method" = Ok (VStr "tools/call") ->
  get request "id" = Ok id ->
  (forall params,
      get request "params" = Ok params ->
      params = VUndefined \/ params = VNull ->
      mcp_post serverName request reg = Ok (InternalError id)) /\
  (forall params toolName,
      get request "params" = Ok params ->
      get params "name" = Ok toolName ->
      is_key toolName = false ->
      mcp_post serverName request reg = Ok (InternalError id)).
Proof.
  intros Hm Hid. split.
  - intros params Hparams Hnone.
    unfold mcp_post, dispatch. rewrite Hm. simpl.
    unfold handleToolCall. rewrite Hparams. simpl.
    destruct Hnone as [-> | ->]; simpl; by rewrite Hid.
  - intros params toolName Hparams Hname Hkey.
    destruct (get_Ok_not_nullish _ _ _ Hname) as [Hp1 Hp2].
    destruct (get_not_nullish params "arguments" Hp1 Hp2) as [args Hargs].
    unfold mcp_post, dispatch. rewrite Hm. simpl.
    unfold handleToolCall. rewrite Hparams. simpl. rewrite Hname. simpl.
    rewrite Hargs. simpl.
    destruct toolName; try discriminate Hkey; simpl; by rewrite Hid.
Qed.

Lemma tools_call_malformed_witness :
  mcp_post "srv" (VObj [("id", VNum 4); ("method", VStr "tools/call")])
           (registry_after [Register echo_tool])
    = Ok (InternalError (VNum 4)) /\
  mcp_post "srv" (VObj [("id", VNum 5); ("method", VStr "tools/call");
                        ("params", VObj [("arguments", VObj [])])])
           (registry_after [Register echo_tool])
    = Ok (InternalError (VNum 5)).
Proof.
  split.
  - apply (proj1 (tools_call_malformed "srv"
                    (VObj [("id", VNum 4); ("method", VStr "tools/call")])
                    (registry_after [Register echo_tool]) (VNum 4) eq_refl eq_refl)
             VUndefined); [reflexivity | by left].
  - apply (proj2 (tools_call_malformed "srv"
                    (VObj [("id", VNum 5); ("method", VStr "tools/call");
                           ("params", VObj [("arguments", VObj [])])])
                    (registry_after [Register echo_tool]) (VNum 5) eq_refl eq_refl)
             (VObj [("arguments", VObj [])]) VUndefined); reflexivity.
Defined.

Lemma ends_with_tool_method m :
  ends_with m "_tool" = true ->
  m <> "" /\ m <> "tools/list" /\ m <> "tools/call" /\ m <> "initialize".
Proof. intros H. repeat split; intros ->; discriminate H. Qed.

(** X6.  A request whose method ends in [_tool] is the call of the tool of
    that name: the route answers it as it answers the [tools/call] that
    names the method as the tool and carries [params || {}] as the
    arguments, found or not. *)
Theorem direct_call_is_tools_call serverName reg id method params :
  ends_with method "_tool" = true ->
  mcp_post serverName (direct_request id method params) reg =
  mcp_post serverName (call_request id method (or_else params (VObj []))) reg.
Proof.
  intros Hends.
  destruct (ends_with_tool_method method Hends) as (Hne & Hlist & Hcall & Hinit).
  unfold mcp_post, dispatch, direct_request, call_request. simpl.
  destruct (String.eqb_spec method "tools/list"); [done|].
  destruct (String.eqb_spec method "tools/call"); [done|].
  destruct (String.eqb_spec method "initialize"); [done|].
  unfold dispatch_default. simpl.
  destruct (String.eqb_spec method ""); [done|]. simpl. rewrite Hends. simpl.
  unfold handleDirectToolCall, handleToolCall. simpl.
  by destruct (assoc method reg).
Qed.

Lemma direct_call_is_tools_call_witness :
  mcp_post "srv" (direct_request (VNum 1) "add_tool" VUndefined) [] =
  mcp_post "srv" (call_request (VNum 1) "add_tool" (VObj [])) [].
Proof. apply (direct_call_is_tools_call "srv" [] (VNum 1) "add_tool" VUndefined). reflexivity. Defined.

Lemma length_listed_tools reg : length (listed_tools reg) = length reg.
Proof.
  unfold listed_tools, cache_keys.
  assert (H : forall keys : list (string * tool),
            (forall kt, kt ∈ keys -> kt.1 ∈ map fst reg) ->
            length (omap (fun key => tool_json <$> assoc key reg) (map fst keys))
              = length keys).
  { induction keys as [|[k t] keys IH]; simpl; intros Hin; [done|].
    destruct (assoc_of_key k reg) as [t' Ht'].
    - apply (Hin (k, t)). left.
    - rewrite Ht'. simpl. f_equal. apply IH. intros kt Hkt. apply Hin. by right. }
  apply H. intros kt Hkt. apply list_elem_of_fmap. by exists kt.
Qed.

(** X7.  The number [GET /health] reports under [tools] is the number of
    tools the reply to [tools/list] lists, whatever the registry holds. *)
Theorem health_agrees_with_tools_list serverName uptime request id reg :
  get request "id" = Ok id ->
  exists body,
    health serverName uptime reg = Respond 200 body /\
    handleToolsList request reg =
      Ok (Respond 200 (rpc_result id (VObj [("tools", VArr (listed_tools reg))]))) /\
    get body "tools" = Ok (VNum (Z.of_nat (length (listed_tools reg)))).
Proof.
  intros Hid. eexists. split; [reflexivity|]. split.
  - unfold handleToolsList. by rewrite Hid.
  - rewrite length_listed_tools, length_indexed, length_map. unfold cache_keys.
    rewrite length_map. by destruct uptime.
Qed.

Lemma health_agrees_with_tools_list_witness :
  exists body,
    health "srv" (VNum 5) (registry_after [Register echo_tool]) = Respond 200 body /\
    handleToolsList tools_list_request (registry_after [Register echo_tool]) =
      Ok (Respond 200
            (rpc_result (VNum 1)
               (VObj [("tools", VArr (listed_tools (registry_after [Register echo_tool])))]))) /\
    get body "tools"
      = Ok (VNum (Z.of_nat (length (listed_tools (registry_after [Register echo_tool]))))).
Proof.
  apply (health_agrees_with_tools_list "srv" (VNum 5) tools_list_request (VNum 1)).
  reflexivity.
Defined.

End RouteFacts.

(** ** The flow server: the listener of an execution *)

Section ListenerFacts.

Lemma uncorrelated_input uuid x msg :
  executionId x = uuid -> correlated uuid msg = false -> on_input msg x = x.
Proof.
  intros Hid He. unfold on_input. destruct (listening x); [|done].
  unfold responseHandler, correlated in *.
  destruct (get msg "topic") as [topic|]; simpl in *; [|done].
  destruct (is_string topic "mcp-tool-response"); simpl in *; [|done].
  destruct (get msg "payload") as [payload|]; simpl in *; [|done].
  destruct (get payload "executionId") as [eid|]; simpl in *; [|done].
  by rewrite Hid, He.
Qed.

Lemma unanswered_run uuid evs : forall x,
  unanswered uuid evs ->
  executionId x = uuid -> listening x = true ->
  (promise x = Pending /\ timer_armed x = true \/
   promise x = Rejected "Tool execution timeout" /\ timer_armed x = false) ->
  listening (execution_run x evs) = true /\
  (promise x = Rejected "Tool execution timeout" \/ TimeoutFires ∈ evs ->
   promise (execution_run x evs) = Rejected "Tool execution timeout").
Proof.
  unfold execution_run.
  induction evs as [|e evs IH]; simpl; intros x Hall Hid Hl Hp.
  - split; [done|]. intros [H|H]; [done|]. by apply elem_of_nil in H.
  - apply Forall_cons in Hall as [He Hall]. destruct e as [|msg]; simpl.
    + unfold on_timeout. destruct Hp as [[Hp Ht]|[Hp Ht]]; rewrite Ht.
      * destruct (IH (Execution (executionId x) false (listening x)
                        (settle (Rejected "Tool execution timeout") (promise x))))
          as [IH1 IH2]; simpl; auto.
        { right. by rewrite Hp. }
        split; [done|]. intros _. apply IH2. left. by rewrite Hp.
      * destruct (IH x) as [IH1 IH2]; auto.
    + rewrite (uncorrelated_input uuid) by done.
      destruct (IH x) as [IH1 IH2]; auto. split; [done|].
      intros [H|H]; apply IH2; [by left|].
      apply elem_of_cons in H as [?|?]; [done | by right].
Qed.

(** X8.  The ['input'] listener of an execution is removed by the response
    that carries its [executionId] and by nothing else: while no such
    response arrives it stays installed, also after the timeout has fired
    and the promise is rejected. *)
Theorem listener_outlives_timeout t args uuid evs :
  unanswered uuid evs ->
  listening (execution_run (executeToolFlow t args uuid).1 evs) = true /\
  (TimeoutFires ∈ evs ->
   promise (execution_run (executeToolFlow t args uuid).1 evs)
     = Rejected "Tool execution timeout").
Proof.
  intros Hevs. simpl.
  destruct (unanswered_run uuid evs (Execution uuid true true Pending)) as [H1 H2];
    auto.
Qed.

Lemma listener_outlives_timeout_witness :
  let evs := [Input (response_to "e-2" VUndefined (VStr "other")); TimeoutFires;
              Input (VObj [])] in
  listening (execution_run (executeToolFlow echo_tool (VObj []) "e-1").1 evs) = true /\
  promise (execution_run (executeToolFlow echo_tool (VObj []) "e-1").1 evs)
    = Rejected "Tool execution timeout".
Proof.
  intros evs.
  assert (Hevs : unanswered "e-1" evs) by (repeat constructor).
  split.
  - apply (proj1 (listener_outlives_timeout echo_tool (VObj []) "e-1" evs Hevs)).
  - apply (proj2 (listener_outlives_timeout echo_tool (VObj []) "e-1" evs Hevs)).
    unfold evs. right. left.
Defined.

End ListenerFacts.

(** ** The client session: what the transport decides *)

Section ClientModes.

Import Client.

Variable c : config.
Variable uuid : nat -> string.
Variable send_throws : option ready_state -> bool.

Lemma sendRequest_frame method params cb s :
  connectionType c <> "websocket" ->
  frame s (sendRequest c uuid send_throws method params cb s).
Proof.
  intros Hws. unfold sendRequest. destruct (isConnected s); simpl; [|apply frame_fail].
  assert (Hcount : forall s', pendingRequests s' = pendingRequests s ->
            uuid_calls s' = S (uuid_calls s) -> timers s' = timers s -> frame s s').
  { intros s' Hp Hu Ht. repeat split; [done | lia | by rewrite Ht]. }
  destruct (String.eqb (connectionType c) "http"); [by apply Hcount|].
  destruct (String.eqb (connectionType c) "sse"); [by apply Hcount|].
  destruct (String.eqb_spec (connectionType c) "websocket"); [done | by apply Hcount].
Qed.

Lemma succeed_frame cb data s s' :
  connectionType c <> "websocket" ->
  succeed c uuid send_throws cb data s = Ok s' -> frame s s'.
Proof.
  intros Hws. destruct cb as [|k| |initResponse]; simpl.
  - intros [= <-]. apply frame_refl.
  - intros [= <-]. by apply frame_same.
  - destruct (get data "result") as [result|]; simpl; [|done]. intros [= <-].
    eapply frame_trans; [|by apply sendRequest_frame]. by apply frame_same.
  - destruct (tools_discovered c initResponse data) as [payload|]; simpl; [|done].
    intros [= <-]. by apply frame_same.
Qed.

Lemma on_http_ok_frame call_ data s :
  connectionType c <> "websocket" ->
  frame s (on_http_ok c uuid send_throws call_ data s).
Proof.
  intros Hws. unfold on_http_ok. destruct call_ as [cb|forward requestId cb].
  - eapply frame_trans; [|apply frame_call]. by apply frame_same.
  - destruct (succeed c uuid send_throws cb data s) as [s'|] eqn:Hs.
    + apply succeed_frame in Hs; [|done].
      destruct forward; [|done]. eapply frame_trans; [exact Hs | by apply frame_same].
    + destruct forward; [|apply frame_fail].
      eapply frame_trans; [apply frame_fail | by apply frame_same].
Qed.

Lemma frame_keeps_empty s s' :
  frame s s' ->
  pendingRequests s = ∅ /\ no_request_timeout s ->
  pendingRequests s' = ∅ /\ no_request_timeout s'.
Proof.
  intros (Hp & _ & Ht) [Hempty Hnone]. split; [congruence|].
  intros t id cb H. by apply Ht, Hnone in H.
Qed.

Lemma step_frame_without_socket s e :
  connectionType c <> "websocket" ->
  pendingRequests s = ∅ /\ no_request_timeout s ->
  frame s (step c uuid send_throws s e).
Proof.
  intros Hws [Hempty Hnone].
  destruct e as [cb|cb|method params cb|k data|k message|h|h raw parsed|h fatal|h code|t];
    simpl.
  - apply frame_connect.
  - destruct (isConnected s) eqn:Hconn.
    + destruct (disconnect_connected c cb s Hconn)
        as ((_ & _ & _ & Hp & Hu) & Hsub & _).
      repeat split; [congruence | lia | auto].
    + rewrite disconnect_not_connected by done. apply frame_call.
  - by apply sendRequest_frame.
  - destruct (calls s !! k) as [call_|]; [|apply frame_refl].
    eapply frame_trans; [|by apply on_http_ok_frame]. by apply frame_same.
  - destruct (calls s !! k) as [call_|]; [|apply frame_refl].
    eapply frame_trans; [|apply frame_on_http_fail]. by apply frame_same.
  - destruct (conns s !! h) as [[k [] cb]|]; try apply frame_refl.
    apply frame_on_open.
  - destruct (conns s !! h) as [[k [] cb]|]; try apply frame_refl.
    destruct (on_message_effect h k raw parsed s)
      as [Hf|(id & h' & raw' & message & request & _ & _ & Hreq & _)]; [done|].
    by rewrite Hempty, lookup_empty in Hreq.
  - destruct (conns s !! h) as [[k r cb]|]; [|apply frame_refl].
    apply frame_on_error.
  - destruct (conns s !! h) as [[[] r cb]|]; try apply frame_refl.
    apply frame_on_close.
  - destruct (timers s !! t) as [body|] eqn:Ht; [|apply frame_refl].
    destruct body as [| |requestId cb']; [| |by apply Hnone in Ht]; simpl.
    + eapply frame_trans; [apply (frame_clearTimer uuid)|].
      destruct (isConnected s); simpl; [by apply frame_same|].
      eapply frame_trans; [|apply frame_connect]. by apply frame_same.
    + eapply frame_trans; [apply (frame_clearTimer uuid)|].
      unfold fetchMCPHandshake. simpl. destruct (isConnected s); simpl.
      * by apply sendRequest_frame.
      * apply frame_refl.
Qed.

Lemma run_without_socket evs : forall s,
  connectionType c <> "websocket" ->
  pendingRequests s = ∅ /\ no_request_timeout s ->
  pendingRequests (run c uuid send_throws s evs) = ∅ /\
  no_request_timeout (run c uuid send_throws s evs).
Proof.
  induction evs as [|e evs IH]; simpl; intros s Hws Hs; [done|].
  apply IH; [done|]. eapply frame_keeps_empty; [|exact Hs].
  by apply step_frame_without_socket.
Qed.

(** X9.  Only a WebSocket session registers pending requests.  With any
    other connection type the table of pending requests is empty and no
    request timeout is armed in every state the node reaches, so a message
    that arrives on the event stream is never matched to a request: it is
    sent on under the topic "message" (or "raw"), whatever its [id]. *)
Theorem no_pending_request_without_socket evs :
  connectionType c <> "websocket" ->
  let s := run c uuid send_throws initial evs in
  pendingRequests s = ∅ /\
  no_request_timeout s /\
  (forall k raw message id,
      get message "id" = Ok id ->
      on_message k raw (Some message) s = emit (Sent "message" message None) s).
Proof.
  intros Hws s.
  destruct (run_without_socket evs initial Hws) as [Hempty Hnone].
  { split; [done|]. intros t id cb. simpl. by rewrite lookup_empty. }
  split; [done|]. split; [done|].
  intros k raw message id Hid. unfold on_message, on_parsed. rewrite Hid. simpl.
  destruct id as [| | | |requestId| |]; try done.
  unfold s. rewrite Hempty, lookup_empty. by destruct (truthy (VStr requestId)).
Qed.

End ClientModes.

Section ClientModesScenarios.

Import Client.

Lemma no_pending_request_without_socket_witness :
  let s := run sse_client numbered throws_unless_open initial
             [EConnect CbNone; EOpen 0; ERequest "tools/list" (VObj []) (RcCaller 1)] in
  pendingRequests s = ∅ /\
  on_message SSE "{}" (Some (VObj [("id", VStr (numbered 0))])) s
    = emit (Sent "message" (VObj [("id", VStr (numbered 0))]) None) s.
Proof.
  intros s.
  destruct (no_pending_request_without_socket sse_client numbered throws_unless_open
              [EConnect CbNone; EOpen 0; ERequest "tools/list" (VObj []) (RcCaller 1)])
    as (H1 & _ & H3).
  - discriminate.
  - split; [exact H1|]. apply (H3 SSE "{}" _ (VStr (numbered 0))). reflexivity.
Defined.

End ClientModesScenarios.

(** ** The client session: the handshake over a socket *)

Section SocketHandshake.

Import Client.

Variable c : config.
Variable uuid : nat -> string.
Variable send_throws : option ready_state -> bool.

Hypothesis Hws : connectionType c = "websocket".

Lemma quiet_refl s : quiet s s.
Proof. by split. Qed.

Lemma quiet_trans s1 s2 s3 : quiet s1 s2 -> quiet s2 s3 -> quiet s1 s3.
Proof. intros [H1 H2] [H3 H4]. split; congruence. Qed.

Lemma quiet_same s s' : calls s' = calls s -> log s' = log s -> quiet s s'.
Proof. intros H1 H2. split; [done | by rewrite H2]. Qed.

Lemma quiet_emit o s : is_handshake o = false -> quiet s (emit o s).
Proof.
  intros Ho. split; [done|]. unfold handshakes. simpl.
  rewrite List.filter_app. simpl. rewrite Ho. apply app_nil_r.
Qed.

Lemma quiet_call cb error result s : quiet s (call cb error result s).
Proof. destruct cb; [apply quiet_refl | by apply quiet_emit]. Qed.

Lemma quiet_fail cb message s : quiet s (fail cb message s).
Proof. destruct cb; try apply quiet_refl; by apply quiet_emit. Qed.

Lemma quiet_scheduleReconnect s : quiet s (scheduleReconnect s).
Proof. unfold scheduleReconnect. destruct (reconnectTimer s); by apply quiet_same. Qed.

Ltac quiet_steps :=
  repeat first
    [ apply quiet_refl
    | (eapply quiet_trans; [|apply quiet_call])
    | (eapply quiet_trans; [|apply quiet_fail])
    | (eapply quiet_trans; [|apply quiet_scheduleReconnect])
    | (eapply quiet_trans; [|by apply quiet_emit])
    | by apply quiet_same ].

Lemma quiet_connect cb s : quiet s (connect c cb s).
Proof using Hws.
  unfold connect. rewrite Hws. simpl. destruct (isConnected s); quiet_steps.
Qed.

Lemma clear_timeouts_quiet s : quiet s (clear_timeouts s).
Proof.
  destruct (clear_timeouts_spec s) as [Heq _]. simpl in Heq. rewrite Heq.
  by apply quiet_same.
Qed.

Lemma quiet_close_connection h s : quiet s (close_connection h s).
Proof.
  unfold close_connection.
  destruct (conns (emit (Closed h) s) !! h) as [[[] ? ?]|];
    (eapply quiet_trans; [by apply (quiet_emit (Closed h))|]); by apply quiet_same.
Qed.

Lemma quiet_disconnect cb s : quiet s (disconnect c cb s).
Proof using Hws.
  unfold disconnect. rewrite Hws. simpl. destruct (isConnected s); simpl; quiet_steps.
  eapply quiet_trans; [|apply (quiet_same _ (set_pendingRequests ∅ _)); reflexivity].
  eapply quiet_trans; [|apply clear_timeouts_quiet].
  quiet_steps.
  eapply quiet_trans; [apply (quiet_emit (Status "disconnecting...")); done|].
  destruct (reconnectTimer s); simpl.
  - destruct (connection s); simpl; [|by apply quiet_same].
    eapply quiet_trans; [|apply (quiet_same _ (set_connection None _)); reflexivity].
    eapply quiet_trans; [|apply quiet_close_connection]. by apply quiet_same.
  - destruct (connection s); simpl; [|by apply quiet_same].
    eapply quiet_trans; [|apply (quiet_same _ (set_connection None _)); reflexivity].
    apply quiet_close_connection.
Qed.

Lemma quiet_sendRequest method params cb s :
  quiet s (sendRequest c uuid send_throws method params cb s).
Proof using Hws.
  unfold sendRequest. rewrite Hws. simpl.
  destruct (isConnected s); simpl; [|apply quiet_fail].
  match goal with |- context [if ?b then _ else _] => destruct b end.
  - quiet_steps.
  - destruct (connection s) as [h|]; simpl; [|by apply quiet_same].
    destruct (ready <$> conns s !! h) as [[]|]; simpl; try by apply quiet_same.
    eapply quiet_trans; [by eapply (quiet_emit (Transmitted h _))|].
    by apply quiet_same.
Qed.

Lemma quiet_on_message k raw parsed s : quiet s (on_message k raw parsed s).
Proof.
  unfold on_message. destruct parsed as [message|]; [|quiet_steps].
  destruct (on_parsed message s) as [s'|] eqn:Hp; [|quiet_steps].
  unfold on_parsed in Hp. destruct (get message "id") as [id|]; simpl in Hp; [|done].
  assert (Hplain : Ok (emit (Sent "message" message None) s) = Ok s' -> quiet s s').
  { intros [= <-]. by apply quiet_emit. }
  destruct id as [| | | |requestId| |]; auto.
  destruct (truthy (VStr requestId)); auto.
  destruct (pendingRequests s !! requestId) as [request|]; auto.
  injection Hp as <-. quiet_steps.
Qed.

Lemma quiet_step s e :
  calls s = ∅ -> quiet s (step c uuid send_throws s e).
Proof using Hws.
  intros Hcalls.
  destruct e as [cb|cb|method params cb|k data|k message|h|h raw parsed|h fatal|h code|t];
    simpl.
  - apply quiet_connect.
  - apply quiet_disconnect.
  - apply quiet_sendRequest.
  - by rewrite Hcalls, lookup_empty.
  - by rewrite Hcalls, lookup_empty.
  - destruct (conns s !! h) as [[k [] cb]|]; try apply quiet_refl.
    unfold on_open. simpl. quiet_steps.
  - destruct (conns s !! h) as [[k [] cb]|]; try apply quiet_refl.
    apply quiet_on_message.
  - destruct (conns s !! h) as [[k r cb]|]; [|apply quiet_refl].
    unfold on_error. destruct (reconnect c); quiet_steps;
      destruct k; [destruct fatal| |destruct fatal|]; by apply quiet_same.
  - destruct (conns s !! h) as [[[] r cb]|]; try apply quiet_refl.
    unfold on_close. destruct (reconnect c && negb (code =? 1000)%Z); quiet_steps.
  - destruct (timers s !! t) as [body|]; [|apply quiet_refl].
    destruct body as [| |requestId cb']; simpl.
    + destruct (isConnected s); simpl; [by apply quiet_same|].
      eapply quiet_trans; [|apply quiet_connect]. by apply quiet_same.
    + unfold fetchMCPHandshake. simpl. destruct (isConnected s); simpl.
      * eapply quiet_trans; [|apply quiet_sendRequest]. by apply quiet_same.
      * by apply quiet_same.
    + quiet_steps.
Qed.

Lemma quiet_run evs : forall s,
  calls s = ∅ -> quiet s (run c uuid send_throws s evs).
Proof using Hws.
  induction evs as [|e evs IH]; simpl; intros s Hcalls; [apply quiet_refl|].
  destruct (quiet_step s e Hcalls) as [H1 H2].
  eapply quiet_trans; [by split|]. apply IH. by rewrite H1.
Qed.

(** X10.  Over a WebSocket the handshake is never completed.  The node
    starts no HTTP request, and the continuations of the handshake only run
    on the reply of one; the reply to [initialize] that arrives on the
    socket is sent on as a "response" and the stored callback is not
    invoked.  So in no state the node reaches has a "handshake" message
    been sent. *)
Theorem no_handshake_over_socket evs :
  let s := run c uuid send_throws initial evs in
  calls s = ∅ /\ handshakes (log s) = [].
Proof using Hws. exact (quiet_run evs initial eq_refl). Qed.

End SocketHandshake.

Section SocketHandshakeScenarios.

Import Client.

Lemma no_handshake_over_socket_witness :
  let s := run websocket_client numbered throws_unless_open initial
             [EConnect CbNone; EOpen 0; ETimer 1;
              EMessage 0 "{}" (Some (VObj [("id", VStr (numbered 0));
                                           ("result", VObj [])]))] in
  calls s = ∅ /\ handshakes (log s) = [].
Proof.
  apply (no_handshake_over_socket websocket_client numbered throws_unless_open).
  reflexivity.
Defined.

End SocketHandshakeScenarios.

(** ** The client session: the reconnect timer it holds *)

Section HeldTimer.

Import Client.

Variable c : config.
Variable uuid : nat -> string.
Variable send_throws : option ready_state -> bool.

Lemma held_same s s' :
  reconnectTimer s' = reconnectTimer s -> timers s' = timers s ->
  held_armed s -> held_armed s'.
Proof. intros Hr Ht H t. rewrite Hr, Ht. apply H. Qed.

Lemma held_none s : reconnectTimer s = None -> held_armed s.
Proof. intros H t. by rewrite H. Qed.

Lemma held_emit o s : held_armed s -> held_armed (emit o s).
Proof. by apply held_same. Qed.

Lemma held_call cb error result s : held_armed s -> held_armed (call cb error result s).
Proof. destruct cb; by apply held_same. Qed.

Lemma held_fail cb message s : held_armed s -> held_armed (fail cb message s).
Proof. destruct cb; by apply held_same. Qed.

Lemma held_setTimer body s :
  (forall t b, timers s !! t = Some b -> t < fresh s) ->
  held_armed s -> held_armed (setTimer body s).2.
Proof.
  intros Hb H t Ht. simpl in *. specialize (H t Ht).
  rewrite lookup_insert_ne; [done|]. apply Hb in H. lia.
Qed.

Lemma held_clearTimer t' s :
  timers s !! t' <> Some TReconnect -> held_armed s -> held_armed (clearTimer t' s).
Proof.
  intros Hne H t Ht. simpl in *. specialize (H t Ht).
  rewrite lookup_delete_ne; [done|]. congruence.
Qed.

Lemma held_scheduleReconnect s :
  held_armed s ->
  held_armed (scheduleReconnect s) /\ is_Some (reconnectTimer (scheduleReconnect s)).
Proof.
  intros H. unfold scheduleReconnect. destruct (reconnectTimer s) as [t|] eqn:Hr.
  - split; [done|]. by rewrite Hr.
  - simpl. split; [|by eexists]. intros t [= <-]. simpl. apply lookup_insert_eq.
Qed.

Lemma fields_connect cb s :
  reconnectTimer (connect c cb s) = reconnectTimer s /\
  timers (connect c cb s) = timers s.
Proof.
  unfold connect. destruct (isConnected s); [by destruct cb|]. simpl.
  repeat (match goal with |- context [if ?b then _ else _] => destruct b end);
    try done.
  by destruct cb.
Qed.

Lemma held_sendRequest method params cb s :
  (forall t b, timers s !! t = Some b -> t < fresh s) ->
  held_armed s -> held_armed (sendRequest c uuid send_throws method params cb s).
Proof.
  intros Hb H. unfold sendRequest. destruct (isConnected s); simpl; [|by apply held_fail].
  destruct (String.eqb (connectionType c) "http"); [by eapply held_same|].
  destruct (String.eqb (connectionType c) "sse"); [by eapply held_same|].
  destruct (String.eqb (connectionType c) "websocket"); [|by eapply held_same].
  match goal with |- context [if ?b then _ else _] => destruct b end.
  { apply held_emit, held_fail. by eapply held_same. }
  destruct (connection s) as [h|]; [destruct (ready <$> conns s !! h) as [[]|]|];
    (intros t Ht; simpl in *; specialize (H t Ht);
     rewrite lookup_insert_ne; [done|]; apply Hb in H; lia).
Qed.

Lemma held_succeed cb data s s' :
  (forall t b, timers s !! t = Some b -> t < fresh s) ->
  held_armed s -> succeed c uuid send_throws cb data s = Ok s' -> held_armed s'.
Proof.
  intros Hb H. destruct cb as [|k| |initResponse]; simpl.
  - by intros [= <-].
  - intros [= <-]. by eapply held_same.
  - destruct (get data "result") as [result|]; simpl; [|done]. intros [= <-].
    apply held_sendRequest; [done|]. by eapply held_same.
  - destruct (tools_discovered c initResponse data) as [payload|]; simpl; [|done].
    intros [= <-]. by eapply held_same.
Qed.

Lemma held_on_message k raw parsed s :
  armed_ok s -> held_armed s -> held_armed (on_message k raw parsed s).
Proof.
  intros (Harm & _ & _) H. unfold on_message.
  destruct parsed as [message|]; [|by eapply held_same].
  destruct (on_parsed message s) as [s'|] eqn:Hp; [|by eapply held_same].
  unfold on_parsed in Hp. destruct (get message "id") as [id|]; simpl in Hp; [|done].
  assert (Hplain : Ok (emit (Sent "message" message None) s) = Ok s' -> held_armed s').
  { intros [= <-]. by eapply held_same. }
  destruct id as [| | | |requestId| |]; auto.
  destruct (truthy (VStr requestId)); auto.
  destruct (pendingRequests s !! requestId) as [request|] eqn:Hreq; auto.
  injection Hp as <-.
  eapply held_same; [| |apply (held_clearTimer (pending_timeout request)), H]; try done.
  by rewrite (Harm _ _ Hreq).
Qed.

Lemma held_step s e :
  armed_ok s -> held_armed s -> held_armed (step c uuid send_throws s e).
Proof.
  intros Harm H. pose proof Harm as (_ & Hb & _).
  destruct e as [cb|cb|method params cb|k data|k message|h|h raw parsed|h fatal|h code|t];
    simpl.
  - destruct (fields_connect cb s). by eapply held_same.
  - destruct (isConnected s) eqn:Hconn.
    + destruct (disconnect_connected c cb s Hconn) as ((_ & _ & Hr & _) & _).
      by apply held_none.
    + rewrite disconnect_not_connected by done. by apply held_call.
  - by apply held_sendRequest.
  - destruct (calls s !! k) as [call_|]; [|done].
    unfold on_http_ok. destruct call_ as [cb|forward requestId cb].
    + apply held_call. by eapply held_same.
    + destruct (succeed _ _ _ cb data _) as [s'|] eqn:Hs.
      * apply held_succeed in Hs; [|done|by eapply held_same].
        destruct forward; [|done]. by eapply held_same.
      * destruct forward; [apply held_emit|]; apply held_fail; by eapply held_same.
  - destruct (calls s !! k) as [call_|]; [|done].
    unfold on_http_fail. destruct call_ as [cb|forward requestId cb].
    + destruct (reconnect c); [apply held_scheduleReconnect|];
        apply held_call; by eapply held_same.
    + destruct forward; [apply held_emit|]; apply held_fail; by eapply held_same.
  - destruct (conns s !! h) as [[k [] cb]|]; try done.
    unfold on_open. apply held_setTimer.
    + by destruct cb.
    + apply held_call. by eapply held_same.
  - destruct (conns s !! h) as [[k [] cb]|]; try done.
    by apply held_on_message.
  - destruct (conns s !! h) as [[k r cb]|]; [|done].
    unfold on_error. destruct (reconnect c); [apply held_scheduleReconnect|];
      destruct k; [destruct fatal| |destruct fatal|]; by eapply held_same.
  - destruct (conns s !! h) as [[[] r cb]|]; try done.
    unfold on_close. destruct (reconnect c && negb (code =? 1000)%Z);
      [apply held_scheduleReconnect|]; by eapply held_same.
  - destruct (timers s !! t) as [body|] eqn:Ht; [|done].
    destruct body as [| |requestId cb']; simpl.
    + destruct (isConnected s); simpl; [by apply held_none|].
      destruct (fields_connect CbNone
                  (set_reconnectTimer None (clearTimer t s))) as [Hr' Ht'].
      apply held_none. by rewrite Hr'.
    + unfold fetchMCPHandshake. simpl.
      assert (Hc : held_armed (clearTimer t s)).
      { apply held_clearTimer; [by rewrite Ht | done]. }
      destruct (isConnected s); simpl; [|done].
      apply held_sendRequest; [|done].
      intros t' b. simpl. rewrite lookup_delete_Some. intros [_ Hl]. eauto.
    + assert (Hc : held_armed (clearTimer t s)).
      { apply held_clearTimer; [by rewrite Ht | done]. }
      apply held_emit, held_fail. by eapply held_same.
Qed.

Lemma held_run evs : forall s,
  armed_ok s -> held_armed s -> held_armed (run c uuid send_throws s evs).
Proof.
  induction evs as [|e evs IH]; simpl; intros s Harm H; [done|].
  apply IH; [by apply armed_ok_step | by apply held_step].
Qed.

(** X11.  The timer the node holds in [reconnectTimer] is, in every state
    it reaches, an armed reconnect timer.  And [node.reconnect] is true
    whatever the configuration says ([config.reconnect || true]): after an
    error of a connection, after a close of a socket with a code other than
    1000, and after a failed probe of the HTTP server, the node is
    disconnected and holds an armed reconnect timer, also when the flow
    configured no reconnection.  A close with code 1000 arms nothing. *)
Theorem reconnect_is_always_on evs :
  let s := run c uuid send_throws initial evs in
  held_armed s /\
  (forall h fatal,
      is_Some (conns s !! h) ->
      let s' := step c uuid send_throws s (EError h fatal) in
      isConnected s' = false /\
      exists t, reconnectTimer s' = Some t /\ timers s' !! t = Some TReconnect) /\
  (forall h st cb code,
      conns s !! h = Some (Conn WS st cb) ->
      let s' := step c uuid send_throws s (EClose h code) in
      isConnected s' = false /\
      if (code =? 1000)%Z
      then reconnectTimer s' = reconnectTimer s /\ timers s' = timers s
      else exists t, reconnectTimer s' = Some t /\ timers s' !! t = Some TReconnect) /\
  (forall k cb message,
      calls s !! k = Some (Probe cb) ->
      let s' := step c uuid send_throws s (EHttpFail k message) in
      isConnected s' = false /\
      exists t, reconnectTimer s' = Some t /\ timers s' !! t = Some TReconnect).
Proof.
  intros s.
  assert (Harm : armed_ok s) by apply armed_ok_run, armed_ok_initial.
  assert (H : held_armed s).
  { apply held_run; [apply armed_ok_initial|]. by apply held_none. }
  assert (Hafter : forall e,
            is_Some (reconnectTimer (step c uuid send_throws s e)) ->
            exists t, reconnectTimer (step c uuid send_throws s e) = Some t /\
                      timers (step c uuid send_throws s e) !! t = Some TReconnect).
  { intros e [t Ht]. exists t. split; [done|]. by apply (held_step s e Harm H). }
  clearbody s.
  assert (Hon : reconnect c = true) by (unfold reconnect; apply orb_true_r).
  split; [done|]. split; [|split].
  - intros h fatal [[k r cb] Hh] s'.
    assert (Hs' : s' = on_error c h k cb fatal s) by (unfold s'; simpl; by rewrite Hh).
    split.
    + rewrite Hs'. unfold on_error. rewrite Hon. unfold scheduleReconnect.
      destruct k, fatal; simpl; by destruct (reconnectTimer s).
    + apply Hafter. fold s'. rewrite Hs'. unfold on_error. rewrite Hon.
      apply held_scheduleReconnect.
      destruct k; [destruct fatal|]; by eapply held_same.
  - intros h st cb code Hh s'.
    assert (Hs' : s' = on_close c h code s) by (unfold s'; simpl; by rewrite Hh).
    split.
    + rewrite Hs'. unfold on_close. rewrite Hon. unfold scheduleReconnect.
      destruct (negb (code =? 1000)%Z); simpl; [|done]. by destruct (reconnectTimer s).
    + destruct (code =? 1000)%Z eqn:Hcode.
      * rewrite Hs'. unfold on_close. rewrite Hon, Hcode. done.
      * apply Hafter. fold s'. rewrite Hs'. unfold on_close. rewrite Hon, Hcode. simpl.
        apply held_scheduleReconnect. by eapply held_same.
  - intros k cb message Hk s'.
    assert (Hs' : s' = on_http_fail c (Probe cb) message (set_calls (delete k (calls s)) s))
      by (unfold s'; simpl; by rewrite Hk).
    split.
    + rewrite Hs'. unfold on_http_fail. rewrite Hon. unfold scheduleReconnect.
      destruct cb; simpl; by destruct (reconnectTimer s).
    + apply Hafter. fold s'. rewrite Hs'. unfold on_http_fail. rewrite Hon.
      apply held_scheduleReconnect. apply held_call. by eapply held_same.
Qed.

End HeldTimer.

Section HeldTimerScenarios.

Import Client.

Lemma reconnect_is_always_on_witness :
  let s := run sse_client numbered throws_unless_open initial [EConnect CbNone; EOpen 0] in
  let s' := step sse_client numbered throws_unless_open s (EError 0 true) in
  cfg_reconnect sse_client = false /\
  isConnected s' = false /\
  exists t, reconnectTimer s' = Some t /\ timers s' !! t = Some TReconnect.
Proof.
  intros s s'. split; [reflexivity|].
  destruct (reconnect_is_always_on sse_client numbered throws_unless_open
              [EConnect CbNone; EOpen 0]) as (_ & H & _ & _).
  apply (H 0 true). eexists. vm_compute. reflexivity.
Defined.

End HeldTimerScenarios.

(** ** The client session: messages, discovery, and a disconnect while offline *)

Section SessionFacts.

Import Client.

Variable c : config.
Variable uuid : nat -> string.
Variable send_throws : option ready_state -> bool.

(** X12.  No message that arrives on an open connection is dropped: one
    message is sent on for it.  A payload that does not parse, or parses to
    [null], is sent on as its text under "raw", after a warning; a payload
    whose [id] is the key of a pending request goes out under "response"
    with that id, and takes the request from the table; every other payload
    goes out under "message", and the table stays as it is. *)
Theorem inbound_message_is_forwarded k raw parsed s :
  let s' := on_message k raw parsed s in
  (parsed = None \/ parsed = Some VNull \/ parsed = Some VUndefined ->
   log s' = (log s ++ [Warn ("Failed to parse " ++ transport_label k ++ " message");
                       Sent "raw" (VStr raw) None])%list /\
   pendingRequests s' = pendingRequests s) /\
  (forall message id,
      parsed = Some message -> get message "id" = Ok id ->
      match id with
      | VStr requestId =>
          if bool_decide (is_Some (pendingRequests s !! requestId)) && truthy id
          then log s' = (log s ++ [Sent "response" message (Some requestId)])%list /\
               pendingRequests s' = delete requestId (pendingRequests s)
          else log s' = (log s ++ [Sent "message" message None])%list /\
               pendingRequests s' = pendingRequests s
      | _ => log s' = (log s ++ [Sent "message" message None])%list /\
             pendingRequests s' = pendingRequests s
      end).
Proof.
  split.
  - unfold on_message. intros [-> | [-> | ->]]; simpl; by rewrite <- app_assoc.
  - intros message id -> Hid. unfold on_message, on_parsed. rewrite Hid. simpl.
    destruct id as [| | | |requestId| |]; try done.
    destruct (truthy (VStr requestId)); [|by rewrite andb_false_r].
    rewrite andb_true_r.
    destruct (pendingRequests s !! requestId) as [request|] eqn:Hreq.
    + rewrite bool_decide_eq_true_2 by (by eexists). done.
    + rewrite bool_decide_eq_false_2; [done|]. by intros [? ?].
Qed.

End SessionFacts.

Section SessionScenarios.

Import Client.

Lemma inbound_message_is_forwarded_witness :
  log (on_message WS "null" (Some VNull) initial)
    = [Warn "Failed to parse WebSocket message"; Sent "raw" (VStr "null") None] /\
  log (on_message WS "{}" (Some (VObj [("id", VNum 7)])) initial)
    = [Sent "message" (VObj [("id", VNum 7)]) None].
Proof.
  split.
  - apply (proj1 (inbound_message_is_forwarded WS "null" (Some VNull) initial)).
    right. by left.
  - apply (proj1 (proj2 (inbound_message_is_forwarded WS "{}"
                           (Some (VObj [("id", VNum 7)])) initial)
                    (VObj [("id", VNum 7)]) (VNum 7) eq_refl eq_refl)).
Defined.

End SessionScenarios.

(** ** The client session: tool discovery and example parameters *)

Section DiscoveryFacts.

Import Client.

Lemma mapM_outcome_Ok {A B} (f : A -> outcome B) xs ys :
  mapM f xs = Ok ys -> Forall2 (fun x y => f x = Ok y) xs ys.
Proof.
  revert ys. induction xs as [|x xs IH]; simpl; intros ys.
  - intros [= <-]. constructor.
  - destruct (f x) as [y|] eqn:Hy; simpl; [|done].
    destruct (mapM f xs) as [ys'|]; simpl; [|done].
    intros [= <-]. constructor; auto.
Qed.

Lemma mapM_outcome_Thrown {A B} (f : A -> outcome B) xs :
  Exists (fun x => f x = Thrown) xs -> mapM f xs = Thrown.
Proof.
  induction 1 as [x xs Hx|x xs _ IH]; simpl.
  - by rewrite Hx.
  - destruct (f x); simpl; [|done]. by rewrite IH.
Qed.

(** X13.  The "tools_discovered" message counts what it lists: when the
    reply to [tools/list] carries an array of tools, [availableTools] is
    that array, [toolCount] its length and [toolNames] the [name] of each
    tool in order; without tools the example call is [null].  A tool that
    is [null] makes the discovery throw, and so does a reply whose tools
    are not an array. *)
Theorem tools_discovered_counts c initResponse toolsResponse tools :
  discovered_tools toolsResponse = Ok tools ->
  (forall ts payload,
      tools = VArr ts ->
      tools_discovered c initResponse toolsResponse = Ok payload ->
      get payload "availableTools" = Ok (VArr ts) /\
      get payload "toolCount" = Ok (VNum (Z.of_nat (length ts))) /\
      (exists names,
          get payload "toolNames" = Ok (VArr names) /\
          Forall2 (fun t n => get t "name" = Ok n) ts names) /\
      (ts = [] ->
       exists syntax, get payload "mcpSyntax" = Ok syntax /\
                      get syntax "exampleCall" = Ok VNull)) /\
  (forall ts, tools = VArr ts -> Exists (fun t => t = VNull \/ t = VUndefined) ts ->
              tools_discovered c initResponse toolsResponse = Thrown) /\
  ((forall ts, tools <> VArr ts) ->
   tools_discovered c initResponse toolsResponse = Thrown).
Proof.
  intros Htools. unfold tools_discovered. rewrite Htools. simpl.
  split; [|split].
  - intros ts payload -> Hp.
    destruct (get initResponse "result") as [initResult|]; simpl in Hp; [|done].
    destruct (mapM (fun t => get t "name") ts) as [names|] eqn:Hnames;
      simpl in Hp; [|done].
    match type of Hp with
    | context [match ts with [] => ?a | _ => _ end] =>
        destruct (match ts with [] => a | t :: _ => _ end) as [exampleCall|] eqn:Hex
    end; simpl in Hp; [|done].
    injection Hp as <-. repeat split; try reflexivity.
    + exists names. split; [reflexivity|]. by apply mapM_outcome_Ok.
    + intros ->. injection Hex as <-. eexists. split; reflexivity.
  - intros ts -> Hex.
    destruct (get initResponse "result") as [initResult|]; simpl; [|done].
    rewrite mapM_outcome_Thrown; [done|].
    eapply Exists_impl; [exact Hex|]. by intros t [-> | ->].
  - intros Hnot. destruct (get initResponse "result") as [initResult|]; simpl; [|done].
    destruct tools; try done. by destruct (Hnot xs).
Qed.

Lemma tools_discovered_counts_witness :
  let reply := VObj [("result",
                      VObj [("tools", VArr [VObj [("name", VStr "echo")]; VNull])])] in
  tools_discovered sse_client (VObj []) reply = Thrown.
Proof.
  intros reply.
  apply (proj1 (proj2 (tools_discovered_counts sse_client (VObj []) reply
                         (VArr [VObj [("name", VStr "echo")]; VNull]) eq_refl))
           [VObj [("name", VStr "echo")]; VNull] eq_refl).
  right. left. by left.
Defined.

End DiscoveryFacts.

Section ExampleEdges.

Lemma example_value_throws propDef :
  example_value propDef = Thrown <-> propDef = VNull \/ propDef = VUndefined.
Proof.
  split.
  - intros Hthrown.
    destruct propDef; auto;
      match goal with
      | |- ?v = VNull \/ _ =>
          destruct (example_value_for v) as (w & Hw & _); [done | done | congruence]
      end.
  - by intros [-> | ->].
Qed.

Lemma fill_example_throws props : forall acc,
  fill_example props acc = Thrown <->
  Exists (fun p => p.2 = VNull \/ p.2 = VUndefined) props.
Proof.
  induction props as [|[k d] props IH]; simpl; intros acc.
  - split; [done | by rewrite Exists_nil].
  - rewrite Exists_cons. simpl.
    destruct (example_value d) as [v|] eqn:Hv; simpl.
    + rewrite IH. split; [by right|]. intros [Hd|H]; [|done].
      apply example_value_throws in Hd. congruence.
    + split; [|done]. intros _. left. by apply example_value_throws.
Qed.

Lemma set_field_keys k v fs :
  "__proto__" ∉ map fst fs -> NoDup (map fst fs) ->
  ("__proto__" ∉ map fst (set_field k v fs)) /\ NoDup (map fst (set_field k v fs)) /\
  forall k', k' ∈ map fst (set_field k v fs) -> k' = k \/ k' ∈ map fst fs.
Proof.
  intros Hp Hnd. unfold set_field.
  destruct (String.eqb_spec k "__proto__") as [->|Hne]; [by auto|].
  destruct (replace_field_keys k v fs Hnd) as [H1 H2].
  split; [|by split]. intros Hin. destruct (H2 _ Hin); congruence.
Qed.

Lemma fill_example_keys props : forall acc example,
  "__proto__" ∉ map fst acc -> NoDup (map fst acc) ->
  fill_example props acc = Ok example ->
  ("__proto__" ∉ map fst example) /\ NoDup (map fst example) /\
  forall k, k ∈ map fst example -> k ∈ map fst acc \/ k ∈ map fst props.
Proof.
  induction props as [|[k d] props IH]; simpl; intros acc example Hp Hnd.
  - intros [= <-]. auto.
  - destruct (example_value d) as [v|]; simpl; [|done]. intros Hfill.
    destruct (set_field_keys k v acc Hp Hnd) as (Hp' & Hnd' & Hsub).
    destruct (IH _ _ Hp' Hnd' Hfill) as (H1 & H2 & H3).
    split; [done|]. split; [done|]. intros k' Hk'.
    destruct (H3 _ Hk') as [Hin|Hin]; [|right; by right].
    destruct (Hsub _ Hin) as [-> | ?]; [right; left | by left].
Qed.

(** X14.  Where [generateExampleParams] stops short.  It returns [{}] for
    a schema that is falsy or has no truthy [properties]; it throws exactly
    when one of the properties is defined as [null] (or [undefined]); and
    what it returns otherwise is an object whose keys are keys of
    [properties], pairwise distinct, none of them ["__proto__"]: a property
    of that name gets no placeholder. *)
Theorem generateExampleParams_edges schema :
  (truthy schema = false -> generateExampleParams schema = Ok (VObj [])) /\
  (forall properties,
      get schema "properties" = Ok properties -> truthy properties = false ->
      generateExampleParams schema = Ok (VObj [])) /\
  (forall properties props,
      get schema "properties" = Ok properties -> truthy properties = true ->
      entries properties = Ok props ->
      (generateExampleParams schema = Thrown <->
       Exists (fun p => p.2 = VNull \/ p.2 = VUndefined) props) /\
      (forall v, generateExampleParams schema = Ok v ->
                 exists example,
                   v = VObj example /\ ("__proto__" ∉ map fst example) /\
                   NoDup (map fst example) /\
                   forall k, k ∈ map fst example -> k ∈ map fst props)).
Proof.
  unfold generateExampleParams. split; [|split].
  - by intros ->.
  - intros properties Hget Hfalsy. destruct (truthy schema); [|done]. simpl.
    rewrite Hget. simpl. by rewrite Hfalsy.
  - intros properties props Hget Htruthy Hentries.
    assert (Hschema : truthy schema = true).
    { destruct schema as [| |[]|n|s| |]; try done; simpl in *.
      - injection Hget as <-. done.
      - injection Hget as <-. done.
      - destruct s; [|done]. vm_compute in Hget. injection Hget as <-. done. }
    rewrite Hschema. simpl. rewrite Hget. simpl. rewrite Htruthy. simpl.
    rewrite Hentries. simpl. split.
    + rewrite <- (fill_example_throws props []).
      destruct (fill_example props []); simpl; split; intros H; try done; discriminate H.
    + intros v. destruct (fill_example props []) as [example|] eqn:Hfill; simpl; [|done].
      intros [= <-]. exists example. split; [done|].
      destruct (fill_example_keys props [] example) as (H1 & H2 & H3); auto.
      * by apply not_elem_of_nil.
      * constructor.
      * split; [done|]. split; [done|]. intros k Hk.
        destruct (H3 k Hk) as [Hin|Hin]; [by apply elem_of_nil in Hin | done].
Qed.

Lemma generateExampleParams_edges_witness :
  generateExampleParams VNull = Ok (VObj []) /\
  generateExampleParams (VObj [("type", VStr "object")]) = Ok (VObj []) /\
  generateExampleParams (VObj [("properties", VObj [("a", VNull)])]) = Thrown /\
  generateExampleParams
    (VObj [("properties", VObj [("__proto__", VObj [("type", VStr "string")])])])
    = Ok (VObj []).
Proof.
  split; [|split; [|split]].
  - apply (proj1 (generateExampleParams_edges VNull)). reflexivity.
  - apply (proj1 (proj2 (generateExampleParams_edges (VObj [("type", VStr "object")])))
             VUndefined); reflexivity.
  - apply (proj1 (proj2 (proj2 (generateExampleParams_edges
                                  (VObj [("properties", VObj [("a", VNull)])])))
                    (VObj [("a", VNull)]) [("a", VNull)] eq_refl eq_refl eq_refl)).
    left. by left.
  - destruct (proj2 (proj2 (proj2 (generateExampleParams_edges
               (VObj [("properties",
                       VObj [("__proto__", VObj [("type", VStr "string")])])])))
               (VObj [("__proto__", VObj [("type", VStr "string")])])
               [("__proto__", VObj [("type", VStr "string")])]
               eq_refl eq_refl eq_refl)
               (VObj []) eq_refl) as (example & Heq & _).
    reflexivity.
Defined.

End ExampleEdges.

(** ** The client session: a disconnect while offline *)

Section OfflineDisconnect.

Import Client.

Variable c : config.
Variable uuid : nat -> string.
Variable send_throws : option ready_state -> bool.

(** X15.  [disconnect] on a node that is not connected changes nothing, a
    pending reconnection included: the reconnect timer stays armed, and
    when it fires the node goes on to connect again. *)
Theorem offline_disconnect_keeps_reconnecting cb s t :
  isConnected s = false ->
  reconnectTimer s = Some t ->
  timers s !! t = Some TReconnect ->
  let s1 := step c uuid send_throws s (EDisconnect cb) in
  let s2 := step c uuid send_throws s1 (ETimer t) in
  s1 = call cb None (success "Already disconnected") s /\
  reconnectTimer s1 = Some t /\ timers s1 !! t = Some TReconnect /\
  s2 = connect c CbNone (set_reconnectTimer None (clearTimer t s1)) /\
  exists obs, log s2 = (log s1 ++ Status "connecting..." :: obs)%list.
Proof.
  intros Hoff Hr Ht s1 s2.
  assert (H1 : s1 = call cb None (success "Already disconnected") s).
  { unfold s1. simpl. by apply disconnect_not_connected. }
  assert (Hr1 : reconnectTimer s1 = Some t) by (rewrite H1; by destruct cb).
  assert (Ht1 : timers s1 !! t = Some TReconnect) by (rewrite H1; by destruct cb).
  assert (Hoff1 : isConnected s1 = false) by (rewrite H1; by destruct cb).
  assert (H2 : s2 = connect c CbNone (set_reconnectTimer None (clearTimer t s1))).
  { unfold s2. simpl. rewrite Ht1. simpl. by rewrite Hoff1. }
  repeat split; try done.
  rewrite H2. unfold connect. simpl. rewrite Hoff1.
  repeat (match goal with |- context [if ?b then _ else _] => destruct b end);
    simpl; rewrite <- ?app_assoc; by eexists.
Qed.

End OfflineDisconnect.

Section OfflineDisconnectScenarios.

Import Client.

Lemma offline_disconnect_keeps_reconnecting_witness :
  let s := run sse_client numbered throws_unless_open initial
             [EConnect CbNone; EError 0 false] in
  let s1 := step sse_client numbered throws_unless_open s (EDisconnect (CbCaller 1)) in
  let s2 := step sse_client numbered throws_unless_open s1 (ETimer 1) in
  reconnectTimer s1 = Some 1 /\
  exists obs, log s2 = (log s1 ++ Status "connecting..." :: obs)%list.
Proof.
  intros s s1 s2.
  destruct (offline_disconnect_keeps_reconnecting sse_client numbered throws_unless_open
              (CbCaller 1) s 1) as (_ & H1 & _ & _ & H2); try reflexivity.
  by split.
Defined.

End OfflineDisconnectScenarios.

(** ** The supervised process: timers and handles in the states it reaches *)

Section SupervisorInvariants.

Import Supervisor.

Variable c : config.
Variable serverId : string.

Lemma probe_ok_same s s' :
  timers s' = timers s -> healthCheckTimer s' = healthCheckTimer s ->
  fresh s <= fresh s' -> probe_ok s -> probe_ok s'.
Proof.
  intros Ht Hh Hf [H1 H2]. split.
  - intros t. rewrite Ht, Hh. apply H1.
  - intros t body. rewrite Ht. intros H. apply H2 in H. lia.
Qed.

Lemma probe_ok_call cb err res s : probe_ok s -> probe_ok (call cb err res s).
Proof. destruct cb; by apply probe_ok_same. Qed.

Lemma probe_ok_setTimer body s :
  body <> THealthCheck -> probe_ok s -> probe_ok (setTimer body s).2.
Proof.
  intros Hbody [H1 H2]. split; simpl.
  - intros t. rewrite <- H1, lookup_insert_Some. split.
    + intros [[_ ?]|[_ ?]]; [congruence | done].
    + intros H. right. split; [|done]. apply H2 in H. lia.
  - intros t b. rewrite lookup_insert_Some. intros [[<- _]|[_ H]]; [lia|].
    apply H2 in H. lia.
Qed.

Lemma probe_ok_clearTimer t s :
  timers s !! t <> Some THealthCheck -> probe_ok s -> probe_ok (clearTimer t s).
Proof.
  intros Hne [H1 H2]. split; simpl.
  - intros t'. rewrite <- H1, lookup_delete_Some. split; [tauto|].
    intros H. split; [congruence | done].
  - intros t' b. rewrite lookup_delete_Some. intros [_ H]. eauto.
Qed.

Lemma probe_ok_stopHealthCheck s : probe_ok s -> probe_ok (stopHealthCheck s).
Proof.
  intros H. unfold stopHealthCheck.
  destruct (healthCheckTimer s) as [t0|] eqn:Hh; [|done].
  destruct H as [H1 H2]. split; simpl.
  - intros t. rewrite lookup_delete_Some. split; [|done].
    intros [Hne H]. apply H1 in H. congruence.
  - intros t b. rewrite lookup_delete_Some. intros [_ H]. eauto.
Qed.

Lemma probe_ok_startHealthCheck s : probe_ok s -> probe_ok (startHealthCheck s).
Proof.
  intros H. unfold startHealthCheck.
  destruct (healthCheckTimer s) as [t0|] eqn:Hh; destruct H as [H1 H2]; split; simpl.
  - intros t. rewrite lookup_insert_Some, lookup_delete_Some. split.
    + intros [[<- _]|[_ [Hne H]]]; [done|]. apply H1 in H. congruence.
    + intros [= <-]. by left.
  - intros t b. rewrite lookup_insert_Some, lookup_delete_Some.
    intros [[<- _]|[_ [_ H]]]; [lia|]. apply H2 in H. lia.
  - intros t. rewrite lookup_insert_Some. split.
    + intros [[<- _]|[_ H]]; [done|]. apply H1 in H. congruence.
    + intros [= <-]. by left.
  - intros t b. rewrite lookup_insert_Some.
    intros [[<- _]|[_ H]]; [lia|]. apply H2 in H. lia.
Qed.

Lemma probe_ok_kill pid signal s : probe_ok s -> probe_ok (kill pid signal s).
Proof. unfold kill. destruct (children s !! pid); [|done]. by apply probe_ok_same. Qed.

Lemma probe_ok_startServer cb s : probe_ok s -> probe_ok (startServer c serverId cb s).
Proof.
  intros H. unfold startServer, spawn.
  destruct (isRunning s); [apply probe_ok_call; by eapply probe_ok_same|].
  destruct (command_line c) as [[command args]|];
    [|apply probe_ok_call; by eapply probe_ok_same].
  destruct (String.eqb command ""); apply probe_ok_call;
    (eapply probe_ok_same; [..|exact H]); simpl; auto.
Qed.

Lemma probe_ok_step s e : probe_ok s -> probe_ok (step c serverId s e).
Proof.
  intros H.
  destruct e as [cb|cb|pid output|pid output|pid message|pid code signal|t]; simpl.
  - by apply probe_ok_startServer.
  - unfold stopServer. destruct (isRunning s), (serverProcess s) as [pid|];
      try (apply probe_ok_call; by eapply probe_ok_same).
    apply probe_ok_call.
    eapply (probe_ok_same (setTimer TForceKill _).2); [done..|].
    apply probe_ok_setTimer; [done|]. apply probe_ok_kill.
    apply probe_ok_stopHealthCheck. by eapply probe_ok_same.
  - destruct (bool_decide (is_Some (children s !! pid))); [|done].
    unfold on_stdout.
    destruct (startup_marker output); [|by eapply probe_ok_same].
    unfold onServerStarted.
    eapply (probe_ok_same (startHealthCheck _)); [done..|].
    apply probe_ok_startHealthCheck. by eapply probe_ok_same.
  - destruct (bool_decide (is_Some (children s !! pid))); [|done].
    by eapply probe_ok_same.
  - destruct (children s !! pid) as [ch|]; [|done].
    unfold on_error. apply probe_ok_call. by eapply probe_ok_same.
  - destruct (bool_decide (is_Some (children s !! pid))); [|done].
    unfold on_exit.
    match goal with |- context [if ?b then _ else _] => destruct b end.
    + apply probe_ok_setTimer; [done|]. by eapply probe_ok_same.
    + eapply (probe_ok_same (stopHealthCheck _)); [done..|].
      apply probe_ok_stopHealthCheck. by eapply probe_ok_same.
  - destruct (timers s !! t) as [[| |]|] eqn:Ht; try done.
    + apply probe_ok_startServer. apply probe_ok_clearTimer; [by rewrite Ht | done].
    + assert (Hc : probe_ok (clearTimer t s)).
      { apply probe_ok_clearTimer; [by rewrite Ht | done]. }
      unfold on_force_kill. destruct (serverProcess (clearTimer t s)) as [pid|]; [|done].
      destruct (children (clearTimer t s) !! pid) as [ch|]; [|done].
      destruct (killed ch); [done|]. by apply probe_ok_kill.
Qed.

(** X16.  The node keeps at most one health probe going: in every state it
    reaches, an armed health-check timer is the one [healthCheckTimer]
    holds, and the one it holds is armed.  A new startup marker replaces
    the probe, a stop and a final exit end it. *)
Theorem one_health_probe evs t :
  let s := run c serverId initial evs in
  timers s !! t = Some THealthCheck <-> healthCheckTimer s = Some t.
Proof.
  assert (H : forall s, probe_ok s -> probe_ok (run c serverId s evs)).
  { induction evs as [|e evs' IH]; simpl; intros s Hs; [done|].
    by apply IH, probe_ok_step. }
  apply H. split; simpl.
  - intros t'. by rewrite lookup_empty.
  - intros t' b. by rewrite lookup_empty.
Qed.

Lemma handle_live_same s s' :
  serverProcess s' = serverProcess s -> children s' = children s ->
  handle_live s -> handle_live s'.
Proof. intros Hp Hc H pid. rewrite Hp, Hc. apply H. Qed.

Lemma handle_live_none s : serverProcess s = None -> handle_live s.
Proof. intros H pid. by rewrite H. Qed.

Lemma handle_live_call cb err res s : handle_live s -> handle_live (call cb err res s).
Proof. destruct cb; by apply handle_live_same. Qed.

Lemma handle_live_kill pid signal s : handle_live s -> handle_live (kill pid signal s).
Proof.
  intros H. unfold kill. destruct (children s !! pid) as [ch|] eqn:Hc; [|done].
  intros p Hp. simpl in *. destruct (decide (pid = p)) as [->|Hne].
  - rewrite lookup_insert_eq. by eexists.
  - rewrite lookup_insert_ne by done. by apply H.
Qed.

Lemma handle_live_stopHealthCheck s : handle_live s -> handle_live (stopHealthCheck s).
Proof. unfold stopHealthCheck. destruct (healthCheckTimer s); by apply handle_live_same. Qed.

Lemma handle_live_startServer cb s :
  handle_live s -> handle_live (startServer c serverId cb s).
Proof.
  intros H. unfold startServer, spawn.
  destruct (isRunning s); [apply handle_live_call; by eapply handle_live_same|].
  destruct (command_line c) as [[command args]|];
    [|apply handle_live_call; by eapply handle_live_same].
  destruct (String.eqb command ""); apply handle_live_call;
    [by eapply handle_live_same|].
  intros pid. simpl. intros [= <-]. rewrite lookup_insert_eq. by eexists.
Qed.

Lemma handle_live_step s e : handle_live s -> handle_live (step c serverId s e).
Proof.
  intros H.
  destruct e as [cb|cb|pid output|pid output|pid message|pid code signal|t]; simpl.
  - by apply handle_live_startServer.
  - unfold stopServer. destruct (isRunning s), (serverProcess s) as [pid|] eqn:Hp;
      try (apply handle_live_call; by eapply handle_live_same).
    apply handle_live_call.
    eapply (handle_live_same (kill pid "SIGTERM" _)); [done..|].
    apply handle_live_kill, handle_live_stopHealthCheck. by eapply handle_live_same.
  - destruct (bool_decide (is_Some (children s !! pid))); [|done].
    unfold on_stdout.
    destruct (startup_marker output); [|by eapply handle_live_same].
    unfold onServerStarted, startHealthCheck. simpl.
    destruct (healthCheckTimer s); by eapply handle_live_same.
  - destruct (bool_decide (is_Some (children s !! pid))); [|done].
    by eapply handle_live_same.
  - destruct (children s !! pid) as [ch|]; [|done].
    unfold on_error. apply handle_live_call. by eapply handle_live_same.
  - destruct (bool_decide (is_Some (children s !! pid))); [|done].
    apply handle_live_none. unfold on_exit.
    match goal with |- context [if ?b then _ else _] => destruct b end; simpl; [done|].
    unfold stopHealthCheck. simpl. by destruct (healthCheckTimer s).
  - destruct (timers s !! t) as [[| |]|] eqn:Ht; try done.
    + apply handle_live_startServer. by eapply handle_live_same.
    + assert (Hc : handle_live (clearTimer t s)) by (by eapply handle_live_same).
      unfold on_force_kill. destruct (serverProcess (clearTimer t s)) as [pid|]; [|done].
      destruct (children (clearTimer t s) !! pid) as [ch|]; [|done].
      destruct (killed ch); [done|]. by apply handle_live_kill.
Qed.

(** X17.  The handle the node holds is never stale: in every state it
    reaches, [serverProcess] is [null] or a process that was spawned and
    has not exited; the exit of any process clears it. *)
Theorem handle_is_live evs pid :
  let s := run c serverId initial evs in
  (serverProcess s = Some pid -> is_Some (children s !! pid)) /\
  (forall code signal,
      is_Some (children s !! pid) ->
      serverProcess (step c serverId s (EExit pid code signal)) = None).
Proof.
  assert (H : forall s, handle_live s -> handle_live (run c serverId s evs)).
  { induction evs as [|e evs' IH]; simpl; intros s Hs; [done|].
    by apply IH, handle_live_step. }
  split; [apply H; by apply handle_live_none|].
  intros code signal Hlive. simpl. rewrite bool_decide_eq_true_2 by done.
  unfold on_exit.
  match goal with |- context [if ?b then _ else _] => destruct b end; simpl; [done|].
  unfold stopHealthCheck. simpl.
  by destruct (healthCheckTimer (run c serverId initial evs)).
Qed.

End SupervisorInvariants.

Section SupervisorInvariantsScenarios.

Import Supervisor.

Lemma handle_is_live_witness :
  let s := run node_server "id" initial [EStart CbNone; EStart CbNone] in
  is_Some (children s !! 1) /\
  serverProcess (step node_server "id" s (EExit 0 (Some 0%Z) None)) = None.
Proof.
  intros s.
  destruct (handle_is_live node_server "id" [EStart CbNone; EStart CbNone] 1) as [H1 _].
  destruct (handle_is_live node_server "id" [EStart CbNone; EStart CbNone] 0) as [_ H2].
  split.
  - apply H1. reflexivity.
  - apply H2. eexists. vm_compute. reflexivity.
Defined.

End SupervisorInvariantsScenarios.

Section ProbeScenarios.

Import Supervisor.

Lemma one_health_probe_witness :
  let s := run node_server "id" initial
             [EStart CbNone; EStdout 0 "listening"; EStdout 0 "Server started"] in
  timers s = {[2 := THealthCheck]} /\ timers s !! 2 = Some THealthCheck.
Proof.
  intros s. split; [reflexivity|].
  apply (proj2 (one_health_probe node_server "id"
                  [EStart CbNone; EStdout 0 "listening"; EStdout 0 "Server started"] 2)).
  reflexivity.
Defined.

End ProbeScenarios.

(** ** The supervised process: stopping *)

Section StopFacts.

Import Supervisor.

Variable c : config.
Variable serverId : string.

Lemma signals_snoc l o :
  signals (l ++ [o]) =
    (signals l ++ match o with Killed pid signal => [(pid, signal)] | _ => [] end)%list.
Proof. unfold signals. rewrite omap_app. by destruct o. Qed.

Lemma signals_call cb err res s : signals (log (call cb err res s)) = signals (log s).
Proof. destruct cb; simpl; [done|]. by rewrite signals_snoc, app_nil_r. Qed.

(** What [stopServer] does to a node that is running and holds a process
    that has not exited. *)
Lemma stopServer_running cb s pid ch :
  isRunning s = true -> serverProcess s = Some pid -> children s !! pid = Some ch ->
  stopServer cb s =
    call cb None (success true "Server stopping" [])
      (State (Some pid) false (restartCount s) None
             (<[pid := Child (start_callback ch) true]> (children s))
             (<[fresh s := TForceKill]>
                match healthCheckTimer s with
                | Some t => delete t (timers s)
                | None => timers s
                end)
             (S (fresh s))
             (log s ++ [Status "stopping..."; Killed pid "SIGTERM"])).
Proof.
  intros Hrun Hp Hc. unfold stopServer, stopHealthCheck, kill. rewrite Hrun, Hp. simpl.
  destruct (healthCheckTimer s) eqn:Hh; simpl; rewrite Hc; unfold set_isRunning; simpl;
    rewrite ?Hh, ?Hp, <- app_assoc; done.
Qed.


(** X19.  The forced kill misses the process it is meant for.  [kill]
    sets the [killed] flag of the process it signals, so when the timer of
    [stopServer] fires with the node as [stopServer] left it (the process
    has not exited), the test [!serverProcess.killed] fails and no SIGKILL
    is sent.  The timer is never cancelled: when the stopped process has
    exited and the node has been started again before the timer fires, the
    timer finds the new process in the handle, not killed, and sends
    SIGKILL to it. *)
Theorem force_kill_misses_its_process cb s pid ch :
  isRunning s = true -> serverProcess s = Some pid -> children s !! pid = Some ch ->
  let s1 := step c serverId s (EStop cb) in
  timers s1 !! fresh s = Some TForceKill /\
  step c serverId s1 (ETimer (fresh s)) = clearTimer (fresh s) s1 /\
  (forall code signal cb' command args,
      launches c command args ->
      let s2 := step c serverId s1 (EExit pid code signal) in
      let s3 := step c serverId s2 (EStart cb') in
      let s4 := step c serverId s3 (ETimer (fresh s)) in
      serverProcess s3 = Some (fresh s2) /\
      children s3 !! fresh s2 = Some (Child cb' false) /\
      log s4 = (log s3 ++ [Killed (fresh s2) "SIGKILL"])%list).
Proof.
  intros Hrun Hp Hc s1.
  assert (H1 : s1 = stopServer cb s) by done.
  clearbody s1.
  rewrite (stopServer_running cb s pid ch) in H1 by done.
  match type of H1 with _ = call _ _ _ ?x =>
    destruct (call_fields cb None (success true "Server stopping" []) x)
      as (Ep & Er & En & Eh & Ec & Et & Ef & _)
  end.
  rewrite <- H1 in *. simpl in Ep, Er, En, Eh, Ec, Et, Ef.
  assert (Htf : timers s1 !! fresh s = Some TForceKill).
  { rewrite Et. apply lookup_insert_eq. }
  split; [done|]. split.
  - simpl. rewrite Htf. unfold on_force_kill. simpl.
    by rewrite Ep, Ec, lookup_insert_eq.
  - intros code signal cb' command args Hl s2 s3 s4.
    assert (H2 : s2 = step c serverId s1 (EExit pid code signal)) by done.
    assert (H3 : s3 = startServer c serverId cb' s2) by done.
    assert (H4 : s4 = step c serverId s3 (ETimer (fresh s))) by done.
    clearbody s2 s3 s4.
    simpl in H2. rewrite bool_decide_eq_true_2 in H2
      by (rewrite Ec, lookup_insert_eq; by eexists).
    assert (E2 : isRunning s2 = false /\ timers s2 !! fresh s = Some TForceKill /\
                 fresh s < fresh s2).
    { rewrite H2. unfold on_exit, stopHealthCheck. simpl. rewrite Eh.
      match goal with |- context [if ?b then _ else _] => destruct b end; simpl.
      - rewrite Ef. split; [done|]. split; [|lia].
        rewrite lookup_insert_ne by lia. exact Htf.
      - rewrite Ef. split; [done|]. split; [exact Htf | lia]. }
    destruct E2 as (Er2 & Et2 & Ef2).
    rewrite (startServer_spawns c serverId cb' s2 command args) in H3 by done.
    match type of H3 with _ = call _ _ _ ?x =>
      destruct (call_fields cb' None
                  (success true "Server starting" [("serverId", VStr serverId)]) x)
        as (Ep3 & _ & _ & _ & Ec3 & Et3 & _ & _)
    end.
    rewrite <- H3 in *. simpl in Ep3, Ec3, Et3.
    assert (Hc3 : children s3 !! fresh s2 = Some (Child cb' false)).
    { rewrite Ec3. apply lookup_insert_eq. }
    split; [done|]. split; [done|].
    rewrite H4. simpl. rewrite Et3, Et2. unfold on_force_kill. simpl.
    rewrite Ep3, Hc3. simpl. unfold kill. simpl. by rewrite Hc3.
Qed.

(** X20.  [stopServer] acts only on a node that is marked running.  While
    [isRunning] is not set (before the startup marker appears in the
    output, or after a stop) it signals no process, arms no timer and
    leaves the health probe alone, also when a process is alive; it only
    reports "Server already stopped". *)
Theorem stop_needs_running cb s :
  isRunning s = false ->
  let s' := step c serverId s (EStop cb) in
  signals (log s') = signals (log s) /\
  children s' = children s /\ timers s' = timers s /\
  serverProcess s' = serverProcess s /\
  healthCheckTimer s' = healthCheckTimer s /\
  forall k, cb = CbCaller k ->
            last (log s') = Some (Called k None (success true "Server already stopped" [])).
Proof.
  intros Hrun. simpl. unfold stopServer. rewrite Hrun.
  destruct (call_fields cb None (success true "Server already stopped" [])
              (emit (Status "stopped") s)) as (Ep & _ & _ & Eh & Ec & Et & _ & _).
  rewrite signals_call, Ep, Eh, Ec, Et. simpl.
  rewrite signals_snoc, app_nil_r.
  repeat split. intros k ->. simpl. by rewrite last_snoc.
Qed.

End StopFacts.

Section StopScenarios.

Import Supervisor.


Lemma force_kill_misses_its_process_witness :
  let s := run node_server "id" initial [EStart CbNone; EStdout 0 "listening"] in
  let s1 := step node_server "id" s (EStop CbNone) in
  let s2 := step node_server "id" s1 (EExit 0 (Some 0%Z) None) in
  let s3 := step node_server "id" s2 (EStart CbNone) in
  let s4 := step node_server "id" s3 (ETimer (fresh s)) in
  signals (log s4) = [(0, "SIGTERM"); (fresh s2, "SIGKILL")] /\
  log s4 = (log s3 ++ [Killed (fresh s2) "SIGKILL"])%list.
Proof.
  intros s s1 s2 s3 s4. split; [reflexivity|].
  destruct (force_kill_misses_its_process node_server "id" CbNone s 0 (Child CbNone false)
              eq_refl eq_refl eq_refl) as (_ & _ & H).
  apply (H (Some 0%Z) None CbNone "node" ["server.js"; "--verbose"]).
  split; [reflexivity | discriminate].
Defined.

Lemma stop_needs_running_witness :
  let s := run node_server "id" initial [EStart CbNone] in
  let s' := step node_server "id" s (EStop (CbCaller 1)) in
  is_Some (children s' !! 0) /\ signals (log s') = [] /\ timers s' = ∅.
Proof.
  intros s s'.
  destruct (stop_needs_running node_server "id" (CbCaller 1) s eq_refl)
    as (H1 & H2 & H3 & _).
  split; [|split].
  - fold s' in H2. rewrite H2. eexists. reflexivity.
  - exact H1.
  - exact H3.
Defined.

End StopScenarios.

(** ** The supervised process: the command line and the restart budget *)

Section CommandFacts.

Import Supervisor.









Variable c : config.
Variable serverId : string.



End CommandFacts.

Section CommandScenarios.

Import Supervisor.




End CommandScenarios.

(** ** The tool node *)

Section ToolNodeFacts.

Import ToolNode.

Lemma truthy_get v k : truthy v = true -> exists w, get v k = Ok w.
Proof. intros H. destruct (truthy_not_nullish v H). by apply get_not_nullish. Qed.

Lemma merge_params_total c msg : exists params, merge_params c msg = Ok params.
Proof.
  unfold merge_params.
  destruct (truthy (prop msg "payload")) eqn:Hp; simpl; [|by eexists].
  destruct (is_object (prop msg "payload")); simpl; [|by eexists].
  destruct (truthy_get _ "params" Hp) as [p ->]. simpl.
  destruct (truthy p); simpl; [by eexists|].
  destruct (truthy_get _ "method" Hp) as [m ->]. simpl.
  destruct (truthy m); simpl; by eexists.
Qed.

(** X24.  What an input message to the tool node leads to.  The method of
    the request is the [method] of the payload when it has a truthy one,
    else the topic of the message when it is truthy, else the configured
    tool name.  When that leaves no method the node warns and sends
    nothing; otherwise it sends exactly one request, whose method is the
    chosen one and whose id is the reading of the clock.  The handler never
    throws. *)
Theorem tool_method_precedence c now msg :
  let topic := prop msg "topic" in
  let payload := prop msg "payload" in
  exists method,
    choose_method c msg = Ok method /\
    (forall m, truthy payload = true -> get payload "method" = Ok m ->
               truthy m = true -> method = m) /\
    ((truthy payload = false \/
      exists m, get payload "method" = Ok m /\ truthy m = false) ->
     method = if truthy topic then topic else VStr (toolName c)) /\
    (if truthy method
     then exists params,
         on_input c now msg =
           Ok (Invoked (VObj [("jsonrpc", VStr "2.0"); ("id", VNum now);
                              ("method", method); ("params", VObj params)]))
     else on_input c now msg = Ok (Warned "No tool method specified")).
Proof.
  intros topic payload.
  assert (Htopic : forall t : value,
            (if truthy t && negb (is_string t "") then t else VStr (toolName c))
            = if truthy t then t else VStr (toolName c)).
  { intros [| |[]|n|s| |]; simpl; rewrite ?andb_true_r; try done.
    by destruct (String.eqb s ""). }
  assert (Hchoose : exists method, choose_method c msg = Ok method).
  { unfold choose_method. fold payload.
    destruct (truthy payload) eqn:Hp; [|by eexists].
    destruct (truthy_get _ "method" Hp) as [m ->]. by eexists. }
  destruct Hchoose as [method Hmethod]. exists method.
  split; [done|]. split; [|split].
  - intros m Hp Hm Ht. unfold choose_method in Hmethod. fold payload in Hmethod.
    rewrite Hp, Hm in Hmethod. simpl in Hmethod. rewrite Ht in Hmethod.
    by injection Hmethod.
  - intros Hno. unfold choose_method in Hmethod. fold payload topic in Hmethod.
    rewrite Htopic in Hmethod.
    destruct Hno as [Hp|(m & Hm & Ht)].
    + rewrite Hp in Hmethod. by injection Hmethod.
    + destruct (truthy payload); [|by injection Hmethod].
      rewrite Hm in Hmethod. simpl in Hmethod. rewrite Ht in Hmethod.
      by injection Hmethod.
  - unfold on_input. rewrite Hmethod. simpl.
    destruct (truthy method); simpl; [|done].
    destruct (merge_params_total c msg) as [params ->]. by exists params.
Qed.

Lemma tool_method_precedence_witness :
  exists params,
    on_input todo_tool 17 [("topic", VStr "list_todos");
                           ("payload", VObj [("method", VStr "get_todo")])] =
      Ok (Invoked (VObj [("jsonrpc", VStr "2.0"); ("id", VNum 17);
                         ("method", VStr "get_todo"); ("params", VObj params)])).
Proof.
  destruct (tool_method_precedence todo_tool 17
              [("topic", VStr "list_todos");
               ("payload", VObj [("method", VStr "get_todo")])])
    as (method & _ & Hfirst & _ & Hin).
  rewrite (Hfirst (VStr "get_todo") eq_refl eq_refl eq_refl) in Hin.
  exact Hin.
Defined.

Lemma assoc_set_field_eq k v fs :
  k <> "__proto__" -> assoc k (set_field k v fs) = Some v.
Proof.
  intros Hk. unfold set_field. destruct (String.eqb_spec k "__proto__"); [done|].
  apply assoc_replace_field_eq.
Qed.

Lemma assoc_set_field_ne k k' v fs :
  k <> k' -> assoc k' (set_field k v fs) = assoc k' fs.
Proof.
  intros Hk. unfold set_field. destruct (String.eqb k "__proto__"); [done|].
  by apply assoc_replace_field_ne.
Qed.

Lemma assoc_absent {A} k (fs : list (string * A)) : k ∉ map fst fs -> assoc k fs = None.
Proof.
  induction fs as [|[k' v'] fs IH]; simpl; intros Hk; [done|].
  destruct (String.eqb_spec k k') as [->|Hne].
  - exfalso. apply Hk. left.
  - apply IH. intros Hin. apply Hk. by right.
Qed.

Lemma assoc_fold_set_field k fs : forall target,
  k <> "__proto__" -> NoDup (map fst fs) ->
  assoc k (fold_left (fun acc kv => set_field kv.1 kv.2 acc) fs target) =
    match assoc k fs with
    | Some v => Some v
    | None => assoc k target
    end.
Proof.
  induction fs as [|[k1 v1] fs IH]; simpl; intros target Hk Hnd; [done|].
  apply NoDup_cons in Hnd as [Hk1 Hnd]. rewrite IH by done.
  destruct (String.eqb_spec k k1) as [->|Hne].
  - rewrite assoc_absent by done. by apply assoc_set_field_eq.
  - destruct (assoc k fs); [done|]. apply assoc_set_field_ne. congruence.
Qed.

Lemma assoc_assign k target source fs :
  k <> "__proto__" -> entries source = Ok fs -> NoDup (map fst fs) ->
  assoc k (assign target source) =
    match assoc k fs with
    | Some v => Some v
    | None => assoc k target
    end.
Proof. intros Hk Hfs Hnd. unfold assign. rewrite Hfs. by apply assoc_fold_set_field. Qed.

Lemma assoc_override msg k ks : forall params,
  k <> "__proto__" ->
  assoc k (fold_left (fun params k' => override msg k' params) ks params) =
    if bool_decide (k ∈ ks) && truthy (prop msg k) then Some (prop msg k)
    else assoc k params.
Proof.
  induction ks as [|k1 ks IH]; simpl; intros params Hk; [done|].
  rewrite IH by done. unfold override.
  destruct (decide (k = k1)) as [<-|Hne].
  - rewrite (bool_decide_eq_true_2 (k ∈ k :: ks)) by left. simpl.
    destruct (truthy (prop msg k)) eqn:Ht.
    + rewrite andb_true_r. rewrite assoc_set_field_eq by done.
      by destruct (bool_decide (k ∈ ks)).
    + by rewrite andb_false_r.
  - assert (Hin : bool_decide (k ∈ k1 :: ks) = bool_decide (k ∈ ks)).
    { apply bool_decide_ext. rewrite elem_of_cons. tauto. }
    rewrite Hin. destruct (bool_decide (k ∈ ks) && truthy (prop msg k)); [done|].
    destruct (truthy (prop msg k1)); [|done]. apply assoc_set_field_ne. congruence.
Qed.

(** X25.  Where a parameter of the request comes from.  The five message
    properties [description], [project], [todo_id], [status] and
    [priority] win when they are truthy; below them the [params] of an
    object payload, key by key; below them the configured parameters.  An
    object payload that names a method and has no [params] contributes
    nothing: its other properties are not taken as parameters. *)
Theorem tool_params_precedence c now msg request :
  on_input c now msg = Ok (Invoked request) ->
  let payload := prop msg "payload" in
  let defaults := assign [] (parsedParams c) in
  exists params,
    get request "params" = Ok (VObj params) /\
    (forall k, k ∈ overridden -> truthy (prop msg k) = true ->
               assoc k params = Some (prop msg k)) /\
    (forall k fs,
        k <> "__proto__" ->
        k ∉ overridden \/ truthy (prop msg k) = false ->
        is_object payload = true ->
        get payload "params" = Ok (VObj fs) -> NoDup (map fst fs) ->
        assoc k params = match assoc k fs with
                         | Some v => Some v
                         | None => assoc k defaults
                         end) /\
    (forall k m p,
        k <> "__proto__" ->
        k ∉ overridden \/ truthy (prop msg k) = false ->
        get payload "method" = Ok m -> truthy m = true ->
        get payload "params" = Ok p -> truthy p = false ->
        assoc k params = assoc k defaults).
Proof.
  intros Hin payload defaults. unfold on_input in Hin.
  destruct (choose_method c msg) as [method|]; simpl in Hin; [|done].
  destruct (truthy method); simpl in Hin; [|done].
  destruct (merge_params c msg) as [params|] eqn:Hparams; simpl in Hin; [|done].
  injection Hin as <-. exists params. split; [done|].
  unfold merge_params in Hparams. fold payload defaults in Hparams.
  assert (Hproto : forall k, k ∈ overridden -> k <> "__proto__").
  { intros k Hk ->. revert Hk. unfold overridden.
    rewrite !elem_of_cons, elem_of_nil. intros H.
    repeat (destruct H as [H|H]; [discriminate H|]). done. }
  remember overridden as ks eqn:Hks.
  assert (Hside : forall k, k ∉ ks \/ truthy (prop msg k) = false ->
            bool_decide (k ∈ ks) && truthy (prop msg k) = false).
  { intros k [Hk|Hk]; [by rewrite bool_decide_eq_false_2 | by rewrite Hk, andb_false_r]. }
  split; [|split].
  - intros k Hk Ht.
    destruct (if truthy payload && is_object payload then _ else _) as [base|];
      simpl in Hparams; [|done].
    injection Hparams as <-. rewrite assoc_override by auto.
    by rewrite bool_decide_eq_true_2, Ht by done.
  - intros k fs Hk0 Hk Hobj Hp Hnd.
    assert (Htruthy : truthy payload = true) by (by destruct payload).
    rewrite Htruthy, Hobj, Hp in Hparams. simpl in Hparams.
    injection Hparams as <-. rewrite assoc_override, Hside by done.
    by apply assoc_assign.
  - intros k m p Hk0 Hk Hm Htm Hp Htp.
    destruct (truthy payload && is_object payload).
    + rewrite Hp in Hparams. simpl in Hparams. rewrite Htp, Hm in Hparams.
      simpl in Hparams. rewrite Htm in Hparams. simpl in Hparams.
      injection Hparams as <-. by rewrite assoc_override, Hside by done.
    + simpl in Hparams. injection Hparams as <-.
      by rewrite assoc_override, Hside by done.
Qed.

Lemma tool_params_precedence_witness :
  let msg := [("priority", VStr "high");
              ("payload", VObj [("params", VObj [("project", VStr "work");
                                                 ("priority", VStr "mid")])])] in
  exists request params,
    on_input todo_tool 17 msg = Ok (Invoked request) /\
    get request "params" = Ok (VObj params) /\
    assoc "priority" params = Some (VStr "high") /\
    assoc "project" params = Some (VStr "work").
Proof.
  intros msg.
  destruct (tool_params_precedence todo_tool 17 msg _ eq_refl)
    as (params & Hget & Hover & Hpayload & _).
  eexists _, params. split; [reflexivity|]. split; [exact Hget|]. split.
  - apply (Hover "priority"); [|reflexivity].
    unfold overridden. rewrite !elem_of_cons. tauto.
  - apply (Hpayload "project" [("project", VStr "work"); ("priority", VStr "mid")]);
      try reflexivity.
    + discriminate.
    + by right.
    + decided.
Defined.

Lemma prop_set_field_eq k v msg : k <> "__proto__" -> prop (set_field k v msg) k = v.
Proof. intros Hk. unfold prop. by rewrite assoc_set_field_eq. Qed.

Lemma prop_set_field_ne k k' v msg : k <> k' -> prop (set_field k v msg) k' = prop msg k'.
Proof. intros Hk. unfold prop. by rewrite assoc_set_field_ne. Qed.

Lemma result_of_total response :
  exists r, result_of response = Ok r /\
            (r = response \/ truthy r = true /\ get response "result" = Ok r).
Proof.
  unfold result_of. destruct (truthy response) eqn:Ht; [|by eexists; split; [|left]].
  destruct (truthy_get _ "result" Ht) as [r Hr]. rewrite Hr. simpl.
  destruct (truthy r) eqn:Htr; eexists; (split; [reflexivity|]); auto.
Qed.

(** X26.  What the tool node makes of a reply in the "result" mode (the
    default).  The output message has the topic "result" and as payload
    the [result] of the reply when that is truthy, else the whole reply; a
    property [error] is never set.  So a JSON-RPC error reply, which has no
    [result], is not reported as an error: the error envelope of the flow
    server goes out as the payload of a "result" message, and a result that
    is 0, [false], [""] or [null] is replaced by its envelope. *)
Theorem reply_without_result_is_a_result c msg response :
  outputMode c = "result" ->
  exists out,
    on_reply c msg (inr response) = Ok out /\
    prop out "topic" = VStr "result" /\
    assoc "error" out = assoc "error" msg /\
    (forall r, get response "result" = Ok r ->
               prop out "payload" = if truthy response && truthy r then r else response) /\
    (forall id code message,
        response = rpc_error id code message -> prop out "payload" = response).
Proof.
  intros Hmode. unfold on_reply. rewrite Hmode. simpl.
  destruct (result_of_total response) as (r0 & Hr0 & Hcases). rewrite Hr0. simpl.
  eexists. split; [reflexivity|]. split; [by apply prop_set_field_eq|].
  split; [by rewrite !assoc_set_field_ne|].
  rewrite prop_set_field_ne, prop_set_field_eq by done.
  assert (Hpayload : forall r, get response "result" = Ok r ->
            r0 = if truthy response && truthy r then r else response).
  { intros r Hr. unfold result_of in Hr0. rewrite Hr in Hr0.
    destruct (truthy response); simpl in *; [|by injection Hr0].
    destruct (truthy r); by injection Hr0. }
  split; [done|].
  intros id code message ->. apply (Hpayload VUndefined).
  unfold rpc_error, literal. by destruct id.
Qed.

Lemma reply_without_result_is_a_result_witness :
  exists out,
    on_reply todo_tool [("topic", VStr "add_todo")]
             (inr (rpc_error (VNum 1) (-32602) "Tool not found: add_todo")) = Ok out /\
    prop out "topic" = VStr "result" /\
    prop out "payload" = rpc_error (VNum 1) (-32602) "Tool not found: add_todo".
Proof.
  destruct (reply_without_result_is_a_result todo_tool [("topic", VStr "add_todo")]
              (rpc_error (VNum 1) (-32602) "Tool not found: add_todo") eq_refl)
    as (out & Hout & Htopic & _ & _ & Hpayload).
  exists out. split; [exact Hout|]. split; [exact Htopic|].
  by apply (Hpayload (VNum 1) (-32602)%Z "Tool not found: add_todo").
Defined.

(** X27.  The other output modes.  In the "custom" mode the payload of the
    message stays as it was; the reply is added as [response] and, as
    [result], what the "result" mode would have put in the payload.  A mode
    that is none of "result", "full" and "custom" changes nothing but the
    topic.  In every mode the topic of the output is "result". *)
Theorem custom_mode_keeps_payload c msg response :
  outputMode c <> "result" -> outputMode c <> "full" ->
  exists out,
    on_reply c msg (inr response) = Ok out /\
    prop out "topic" = VStr "result" /\
    prop out "payload" = prop msg "payload" /\
    (outputMode c = "custom" ->
     prop out "response" = response /\
     exists out',
       on_reply (Config (cfg_toolName c) (toolParams c) "result") msg (inr response)
         = Ok out' /\
       prop out "result" = prop out' "payload") /\
    (outputMode c <> "custom" -> out = set_field "topic" (VStr "result") msg).
Proof.
  intros Hresult Hfull. unfold on_reply.
  destruct (String.eqb_spec (outputMode c) "result"); [done|].
  destruct (String.eqb_spec (outputMode c) "full"); [done|].
  destruct (result_of_total response) as (r0 & Hr0 & _).
  destruct (String.eqb_spec (outputMode c) "custom") as [Hcustom|Hcustom].
  - rewrite Hr0. simpl. eexists. split; [reflexivity|].
    split; [by apply prop_set_field_eq|].
    split; [by rewrite !prop_set_field_ne|].
    split; [|done]. intros _.
    split; [rewrite !prop_set_field_ne by done; by rewrite prop_set_field_eq|].
    exists (set_field "topic" (VStr "result") (set_field "payload" r0 msg)).
    split; [done|].
    rewrite (prop_set_field_ne "topic" "result"), (prop_set_field_ne "topic" "payload")
      by done.
    by rewrite !prop_set_field_eq.
  - simpl. eexists. split; [reflexivity|].
    split; [by apply prop_set_field_eq|].
    split; [by rewrite prop_set_field_ne|]. split; done.
Qed.

Lemma custom_mode_keeps_payload_witness :
  exists out,
    on_reply custom_tool [("payload", VStr "kept")]
             (inr (VObj [("result", VNum 5)])) = Ok out /\
    prop out "payload" = VStr "kept" /\ prop out "result" = VNum 5.
Proof.
  destruct (custom_mode_keeps_payload custom_tool [("payload", VStr "kept")]
              (VObj [("result", VNum 5)]))
    as (out & Hout & _ & Hpayload & Hcustom & _); try discriminate.
  exists out. split; [exact Hout|]. split; [exact Hpayload|].
  destruct (Hcustom eq_refl) as (_ & out' & Hout' & Hresult).
  rewrite Hresult. injection Hout' as <-. reflexivity.
Defined.

End ToolNodeFacts.

(** ** The tool registry node *)

Section ToolRegistryFacts.

Import ToolRegistry.

Lemma emissions_snoc l o :
  emissions (l ++ [o]) =
    (emissions l ++ match o with Emitted e => [e] | _ => [] end)%list.
Proof. unfold emissions. rewrite omap_app. by destruct o. Qed.

Lemma effect_same s s' :
  log s' = log s -> isRegistered s' = isRegistered s -> effect s s'.
Proof. intros Hl Hr. left. by rewrite Hl, Hr. Qed.

Lemma effect_after_same s0 s s' :
  emissions (log s) = emissions (log s0) -> isRegistered s = isRegistered s0 ->
  effect s s' -> effect s0 s'.
Proof. unfold effect. intros Hl Hr. by rewrite Hl, Hr. Qed.

Lemma effect_then_same s s1 s' :
  effect s s1 -> emissions (log s') = emissions (log s1) ->
  isRegistered s' = isRegistered s1 -> effect s s'.
Proof. unfold effect. intros H Hl Hr. by rewrite Hl, Hr. Qed.

Lemma effect_warn text s : effect s (emit (Warn text) s).
Proof. left. simpl. by rewrite emissions_snoc, app_nil_r. Qed.

Lemma effect_registerTool s : effect s (registerTool s).
Proof.
  unfold registerTool. destruct (truthy (toolName s)) eqn:Hn; simpl; [|apply effect_warn].
  destruct (isRegistered s) eqn:Hr; [apply effect_warn|].
  right. left. split; [done|]. split; [done|].
  eexists. split; [|split; [|by eexists _, _, _]].
  - simpl. rewrite !emissions_snoc, !app_nil_r. reflexivity.
  - split; [done|]. unfold or_else.
    destruct (truthy (toolDescription s)) eqn:Hd; [exact Hd | reflexivity].
Qed.

Lemma effect_unregisterTool s : effect s (unregisterTool s).
Proof.
  unfold unregisterTool. destruct (isRegistered s) eqn:Hr; simpl; [|apply effect_warn].
  right. right. split; [done|]. split; [done|].
  eexists. simpl. rewrite !emissions_snoc, !app_nil_r. reflexivity.
Qed.

Lemma effect_updateRegistration s : effect s (updateRegistration s).
Proof.
  unfold updateRegistration. destruct (isRegistered s) eqn:Hr; [|by apply effect_same].
  eapply effect_then_same; [apply effect_unregisterTool|done..].
Qed.

Lemma effect_update msg parsed s s' : update msg parsed s = Ok s' -> effect s s'.
Proof.
  unfold update.
  destruct (get (prop msg "payload") "toolName") as [n|]; simpl; [|done].
  destruct (get (prop msg "payload") "toolDescription") as [d|]; simpl; [|done].
  destruct (get (prop msg "payload") "toolSchema") as [schema|]; simpl; [|done].
  intros [= <-].
  eapply effect_after_same; [| |apply effect_updateRegistration];
    destruct (truthy n), (truthy d), (truthy schema), parsed; simpl;
    rewrite ?emissions_snoc, ?app_nil_r; done.
Qed.

Lemma effect_step s e : effect s (step s e).
Proof.
  destruct e as [msg parsed| |]; simpl.
  - destruct (on_input msg parsed s) as [s'|] eqn:Hin; [|by apply effect_same].
    unfold on_input in Hin.
    destruct (command_of msg) as [command|]; simpl in Hin; [|done].
    destruct (is_string command "register");
      [injection Hin as <-; apply effect_registerTool|].
    destruct (is_string command "unregister");
      [injection Hin as <-; apply effect_unregisterTool|].
    destruct (is_string command "update"); [by eapply effect_update|].
    destruct (is_string command "status"); injection Hin as <-.
    + left. simpl. by rewrite emissions_snoc, app_nil_r.
    + apply effect_warn.
  - destruct (delayed s) as [|n]; [by apply effect_same|].
    eapply effect_after_same; [| |apply effect_registerTool]; done.
  - destruct (isRegistered s) eqn:Hr; [apply effect_unregisterTool | by apply effect_same].
Qed.


Lemma emissions_initial c :
  emissions (log (initial c)) = [] /\ isRegistered (initial c) = false.
Proof.
  unfold initial.
  by destruct (cfg_toolSchema c), (autoRegister c && negb (String.eqb (cfg_toolName c) "")).
Qed.

Lemma run_snoc s evs e : run s (evs ++ [e]) = step (run s evs) e.
Proof. unfold run. by rewrite fold_left_app. Qed.


(** X29.  No tool is announced without a name or a description: every
    registration the node emits, in every state it reaches, carries a
    truthy name and a truthy description (the configured one, or "Tool: "
    followed by the name).  A node whose tool name is empty emits
    nothing when asked to register. *)
Theorem registrations_are_named c evs :
  let s := run (initial c) evs in
  Forall well_named (emissions (log s)) /\
  (truthy (toolName s) = false ->
   emissions (log (registerTool s)) = emissions (log s)).
Proof.
  simpl. split.
  - induction evs as [|e evs IH] using rev_ind.
    + simpl. by destruct (emissions_initial c) as [-> _].
    + rewrite run_snoc.
      destruct (effect_step (run (initial c) evs) e)
        as [[Hl Hr]|[(_ & _ & e' & Hl & Hnamed & _)|(_ & _ & n & Hl)]];
        rewrite Hl; [done| |]; apply Forall_app; split; try done; by repeat constructor.
  - intros Hname. unfold registerTool. rewrite Hname. simpl.
    by rewrite emissions_snoc, app_nil_r.
Qed.

Lemma update_renames msg parsed s n' :
  get (prop msg "payload") "toolName" = Ok (VStr n') -> n' <> "" ->
  exists s0,
    update msg parsed s = Ok (updateRegistration s0) /\
    toolName s0 = VStr n' /\ isRegistered s0 = isRegistered s /\
    emissions (log s0) = emissions (log s).
Proof.
  intros Hnew Hne.
  destruct (get_Ok_not_nullish _ _ _ Hnew) as [Hp1 Hp2].
  destruct (get_not_nullish _ "toolDescription" Hp1 Hp2) as [d0 Hd0].
  destruct (get_not_nullish _ "toolSchema" Hp1 Hp2) as [sch0 Hsch0].
  unfold update. rewrite Hnew, Hd0, Hsch0. simpl.
  destruct (String.eqb_spec n' ""); [done|]. simpl.
  eexists. split; [reflexivity|].
  destruct (truthy d0), (truthy sch0), parsed; simpl;
    rewrite ?emissions_snoc, ?app_nil_r; done.
Qed.

(** X30.  Renaming a registered tool with an "update" message leaves the
    old name registered.  The handler stores the new name before it
    unregisters, so the unregistration it emits names the new tool, and
    the registration that follows 100 ms later names it too: the registry
    of the flow server keeps the definition it had under the old name and
    gains one under the new name. *)
Theorem update_rename_keeps_old_name s msg parsed n n' reg t :
  isRegistered s = true -> toolName s = VStr n ->
  command_of msg = Ok (VStr "update") ->
  get (prop msg "payload") "toolName" = Ok (VStr n') ->
  n' <> "" -> n' <> n ->
  assoc n reg = Some t ->
  let s1 := step s (EInput msg parsed) in
  let s2 := step s1 ETimer in
  emissions (log s1) = (emissions (log s) ++ [Unregistration (VStr n')])%list /\
  exists d schema,
    emissions (log s2) = (emissions (log s1) ++ [Registration (VStr n') d schema])%list /\
    forall r1 r2,
      as_registry_event (Unregistration (VStr n')) = Some r1 ->
      as_registry_event (Registration (VStr n') d schema) = Some r2 ->
      let reg' := on_registry_event r2 (on_registry_event r1 reg) in
      assoc n reg' = Some t /\ is_Some (assoc n' reg').
Proof.
  intros Hreg Hname Hcmd Hnew Hne Hdiff Hold s1 s2.
  assert (H1 : s1 = step s (EInput msg parsed)) by done.
  assert (H2 : s2 = step s1 ETimer) by done.
  clearbody s1 s2.
  destruct (update_renames msg parsed s n' Hnew Hne) as (s0 & Hup & En0 & Er0 & El0).
  rewrite Hreg in Er0.
  assert (Htruthy : truthy (VStr n') = true).
  { simpl. by destruct (String.eqb_spec n' ""). }
  simpl in H1. unfold on_input in H1. rewrite Hcmd in H1. simpl in H1.
  rewrite Hup in H1.
  unfold updateRegistration, unregisterTool in H1. rewrite Er0 in H1. simpl in H1.
  assert (E1 : emissions (log s1) = (emissions (log s) ++ [Unregistration (VStr n')])%list).
  { rewrite H1. simpl. by rewrite !emissions_snoc, !app_nil_r, El0, En0. }
  split; [done|].
  rewrite H1 in H2. cbn [step delayed set_delayed emit set_isRegistered] in H2.
  unfold registerTool in H2.
  cbn [toolName toolDescription parsedSchema isRegistered set_delayed emit
       set_isRegistered negb] in H2.
  rewrite En0, Htruthy in H2. cbn [negb] in H2.
  exists (or_else (toolDescription s0) (VStr ("Tool: " ++ n'))), (parsedSchema s0).
  split.
  - rewrite E1, H2. simpl. rewrite !emissions_snoc, !app_nil_r. by rewrite El0.
  - intros r1 r2 [= <-] Hr2.
    destruct (or_else (toolDescription s0) (VStr ("Tool: " ++ n'))) as [| | | |d'| |];
      try discriminate Hr2.
    injection Hr2 as <-. simpl. unfold cache_set, cache_del. split.
    + rewrite assoc_replace_field_ne by done.
      by rewrite assoc_remove_field_ne.
    + rewrite assoc_replace_field_eq. by eexists.
Qed.

End ToolRegistryFacts.

Section ToolRegistryScenarios.

Import ToolRegistry.

Lemma registrations_are_named_witness :
  let s := run (initial (Config "" "" None true)) [EInput [("topic", VStr "register")] None] in
  emissions (log (registerTool s)) = emissions (log s).
Proof.
  apply (proj2 (registrations_are_named (Config "" "" None true)
                  [EInput [("topic", VStr "register")] None])).
  reflexivity.
Defined.


Lemma update_rename_keeps_old_name_witness :
  let s := run (initial echo_registry) [ETimer] in
  let s2 := run s [EInput (rename_to "shout") None; ETimer] in
  let reg := registry_after [Register echo_tool] in
  emissions (log s2) =
    [Registration (VStr "echo") (VStr "Tool: echo") (VObj []);
     Unregistration (VStr "shout");
     Registration (VStr "shout") (VStr "Tool: shout") (VObj [])] /\
  exists d schema,
    forall r1 r2,
      as_registry_event (Unregistration (VStr "shout")) = Some r1 ->
      as_registry_event (Registration (VStr "shout") d schema) = Some r2 ->
      let reg' := on_registry_event r2 (on_registry_event r1 reg) in
      assoc "echo" reg' = Some echo_tool /\ is_Some (assoc "shout" reg').
Proof.
  intros s s2 reg. split; [reflexivity|].
  destruct (update_rename_keeps_old_name s (rename_to "shout") None "echo" "shout"
              reg echo_tool) as (_ & d & schema & _ & H); try reflexivity; try discriminate.
  by exists d, schema.
Defined.

End ToolRegistryScenarios.
